(** * Reconciliation watchers of the plugin manager

    A shallow embedding of the ARP synchroniser ([arpsync/watcher.go]), the
    conntrack synchroniser and the veth enumeration helpers
    ([vethsync/utils/utils.go]), followed by the properties that the
    specification states about them.

    Conventions.
    - Go [int] is the 64-bit integer of the platforms the manager is built for;
      values are kept in [Z] and wrap-around is written out where the code
      multiplies ([time.Duration]).
    - A Go [map] that the code only indexes or fills is a [gmap]; a map that
      the code ranges over and whose visiting order decides the result (the
      JSON objects of a CNI config) is the list of its members in the order
      [range] visits them, so that a statement over all lists covers every
      order the runtime may choose.
    - The kernel, the container runtime and the metadata service are an
      explicit [World] that is threaded through the code; every mutation that
      the code asks of the kernel is appended to the world's list of calls. *)

From Stdlib Require Import ZArith String Ascii List Bool Lia.
From stdpp Require Import base option list gmap strings pretty fin_maps.

Local Open Scope string_scope.
Local Open Scope Z_scope.

(** ** Go values shared by the packages *)

(** A Go [error] value; only its message is kept. *)
Definition error := string.

(** The two ways a Go call ends: it returns, or it panics.  A panic unwinds
    through every caller that does not [recover]. *)
Inductive outcome (A : Type) : Type :=
| Returns (a : A)
| Panics (msg : string).
Arguments Returns {A} a.
Arguments Panics {A} msg.

Definition is_panic {A} (o : outcome A) : bool :=
  match o with Panics _ => true | Returns _ => false end.

(** ** Package [strings] *)
Module strings.

(** [strings.Split(s, sep)] for a separator of one byte, the only kind the
    sources use ([":"] and ["/"]).  The result is never empty: a string
    without the separator yields itself. *)
Fixpoint Split (s : string) (sep : ascii) : list string :=
  match s with
  | EmptyString => [EmptyString]
  | String c rest =>
      if Ascii.eqb c sep then EmptyString :: Split rest sep
      else match Split rest sep with
           | h :: t => String c h :: t
           | [] => [String c EmptyString]
           end
  end.

(** [strings.HasPrefix(s, prefix)]. *)
Definition HasPrefix (s prefix : string) : bool := String.prefix prefix s.

(** Does byte [c] occur in [s]? *)
Fixpoint ContainsByte (s : string) (c : ascii) : bool :=
  match s with
  | EmptyString => false
  | String d rest => Ascii.eqb d c || ContainsByte rest c
  end.

End strings.

(** ** Package [strconv] *)
Module strconv.

Definition maxInt : Z := 2 ^ 63 - 1.
Definition minInt : Z := - 2 ^ 63.

Definition digit (c : ascii) : option Z :=
  let n := Z.of_N (N_of_ascii c) in
  if (48 <=? n) && (n <=? 57) then Some (n - 48) else None.

Fixpoint digits (acc : Z) (s : string) : option Z :=
  match s with
  | EmptyString => Some acc
  | String c rest =>
      match digit c with
      | Some d => digits (acc * 10 + d) rest
      | None => None
      end
  end.

(** [strconv.Atoi]: an optional sign, then one or more decimal digits, and
    the value must fit an [int]; [None] stands for a non-nil error. *)
Definition Atoi (s : string) : option Z :=
  match s with
  | EmptyString => None
  | String c rest =>
      let neg := Ascii.eqb c "-"%char in
      let body := if neg || Ascii.eqb c "+"%char then rest else s in
      match body with
      | EmptyString => None
      | _ =>
          match digits 0 body with
          | Some n =>
              let v := if neg then - n else n in
              if (minInt <=? v) && (v <=? maxInt) then Some v else None
          | None => None
          end
      end
  end.

(** [strconv.Itoa]: the decimal text of an integer. *)
Definition Itoa (i : Z) : string := pretty i.

End strconv.

(** ** Package [time] *)
Module time.

(** The value of a signed 64-bit integer after overflow. *)
Definition wrap64 (z : Z) : Z := (z + 2 ^ 63) mod 2 ^ 64 - 2 ^ 63.

(** [time.Duration] is an [int64] count of nanoseconds. *)
Definition Duration := Z.
Definition Second : Duration := 1000000000.

(** [time.Duration(i) * time.Second] *)
Definition seconds (i : Z) : Duration := wrap64 (wrap64 i * Second).

(** The counts of seconds that a [Duration] can hold. *)
Definition fits_duration (i : Z) : Prop := -9223372036 <= i <= 9223372036.

End time.


(** ** Decoded JSON: Go's [interface{}] values of the metadata service *)
Module json.

(** What [encoding/json] stores in an [interface{}].  An object lists its
    members in the order in which one [range] loop visits them; its keys are
    distinct.  Another loop over the same map may visit them in another
    order: a statement about two steps takes the second step's objects up to
    [order.revisit], further down.  A number is kept as an integer: no code
    path looks inside one. *)
#[local] Unset Elimination Schemes.
Inductive value : Type :=
| Nil
| Str (s : string)
| Num (n : Z)
| Boolean (b : bool)
| Slice (l : list value)
| Map (m : list (string * value)).
#[local] Set Elimination Schemes.

(** [map[string]interface{}]; the nil map is the empty list. *)
Definition object := list (string * value).

(** [m[k]]: the member under [k], or the zero value [nil]. *)
Fixpoint index (m : object) (k : string) : value :=
  match m with
  | [] => Nil
  | (k', v) :: rest => if String.eqb k' k then v else index rest k
  end.

(** [v.(string)] in its two-result form. *)
Definition assertString (v : value) : string * bool :=
  match v with
  | Str s => (s, true)
  | _ => ("", false)
  end.

(** [v.(map[string]interface{})] in its two-result form. *)
Definition assertMap (v : value) : object * bool :=
  match v with
  | Map m => (m, true)
  | _ => ([], false)
  end.

End json.

(** ** Package [net] of the Go standard library *)
Module net.

(** [net.IP] and [net.HardwareAddr] are byte slices. *)
Definition IP := list Byte.byte.
Definition HardwareAddr := list Byte.byte.
Definition IPMask := list Byte.byte.
Record IPNet := mkIPNet { NetIP : IP; Mask : IPMask }.

(** The functions of the package that the watcher calls.  The watcher's
    code depends on nothing but their results, so they are an interface
    here; [gonet.lib] further down is the instance used for the worked
    scenarios.  [None] stands for a non-nil error. *)
Class Lib := {
  ParseCIDR : string -> option IPNet;
  Contains : IPNet -> IP -> bool;
  IP_String : IP -> string;
  HardwareAddr_String : HardwareAddr -> string;
  ParseMAC : string -> option HardwareAddr
}.

End net.

#[global] Instance byte_eq_dec : EqDecision Byte.byte := Byte.byte_eq_dec.

(** ** Package [netlink] (github.com/vishvananda/netlink) *)
Module netlink.

(** Neighbour cache entry states. *)
Definition NUD_REACHABLE : Z := 2.
Definition NUD_STALE : Z := 4.
Definition FAMILY_V4 : Z := 2.

(** The attributes of a link that the code reads through [Attrs()]. *)
Record Link := mkLink {
  Index : Z;
  Name : string;
  MasterIndex : Z;
  ParentIndex : Z
}.

(** [netlink.Neigh]. *)
Record Neigh := mkNeigh {
  LinkIndex : Z;
  Family : Z;
  State : Z;
  Type_ : Z;
  Flags : Z;
  IP : net.IP;
  HardwareAddr : net.HardwareAddr
}.

#[global] Instance Link_eq_dec : EqDecision Link.
Proof. solve_decision. Defined.
#[global] Instance Neigh_eq_dec : EqDecision Neigh.
Proof. solve_decision. Defined.

End netlink.

(** ** Package [conntrack] of the manager *)
Module conntrack.

(** The fields of [conntrack.CTEntry] that the watcher reads. *)
Record CTEntry := mkCTEntry {
  OriginalDestinationIP : string;
  OriginalDestinationPort : string;
  Protocol : string;
  ReplySourceIP : string
}.

#[global] Instance CTEntry_eq_dec : EqDecision CTEntry.
Proof. solve_decision. Defined.

End conntrack.

(** ** Package [metadata] (github.com/rancher/go-rancher-metadata) *)
Module Host.
Record t := mk { UUID : string }.
End Host.

Module Network.
Record t := mk { UUID : string; Metadata : json.object }.
(** The zero value of the struct. *)
Definition zero : t := {| UUID := ""; Metadata := [] |}.
End Network.

Module Container.
Record t := mk {
  HostUUID : string;
  NetworkUUID : string;
  PrimaryIp : string;
  PrimaryMacAddress : string;
  Ports : list string
}.
#[global] Instance eq_dec : EqDecision t.
Proof. solve_decision. Defined.
End Container.

Module Service.
Record t := mk {
  Kind : string;
  Name : string;
  PrimaryServiceName : string;
  Containers : list Container.t
}.
End Service.

(** A Go result pair [(v, err)]: either the value with a nil error, or a
    non-nil error. *)
Inductive result (A : Type) : Type :=
| Ok (a : A)
| Err (e : error).
Arguments Ok {A} a.
Arguments Err {A} e.

Module metadata.

(** [metadata.Client]: what each call of the interface answers during one
    reconciliation step. *)
Record Client := mkClient {
  GetNetworks : result (list Network.t);
  GetSelfHost : result Host.t;
  GetServices : result (list Service.t);
  GetContainers : result (list Container.t)
}.

End metadata.

(** ** Docker engine client *)
Module docker.

(** [types.Container], with [HostConfig.NetworkMode] flattened. *)
Record Container := mkContainer {
  ID : string;
  NetworkMode : string
}.

(** [client.Client] as seen by the veth enumeration: the answer of
    [ContainerList], and for a container id what [network.EnterNS] followed
    by [netlink.LinkByName("eth0")] inside that namespace gives (the link,
    or the error of whichever of the two failed). *)
Record Client := mkClient {
  ContainerList : result (list Container);
  eth0 : string -> result netlink.Link
}.

End docker.

(** ** The kernel behind [netlink] and [conntrack] *)

(** A mutation asked of the kernel.  [NeighDel] is part of the interface of
    the neighbour table although no live line of the sources calls it. *)
Inductive Call : Type :=
| CallNeighSet (n : netlink.Neigh)
| CallNeighDel (n : netlink.Neigh)
| CallLinkDel (l : netlink.Link)
| CallCTEntryDelete (e : conntrack.CTEntry).

(** A table read. *)
Inductive Read : Type :=
| ReadLinkList
| ReadNeighList
| ReadListDNAT.

(** The state a reconciliation step runs in: the three kernel tables, which
    reads and which mutations fail with an I/O error, the mutations asked so
    far (oldest first) and the format strings of the [logrus.Errorf] lines
    written so far (oldest first). *)
Record World := mkWorld {
  links : list netlink.Link;
  neighs : list netlink.Neigh;
  dnat : list conntrack.CTEntry;
  read_error : Read -> option error;
  call_error : Call -> option error;
  calls : list Call;
  errors_logged : list string
}.

Definition Errorf (format : string) (w : World) : World :=
  {| links := links w; neighs := neighs w; dnat := dnat w;
     read_error := read_error w; call_error := call_error w;
     calls := calls w; errors_logged := errors_logged w ++ [format] |}.

Definition record_call (c : Call) (w : World) : World :=
  {| links := links w; neighs := neighs w; dnat := dnat w;
     read_error := read_error w; call_error := call_error w;
     calls := calls w ++ [c]; errors_logged := errors_logged w |}.

Definition with_neighs (ns : list netlink.Neigh) (w : World) : World :=
  {| links := links w; neighs := ns; dnat := dnat w;
     read_error := read_error w; call_error := call_error w;
     calls := calls w; errors_logged := errors_logged w |}.

Definition with_links (ls : list netlink.Link) (w : World) : World :=
  {| links := ls; neighs := neighs w; dnat := dnat w;
     read_error := read_error w; call_error := call_error w;
     calls := calls w; errors_logged := errors_logged w |}.

Definition with_dnat (es : list conntrack.CTEntry) (w : World) : World :=
  {| links := links w; neighs := neighs w; dnat := es;
     read_error := read_error w; call_error := call_error w;
     calls := calls w; errors_logged := errors_logged w |}.

(** The same world with other mutations failing. *)
Definition with_call_error (f : Call -> option error) (w : World) : World :=
  {| links := links w; neighs := neighs w; dnat := dnat w;
     read_error := read_error w; call_error := f;
     calls := calls w; errors_logged := errors_logged w |}.

Module kernel.

(** [netlink.LinkList()] *)
Definition LinkList (w : World) : result (list netlink.Link) :=
  match read_error w ReadLinkList with
  | Some e => Err e
  | None => Ok (links w)
  end.

(** [netlink.LinkByName(name)]: the link of that name, or "Link not found". *)
Definition LinkByName (name : string) (w : World) : result netlink.Link :=
  match List.find (fun l => String.eqb (netlink.Name l) name) (links w) with
  | Some l => Ok l
  | None => Err "Link not found"
  end.

(** [netlink.NeighList(0, FAMILY_V4)] *)
Definition NeighList (w : World) : result (list netlink.Neigh) :=
  match read_error w ReadNeighList with
  | Some e => Err e
  | None => Ok (neighs w)
  end.

(** [conntrack.ListDNAT()] *)
Definition ListDNAT (w : World) : result (list conntrack.CTEntry) :=
  match read_error w ReadListDNAT with
  | Some e => Err e
  | None => Ok (dnat w)
  end.

(** Two neighbour entries are the same cache slot when they agree on the
    link and on the address. *)
Definition same_slot (a b : netlink.Neigh) : bool :=
  (netlink.LinkIndex a =? netlink.LinkIndex b)
  && bool_decide (netlink.IP a = netlink.IP b).

(** The kernel's neighbour table behind [NeighSet], which the specification
    (4.1) describes as an "upsert with given LinkIndex, Ip, HardwareAddr":
    the entry replaces what the table holds for its slot, or is added. *)
Definition upsert (n : netlink.Neigh) (table : list netlink.Neigh) : list netlink.Neigh :=
  if existsb (same_slot n) table
  then List.map (fun x => if same_slot n x then n else x) table
  else table ++ [n].

(** [netlink.NeighSet(&n)]: the call is recorded; it either fails and leaves
    the table alone, or updates it. *)
Definition NeighSet (n : netlink.Neigh) (w : World) : option error * World :=
  let w := record_call (CallNeighSet n) w in
  match call_error w (CallNeighSet n) with
  | Some e => (Some e, w)
  | None => (None, with_neighs (upsert n (neighs w)) w)
  end.

(** [netlink.LinkDel(l)]: the call is recorded; it either fails and leaves
    the links alone, or removes the link of that index. *)
Definition LinkDel (l : netlink.Link) (w : World) : option error * World :=
  let w := record_call (CallLinkDel l) w in
  match call_error w (CallLinkDel l) with
  | Some e => (Some e, w)
  | None =>
      (None, with_links
               (List.filter (fun x => negb (netlink.Index x =? netlink.Index l)) (links w)) w)
  end.

(** The 3-tuple that identifies a DNAT entry. *)
Definition same_flow (a b : conntrack.CTEntry) : bool :=
  String.eqb (conntrack.OriginalDestinationIP a) (conntrack.OriginalDestinationIP b)
  && String.eqb (conntrack.OriginalDestinationPort a) (conntrack.OriginalDestinationPort b)
  && String.eqb (conntrack.Protocol a) (conntrack.Protocol b).

(** [conntrack.CTEntryDelete(e)]: the call is recorded; it either fails and
    leaves the table alone, or removes the entry, which the specification (3)
    has "identified by the 3-tuple (OriginalDestinationIp,
    OriginalDestinationPort, Protocol)". *)
Definition CTEntryDelete (e : conntrack.CTEntry) (w : World) : option error * World :=
  let w := record_call (CallCTEntryDelete e) w in
  match call_error w (CallCTEntryDelete e) with
  | Some err => (Some err, w)
  | None => (None, with_dnat (List.filter (fun x => negb (same_flow e x)) (dnat w)) w)
  end.

End kernel.

(** ** The loop every watcher runs as a goroutine *)
Module watcher.

(** How far a loop got: the number of reconciliation steps it started, and
    the panic that ended it, if one did.  An unrecovered panic ends the
    goroutine, and with it the process. *)
Record Progress := mkProgress {
  steps_started : nat;
  crashed : option string
}.

(** [for { time.Sleep(interval); err := doSync(); if err != nil { Errorf } }]
    observed for [ticks] wake-ups.  The loop has no exit of its own and no
    deferred [recover]. *)
Fixpoint loop (doSync : World -> outcome (option error) * World) (format : string)
    (ticks : nat) (w : World) : Progress * World :=
  match ticks with
  | O => ({| steps_started := 0; crashed := None |}, w)
  | S ticks =>
      match doSync w with
      | (Panics msg, w) => ({| steps_started := 1; crashed := Some msg |}, w)
      | (Returns err, w) =>
          let w := match err with
                   | Some _ => Errorf format w
                   | None => w
                   end in
          let '(p, w) := loop doSync format ticks w in
          ({| steps_started := S (steps_started p); crashed := crashed p |}, w)
      end
  end.

End watcher.

(** ** Package [arpsync] ([arpsync/watcher.go]) *)
Module arpsync.

(** [DefaultSyncInterval], in seconds. *)
Definition DefaultSyncInterval : Z := 120.

Record ARPTableWatcher := mkWatcher {
  syncInterval : time.Duration;
  mc : metadata.Client
}.

(** [Watch]: the watcher whose [syncLoop] the function starts as a
    goroutine. *)
Definition Watch (syncIntervalStr : string) (mc : metadata.Client) : ARPTableWatcher :=
  let syncInterval :=
    match strconv.Atoi syncIntervalStr with
    | Some i => i
    | None => DefaultSyncInterval
    end in
  {| syncInterval := time.seconds syncInterval; mc := mc |}.

(** The loop of [getBridgeInfo] over the members of the CNI config. *)
Fixpoint getBridgeInfo_range (conf : json.object) : result (string * string) :=
  match conf with
  | [] => Err "arpsync: couldn't find bridge info"
  | (_, file) :: rest =>
      let props := fst (json.assertMap file) in
      let cniType := fst (json.assertString (json.index props "type")) in
      let checkBridge := fst (json.assertString (json.index props "bridge")) in
      let checkBridgeSubnet := fst (json.assertString (json.index props "bridgeSubnet")) in
      if String.eqb cniType "rancher-bridge" then
        if negb (String.eqb checkBridge "") then
          if negb (String.eqb checkBridgeSubnet "") then
            Ok (checkBridge, checkBridgeSubnet)
          else Err "error: bridgeSubnet is empty in CNI config"
        else Err "error: bridge is empty in CNI config"
      else getBridgeInfo_range rest
  end.

(** [getBridgeInfo]: the bridge name and the subnet of the CNI plugin. *)
Definition getBridgeInfo (network : Network.t) : result (string * string) :=
  let conf := fst (json.assertMap (json.index (Network.Metadata network) "cniConfig")) in
  getBridgeInfo_range conf.

(** [buildContainersMap]; the returned error is always nil. *)
Definition buildContainersMap (containers : list Container.t) (network : Network.t)
  : gmap string Container.t :=
  fold_left
    (fun containersMap aContainer =>
       if negb (negb (String.eqb (Container.PrimaryIp aContainer) "")
                && String.eqb (Container.NetworkUUID aContainer) (Network.UUID network))
       then containersMap
       else <[Container.PrimaryIp aContainer := aContainer]> containersMap)
    containers ∅.

(** Lines 125-143 of [doSync]: the MAC address of the network driver's
    container on this host, and the networks such containers are on. *)
Definition scanServices (services : list Service.t) (host : Host.t)
  : string * gmap string bool :=
  fold_left
    (fun acc service =>
       if negb (String.eqb (Service.Kind service) "networkDriverService"
                && String.eqb (Service.Name service) (Service.PrimaryServiceName service))
       then acc
       else
         fold_left
           (fun acc aContainer =>
              if String.eqb (Container.HostUUID aContainer) (Host.UUID host)
              then (Container.PrimaryMacAddress aContainer,
                    <[Container.NetworkUUID aContainer := true]> (snd acc))
              else acc)
           (Service.Containers service) acc)
    services ("", ∅).

(** Lines 150-156 of [doSync]: the first network that is local, or the zero
    [Network]. *)
Fixpoint pickLocalNetwork (networks : list Network.t) (localNetworks : gmap string bool)
  : Network.t :=
  match networks with
  | [] => Network.zero
  | aNetwork :: rest =>
      match localNetworks !! Network.UUID aNetwork with
      | Some _ => aNetwork
      | None => pickLocalNetwork rest localNetworks
      end
  end.

Section with_net.
Context `{!net.Lib}.

(** Lines 208-218 and 224-234 of [doSync]: parse the expected address and
    set it on a copy of the entry. *)
Definition fixEntry (aEntry : netlink.Neigh) (expected : string) (w : World) : World :=
  match net.ParseMAC expected with
  | None => Errorf "arpsync: couldn't parse MAC address(%v): %v" w
  | Some newHardwareAddr =>
      let newEntry :=
        {| netlink.LinkIndex := netlink.LinkIndex aEntry;
           netlink.Family := netlink.Family aEntry;
           netlink.State := netlink.State aEntry;
           netlink.Type_ := netlink.NUD_REACHABLE;
           netlink.Flags := netlink.Flags aEntry;
           netlink.IP := netlink.IP aEntry;
           netlink.HardwareAddr := newHardwareAddr |} in
      match kernel.NeighSet newEntry w with
      | (Some _, w) => Errorf "arpsync: error changing ARP entry: %v" w
      | (None, w) => w
      end
  end.

(** The body of the loop over the neighbour entries, lines 198-244. *)
Definition syncEntry (host : Host.t) (networkDriverMacAddress : string)
    (bridgeLinkIndex : Z) (bridgeSubnet : net.IPNet)
    (containersMap : gmap string Container.t)
    (aEntry : netlink.Neigh) (w : World) : World :=
  if negb ((netlink.LinkIndex aEntry =? bridgeLinkIndex)
           && net.Contains bridgeSubnet (netlink.IP aEntry))
  then w
  else
    match containersMap !! net.IP_String (netlink.IP aEntry) with
    | Some container =>
        if String.eqb (Container.HostUUID container) (Host.UUID host) then
          if negb (String.eqb (Container.PrimaryMacAddress container)
                     (net.HardwareAddr_String (netlink.HardwareAddr aEntry)))
          then fixEntry aEntry (Container.PrimaryMacAddress container) w
          else w
        else
          if negb (String.eqb (net.HardwareAddr_String (netlink.HardwareAddr aEntry))
                     networkDriverMacAddress)
          then
            fixEntry aEntry networkDriverMacAddress
              (Errorf "arpsync: wrong ARP entry found=%+v(expected: %v) for remote container, fixing it" w)
          else w
    | None => w
    end.

Definition syncEntries (host : Host.t) (networkDriverMacAddress : string)
    (bridgeLinkIndex : Z) (bridgeSubnet : net.IPNet)
    (containersMap : gmap string Container.t)
    (entries : list netlink.Neigh) (w : World) : World :=
  fold_left
    (fun w aEntry =>
       syncEntry host networkDriverMacAddress bridgeLinkIndex bridgeSubnet
         containersMap aEntry w)
    entries w.

(** [doSync]: one reconciliation step; the result is the returned error
    ([None] for nil) and the world the step leaves. *)
Definition doSync (atw : ARPTableWatcher) (w : World) : option error * World :=
  match metadata.GetNetworks (mc atw) with
  | Err err => (Some err, Errorf "arpsync: error fetching networks from metadata" w)
  | Ok networks =>
  match metadata.GetSelfHost (mc atw) with
  | Err err => (Some err, Errorf "arpsync: error fetching self host from metadata" w)
  | Ok host =>
  match metadata.GetServices (mc atw) with
  | Err err => (Some err, Errorf "arpsync: error fetching services from metadata" w)
  | Ok services =>
  let '(networkDriverMacAddress, localNetworks) := scanServices services host in
  if bool_decide (size localNetworks = 0%nat)
  then (Some "couldn't find any local networks", w)
  else
  let localNetwork := pickLocalNetwork networks localNetworks in
  match getBridgeInfo localNetwork with
  | Err err => (Some err, w)
  | Ok (bridge, bridgeSubnetStr) =>
  match kernel.LinkByName bridge w with
  | Err err => (Some err, Errorf "arpsync: error fetching LinkByName for bridge: %v" w)
  | Ok bridgeLink =>
  match net.ParseCIDR bridgeSubnetStr with
  | None => (Some "invalid CIDR address", Errorf "arpsync: error parsing bridgeSubnet: %v" w)
  | Some bridgeSubnet =>
  match kernel.NeighList w with
  | Err err => (Some err, Errorf "arpsync: error fetching entries from ARP table" w)
  | Ok entries =>
  match metadata.GetContainers (mc atw) with
  | Err err => (Some err, Errorf "arpsync: error fetching containers from metadata" w)
  | Ok containers =>
  let containersMap := buildContainersMap containers localNetwork in
  let bridgeLinkIndex := netlink.Index bridgeLink in
  (None,
   syncEntries host networkDriverMacAddress bridgeLinkIndex bridgeSubnet
     containersMap entries w)
  end end end end end end end end.

(** [syncLoop] *)
Definition syncLoop (atw : ARPTableWatcher) (ticks : nat) (w : World)
  : watcher.Progress * World :=
  watcher.loop (fun w => let '(err, w) := doSync atw w in (Returns err, w))
    "arpsync: while syncing, got error: %v" ticks w.

End with_net.

End arpsync.

(** ** Package [conntracksync] *)
Module conntracksync.

(** [DefaultSyncInterval], in seconds. *)
Definition DefaultSyncInterval : Z := 120.

Record ConntrackTableWatcher := mkWatcher {
  syncInterval : time.Duration;
  mc : metadata.Client
}.

(** [Watch]: the watcher whose [syncLoop] the function starts as a
    goroutine. *)
Definition Watch (syncIntervalStr : string) (mc : metadata.Client) : ConntrackTableWatcher :=
  let syncInterval :=
    match strconv.Atoi syncIntervalStr with
    | Some i => i
    | None => DefaultSyncInterval
    end in
  {| syncInterval := time.seconds syncInterval; mc := mc |}.

(** The body of the loop over one container's ports, lines 300-310. *)
Definition addPort (aContainer : Container.t)
    (acc : outcome (gmap string Container.t)) (aPort : string)
  : outcome (gmap string Container.t) :=
  match acc with
  | Panics msg => Panics msg
  | Returns containersMap =>
      match strings.Split aPort ":"%char with
      | [hostIP; hostPort; third] =>
          match strings.Split third "/"%char !! 1%nat with
          | None => Panics "runtime error: index out of range"
          | Some protocol =>
              Returns (<[hostIP +:+ ":" +:+ hostPort +:+ "/" +:+ protocol := aContainer]>
                         containersMap)
          end
      | _ => Returns containersMap
      end
  end.

(** The loop over the containers, lines 295-311. *)
Definition addContainer (host : Host.t)
    (acc : outcome (gmap string Container.t)) (aContainer : Container.t)
  : outcome (gmap string Container.t) :=
  if negb (String.eqb (Container.HostUUID aContainer) (Host.UUID host)
           && (0 <? Z.of_nat (length (Container.Ports aContainer))))
  then acc
  else fold_left (addPort aContainer) (Container.Ports aContainer) acc.

(** [buildContainersMaps] *)
Definition buildContainersMaps (ctw : ConntrackTableWatcher) (w : World)
  : outcome (result (gmap string Container.t)) * World :=
  match metadata.GetSelfHost (mc ctw) with
  | Err err => (Returns (Err err), Errorf "conntracksync: error fetching self host from metadata" w)
  | Ok host =>
      match metadata.GetContainers (mc ctw) with
      | Err err =>
          (Returns (Err err), Errorf "conntracksync: error fetching containers from metadata" w)
      | Ok containers =>
          match fold_left (addContainer host) containers (Returns ∅) with
          | Panics msg => (Panics msg, w)
          | Returns containersMap => (Returns (Ok containersMap), w)
          end
      end
  end.

(** The body of the loop over the conntrack entries, lines 258-276. *)
Definition syncEntry (containersMap : gmap string Container.t)
    (ctEntry : conntrack.CTEntry) (w : World) : World :=
  let specificKey :=
    conntrack.OriginalDestinationIP ctEntry +:+ ":"
    +:+ conntrack.OriginalDestinationPort ctEntry +:+ "/" +:+ conntrack.Protocol ctEntry in
  let found :=
    match containersMap !! specificKey with
    | Some c => Some c
    | None =>
        let genericKey :=
          "0.0.0.0:" +:+ conntrack.OriginalDestinationPort ctEntry
          +:+ "/" +:+ conntrack.Protocol ctEntry in
        containersMap !! genericKey
    end in
  match found with
  | None => w
  | Some c =>
      if negb (String.eqb (conntrack.ReplySourceIP ctEntry) (Container.PrimaryIp c)) then
        match kernel.CTEntryDelete ctEntry w with
        | (Some _, w) => Errorf "conntracksync: error deleting the conntrack entry: %v" w
        | (None, w) => w
        end
      else w
  end.

(** [doSync]: one reconciliation step. *)
Definition doSync (ctw : ConntrackTableWatcher) (w : World)
  : outcome (option error) * World :=
  match buildContainersMaps ctw w with
  | (Panics msg, w) => (Panics msg, w)
  | (Returns (Err err), w) =>
      (Returns (Some err), Errorf "conntracksync: error building containersMap" w)
  | (Returns (Ok containersMap), w) =>
      match kernel.ListDNAT w with
      | Err err =>
          (Returns (Some err), Errorf "conntracksync: error fetching conntrack entries" w)
      | Ok ctEntries =>
          (Returns None, fold_left (fun w ctEntry => syncEntry containersMap ctEntry w) ctEntries w)
      end
  end.

(** [syncLoop] *)
Definition syncLoop (ctw : ConntrackTableWatcher) (ticks : nat) (w : World)
  : watcher.Progress * World :=
  watcher.loop (doSync ctw) "conntracksync: while syncing, got error: %v" ticks w.

End conntracksync.

(** ** Package [vethsync/utils] ([vethsync/utils/utils.go]) *)
Module utils.

(** The body of the loop of [getBridgeInfoFromCNIConfig]; the state is the
    pair of [bridge] and [lastErr]. *)
Definition bridgeStep (acc : (string * option error) * World) (member : string * json.value)
  : (string * option error) * World :=
  let '((bridge, lastErr), w) := acc in
  match json.assertMap (snd member) with
  | (_, false) =>
      ((bridge, Some "error getting props from cni config"), Errorf "vethsync/utils: %v" w)
  | (props, true) =>
      match json.assertString (json.index props "bridge") with
      | (bridge, false) =>
          ((bridge, Some "error getting bridge from cni config"), Errorf "vethsync/utils: %v" w)
      | (bridge, true) => ((bridge, lastErr), w)
      end
  end.

(** [getBridgeInfoFromCNIConfig]: the bridge and the error it returns. *)
Definition getBridgeInfoFromCNIConfig (cniConf : json.object) (w : World)
  : (string * option error) * World :=
  fold_left bridgeStep cniConf (("", None), w).

(** The body of the loop of lines 38-49 of [GetHostViewVethMap]. *)
Definition addLocalBridge (acc : gmap string bool * World) (n : Network.t)
  : gmap string bool * World :=
  let '(localBridges, w) := acc in
  match json.assertMap (json.index (Network.Metadata n) "cniConfig") with
  | (_, false) => (localBridges, w)
  | (cniConf, true) =>
      match getBridgeInfoFromCNIConfig cniConf w with
      | ((_, Some _), w) => (localBridges, w)
      | ((b, None), w) => (<[b := true]> localBridges, w)
      end
  end.

(** Lines 37-49 of [GetHostViewVethMap]: the names of the local bridges. *)
Definition localBridgesOf (localNetworks : list Network.t) (w : World)
  : gmap string bool * World :=
  fold_left addLocalBridge localNetworks (∅, w).

(** Lines 51-57: the links that carry the name of a local bridge, by index. *)
Definition localBridgesLinks (alllinks : list netlink.Link) (localBridges : gmap string bool)
  : gmap Z netlink.Link :=
  fold_left
    (fun m l =>
       match localBridges !! netlink.Name l with
       | Some _ => <[netlink.Index l := l]> m
       | None => m
       end)
    alllinks ∅.

(** Lines 66-74: the links with the prefix whose master is a local bridge,
    by the decimal text of their index. *)
Definition vethsOf (vethPrefix : string) (alllinks : list netlink.Link)
    (localBridgesLinksMap : gmap Z netlink.Link) : gmap string netlink.Link :=
  fold_left
    (fun veths l =>
       if negb (strings.HasPrefix (netlink.Name l) vethPrefix) then veths
       else
         match localBridgesLinksMap !! netlink.MasterIndex l with
         | None => veths
         | Some _ => <[strconv.Itoa (netlink.Index l) := l]> veths
         end)
    alllinks ∅.

Section with_network.
(** [network.LocalNetworks(mc)] of the manager's [network] package, with
    the result the caller drops left out. *)
Variable LocalNetworks : metadata.Client -> result (list Network.t).

(** [GetHostViewVethMap] *)
Definition GetHostViewVethMap (vethPrefix : string) (mc : metadata.Client) (w : World)
  : result (gmap string netlink.Link) * World :=
  match kernel.LinkList w with
  | Err err => (Err err, Errorf "vethsync/utils: error getting links: %v" w)
  | Ok alllinks =>
      match LocalNetworks mc with
      | Err err => (Err err, Errorf "vethsync/utils: error fetching local networks: %v" w)
      | Ok localNetworks =>
          let '(localBridges, w) := localBridgesOf localNetworks w in
          let localBridgesLinksMap := localBridgesLinks alllinks localBridges in
          if bool_decide (size localBridgesLinksMap = 0%nat) then
            (Err "couldn't find any local bridge link", Errorf "vethsync/utils: %v" w)
          else (Ok (vethsOf vethPrefix alllinks localBridgesLinksMap), w)
      end
  end.
End with_network.

(** The body of the loop of [GetContainersViewVethMapByEnteringNS],
    lines 112-132. *)
Definition addContainerVeth (dc : docker.Client) (acc : gmap string bool * World)
    (aContainer : docker.Container) : gmap string bool * World :=
  let '(containerVethIndices, w) := acc in
  if String.eqb (docker.NetworkMode aContainer) "host" then acc
  else
    match docker.eth0 dc (docker.ID aContainer) with
    | Err _ =>
        (containerVethIndices,
         Errorf "vethsync/utils: error figuring out the vethIndex for container %v: %v" w)
    | Ok link =>
        let vethIndex := strconv.Itoa (netlink.ParentIndex link) in
        (<[vethIndex := true]> containerVethIndices, w)
    end.

(** [GetContainersViewVethMapByEnteringNS] *)
Definition GetContainersViewVethMapByEnteringNS (dc : docker.Client) (w : World)
  : result (gmap string bool) * World :=
  match docker.ContainerList dc with
  | Err err =>
      (Err err, Errorf "vethsync/utils: error fetching containers from docker client: %v" w)
  | Ok containers =>
      let '(containerVethIndices, w) := fold_left (addContainerVeth dc) containers (∅, w) in
      (Ok containerVethIndices, w)
  end.

(** [s[:n]]: the first [n] bytes, or [None] where Go panics because [s] is
    shorter. *)
Definition slice_to (s : string) (n : nat) : option string :=
  if (String.length s <? n)%nat then None else Some (String.substring 0 n s).

(** The body of the loop of [GetContainersViewVethMapUsingID], lines 146-152. *)
Definition addContainerID (acc : outcome (gmap string bool)) (aContainer : docker.Container)
  : outcome (gmap string bool) :=
  match acc with
  | Panics msg => Panics msg
  | Returns containerVethIndices =>
      if String.eqb (docker.NetworkMode aContainer) "host" then acc
      else
        match slice_to (docker.ID aContainer) 10 with
        | None => Panics "runtime error: slice bounds out of range"
        | Some prefix =>
            let index := "vethr" +:+ prefix in
            Returns (<[index := true]> containerVethIndices)
        end
  end.

(** [GetContainersViewVethMapUsingID] *)
Definition GetContainersViewVethMapUsingID (dc : docker.Client) (w : World)
  : outcome (result (gmap string bool)) * World :=
  match docker.ContainerList dc with
  | Err err =>
      (Returns (Err err),
       Errorf "vethsync/utils: error fetching containers from docker client: %v" w)
  | Ok containers =>
      match fold_left addContainerID containers (Returns ∅) with
      | Panics msg => (Panics msg, w)
      | Returns containerVethIndices => (Returns (Ok containerVethIndices), w)
      end
  end.

(** [GetDanglingVeths]: the members of the host view whose key the
    container view lacks; the returned error is always nil. *)
Definition GetDanglingVeths (hostVethMap : gmap string netlink.Link)
    (containerVethMap : gmap string bool) : gmap string netlink.Link :=
  filter (fun kv => containerVethMap !! fst kv = None) hostVethMap.

(** The body of the loop of [CleanUpDanglingVeths]. *)
Definition deleteVeth (w : World) (kv : string * netlink.Link) : World :=
  match kernel.LinkDel (snd kv) w with
  | (Some _, w) => Errorf "vethsync/utils: error deleting dangling veth: %v" w
  | (None, w) => w
  end.

(** [CleanUpDanglingVeths]: Go leaves the order of [range] over a map open;
    [map_to_list] stands for the order of one run.  The returned error is
    always nil. *)
Definition CleanUpDanglingVeths (dangling : gmap string netlink.Link) (w : World) : World :=
  fold_left deleteVeth (map_to_list dangling) w.

End utils.

(** ** An instance of [net.Lib]: the IPv4 and MAC part of Go's [net] *)
Module gonet.

Definition hexDigit (n : N) : ascii :=
  match String.get (N.to_nat n) "0123456789abcdef" with
  | Some c => c
  | None => "?"%char
  end.

Definition hex2 (b : Byte.byte) : string :=
  String (hexDigit (N.shiftr (Byte.to_N b) 4))
    (String (hexDigit (N.land (Byte.to_N b) 15)) EmptyString).

(** [HardwareAddr.String]: lower-case hexadecimal octets joined by colons. *)
Fixpoint HardwareAddr_String (a : net.HardwareAddr) : string :=
  match a with
  | [] => ""
  | [b] => hex2 b
  | b :: rest => hex2 b +:+ ":" +:+ HardwareAddr_String rest
  end.

Definition hexval (c : ascii) : option N :=
  let n := N_of_ascii c in
  if (48 <=? n)%N && (n <=? 57)%N then Some (n - 48)%N
  else if (97 <=? n)%N && (n <=? 102)%N then Some (n - 97 + 10)%N
  else if (65 <=? n)%N && (n <=? 70)%N then Some (n - 65 + 10)%N
  else None.

Fixpoint drop_bytes (n : nat) (s : string) : string :=
  match n, s with
  | O, _ => s
  | S n, String _ rest => drop_bytes n rest
  | S _, EmptyString => EmptyString
  end.

(** [xtoi2(s, e)]: the first two bytes of [s] as one hexadecimal octet; a
    third byte, if there is one, must be [e]. *)
Definition xtoi2 (s : string) (e : option ascii) : option Byte.byte :=
  match s with
  | String a (String b rest) =>
      let sep_ok :=
        match rest, e with
        | EmptyString, _ => true
        | String c _, Some e => Ascii.eqb c e
        | String c _, None => Ascii.eqb c Ascii.zero
        end in
      if sep_ok then
        match hexval a, hexval b with
        | Some x, Some y => Byte.of_N (16 * x + y)
        | _, _ => None
        end
      else None
  | _ => None
  end.

(** [net.ParseMAC]: 6, 8 or 20 octets written [01:23:..], [01-23-..] or
    [0123.4567...], in either letter case. *)
Definition ParseMAC (s : string) : option net.HardwareAddr :=
  let len := String.length s in
  if (len <? 14)%nat then None
  else
    match String.get 2 s, String.get 4 s with
    | Some c2, Some c4 =>
        if Ascii.eqb c2 ":" || Ascii.eqb c2 "-" then
          if negb (((len + 1) mod 3 =? 0)%nat) then None
          else
            let n := ((len + 1) / 3)%nat in
            if negb ((n =? 6) || (n =? 8) || (n =? 20))%nat then None
            else mapM (fun i => xtoi2 (drop_bytes (3 * i) s) (Some c2)) (seq 0 n)
        else if Ascii.eqb c4 "." then
          if negb (((len + 1) mod 5 =? 0)%nat) then None
          else
            let n := (2 * (len + 1) / 5)%nat in
            if negb ((n =? 6) || (n =? 8) || (n =? 20))%nat then None
            else
              (fun octets => concat octets) <$>
                mapM (fun k =>
                        match xtoi2 (String.substring (5 * k) 2 s) None,
                              xtoi2 (drop_bytes (5 * k + 2) s) (Some c4) with
                        | Some hi, Some lo => Some [hi; lo]
                        | _, _ => None
                        end)
                  (seq 0 (n / 2))
        else None
    | _, _ => None
    end.

(** [IP.To4] *)
Definition To4 (ip : net.IP) : option net.IP :=
  match ip with
  | [_; _; _; _] => Some ip
  | [Byte.x00; Byte.x00; Byte.x00; Byte.x00; Byte.x00; Byte.x00; Byte.x00; Byte.x00;
     Byte.x00; Byte.x00; Byte.xff; Byte.xff; a; b; c; d] => Some [a; b; c; d]
  | _ => None
  end.

(** [IP.String] on IPv4 addresses, the family the watcher lists; the text
    of other addresses is not modelled and left as a mark and the octets. *)
Definition IP_String (ip : net.IP) : string :=
  match ip with
  | [] => "<nil>"
  | _ =>
      match To4 ip with
      | Some [a; b; c; d] =>
          strconv.Itoa (Z.of_N (Byte.to_N a)) +:+ "." +:+ strconv.Itoa (Z.of_N (Byte.to_N b))
          +:+ "." +:+ strconv.Itoa (Z.of_N (Byte.to_N c)) +:+ "."
          +:+ strconv.Itoa (Z.of_N (Byte.to_N d))
      | _ => "?" +:+ String.concat "" (hex2 <$> ip)
      end
  end.

Definition byte_and (a b : Byte.byte) : Byte.byte :=
  match Byte.of_N (N.land (Byte.to_N a) (Byte.to_N b)) with
  | Some c => c
  | None => Byte.x00
  end.

(** [IPNet.Contains] *)
Definition Contains (n : net.IPNet) (ip : net.IP) : bool :=
  let ip := match To4 ip with Some x => x | None => ip end in
  let nn := match To4 (net.NetIP n) with Some x => x | None => net.NetIP n end in
  let m := net.Mask n in
  (length ip =? length nn)%nat && (length m =? length nn)%nat
  && bool_decide (zip_with byte_and nn m = zip_with byte_and ip m).

(** One decimal octet of a dotted address. *)
Definition octet (s : string) : option Byte.byte :=
  match s with
  | EmptyString => None
  | _ =>
      if (3 <? String.length s)%nat then None
      else match strconv.digits 0 s with
           | Some n => Byte.of_N (Z.to_N n)
           | None => None
           end
  end.

(** [net.CIDRMask(ones, 32)] *)
Definition CIDRMask (ones : Z) : net.IPMask :=
  let bits := Z.to_N (Z.shiftl (Z.ones ones) (32 - ones)) in
  (fun i => match Byte.of_N (N.land (N.shiftr bits (8 * (3 - i))) 255) with
            | Some b => b
            | None => Byte.x00
            end) <$> [0; 1; 2; 3]%N.

(** [net.ParseCIDR] on IPv4 prefixes [a.b.c.d/len]; the network it returns. *)
Definition ParseCIDR (s : string) : option net.IPNet :=
  match strings.Split s "/" with
  | [addr; mask] =>
      match mapM octet (strings.Split addr "."), mask with
      | Some [a; b; c; d], String _ _ =>
          if (2 <? String.length mask)%nat then None
          else
            match strconv.digits 0 mask with
            | Some n =>
                if n <=? 32 then
                  let m := CIDRMask n in
                  Some {| net.NetIP := zip_with byte_and [a; b; c; d] m; net.Mask := m |}
                else None
            | None => None
            end
      | _, _ => None
      end
  | _ => None
  end.

#[global] Instance lib : net.Lib := {|
  net.ParseCIDR := ParseCIDR;
  net.Contains := Contains;
  net.IP_String := IP_String;
  net.HardwareAddr_String := HardwareAddr_String;
  net.ParseMAC := ParseMAC
|}.

End gonet.

(** ** Package [vethsync]: the veth watcher *)
Module vethsync.

Section with_parameters.
(** [vethsync.DefaultSyncInterval], in seconds: [main] prints it, its
    declaration is in the watcher's own file. *)
Variable DefaultSyncInterval : Z.
Variable LocalNetworks : metadata.Client -> result (list Network.t).

(** Modelled from the spec: [vethsync.Watch], whose file is not among the
    sources; "Interval is parsed from a string configuration; unparsable
    or empty falls back to a per-watcher default (... veth
    DefaultSyncInterval)".  The result is the interval of the loop. *)
Definition Watch (syncIntervalStr : string) : time.Duration :=
  let syncInterval :=
    match strconv.Atoi syncIntervalStr with
    | Some i => i
    | None => DefaultSyncInterval
    end in
  time.seconds syncInterval.

(** Modelled from the spec: the reconciliation step of the veth watcher,
    whose file is not among the sources; "1. host = host_view(prefix,
    metadata_view). 2. container = container_view_via_ns(runtime).
    3. dangling = diff(host, container). 4. For each link in dangling:
    link_delete; on error, log and continue", a step-level error
    aborting the step. *)
Definition doSync (vethPrefix : string) (mc : metadata.Client) (dc : docker.Client)
    (w : World) : option error * World :=
  match utils.GetHostViewVethMap LocalNetworks vethPrefix mc w with
  | (Err err, w) => (Some err, w)
  | (Ok hostVethMap, w) =>
      match utils.GetContainersViewVethMapByEnteringNS dc w with
      | (Err err, w) => (Some err, w)
      | (Ok containerVethMap, w) =>
          let dangling := utils.GetDanglingVeths hostVethMap containerVethMap in
          (None, utils.CleanUpDanglingVeths dangling w)
      end
  end.
End with_parameters.

End vethsync.

(** ** The ARP step in the words of the specification *)
Module arpspec.

Section with_net.
Context `{!net.Lib}.

(** What a step has in hand when it reaches the loop over the neighbour
    entries. *)
Record Context := mkContext {
  host : Host.t;
  DriverMac : string;
  bridgeLink : netlink.Link;
  BridgeSubnet : net.IPNet;
  entries : list netlink.Neigh;
  containersMap : gmap string Container.t
}.

(** The step of watcher [atw] started in world [w] gets through every
    fetch and lookup before the loop, with the values of [ctx]. *)
Definition reaches (atw : arpsync.ARPTableWatcher) (w : World) (ctx : Context) : Prop :=
  exists networks services localNetworks bridge bridgeSubnetStr containers,
    metadata.GetNetworks (arpsync.mc atw) = Ok networks
    /\ metadata.GetSelfHost (arpsync.mc atw) = Ok (host ctx)
    /\ metadata.GetServices (arpsync.mc atw) = Ok services
    /\ arpsync.scanServices services (host ctx) = (DriverMac ctx, localNetworks)
    /\ size localNetworks <> 0%nat
    /\ arpsync.getBridgeInfo (arpsync.pickLocalNetwork networks localNetworks)
       = Ok (bridge, bridgeSubnetStr)
    /\ kernel.LinkByName bridge w = Ok (bridgeLink ctx)
    /\ net.ParseCIDR bridgeSubnetStr = Some (BridgeSubnet ctx)
    /\ kernel.NeighList w = Ok (entries ctx)
    /\ metadata.GetContainers (arpsync.mc atw) = Ok containers
    /\ containersMap ctx
       = arpsync.buildContainersMap containers
           (arpsync.pickLocalNetwork networks localNetworks).

(** "LinkIndex == bridge.Index and Ip in BridgeSubnet" *)
Definition in_scope (ctx : Context) (e : netlink.Neigh) : bool :=
  (netlink.LinkIndex e =? netlink.Index (bridgeLink ctx))
  && net.Contains (BridgeSubnet ctx) (netlink.IP e).

(** The container that metadata has for the address of the entry. *)
Definition container_of (ctx : Context) (e : netlink.Neigh) : option Container.t :=
  containersMap ctx !! net.IP_String (netlink.IP e).

(** "c is local: expected MAC is c.PrimaryMacAddress; c is remote:
    expected MAC is DriverMac" *)
Definition expectedMAC (ctx : Context) (c : Container.t) : string :=
  if String.eqb (Container.HostUUID c) (Host.UUID (host ctx))
  then Container.PrimaryMacAddress c
  else DriverMac ctx.

(** The text of the address the kernel has for the entry. *)
Definition actualMAC (e : netlink.Neigh) : string :=
  net.HardwareAddr_String (netlink.HardwareAddr e).

(** The entry that a repair hands to [NeighSet]. *)
Definition repaired (e : netlink.Neigh) (mac : net.HardwareAddr) : netlink.Neigh :=
  {| netlink.LinkIndex := netlink.LinkIndex e;
     netlink.Family := netlink.Family e;
     netlink.State := netlink.State e;
     netlink.Type_ := netlink.NUD_REACHABLE;
     netlink.Flags := netlink.Flags e;
     netlink.IP := netlink.IP e;
     netlink.HardwareAddr := mac |}.

(** The mutations that the step asks for one entry. *)
Definition repair (ctx : Context) (e : netlink.Neigh) : list Call :=
  if in_scope ctx e then
    match container_of ctx e with
    | Some c =>
        if String.eqb (expectedMAC ctx c) (actualMAC e) then []
        else
          match net.ParseMAC (expectedMAC ctx c) with
          | Some mac => [CallNeighSet (repaired e mac)]
          | None => []
          end
    | None => []
    end
  else [].

(** The loop of the step, run with the values of a context. *)
Definition run_entries (ctx : Context) (es : list netlink.Neigh) (w : World) : World :=
  arpsync.syncEntries (host ctx) (DriverMac ctx)
    (netlink.Index (bridgeLink ctx)) (BridgeSubnet ctx)
    (containersMap ctx) es w.



End with_net.

End arpspec.

(** ** The conntrack step in the words of the specification *)
Module ctspec.

(** "specific = {e.OriginalDestinationIp}:{e.OriginalDestinationPort}/{e.Protocol}" *)
Definition specificKey (e : conntrack.CTEntry) : string :=
  conntrack.OriginalDestinationIP e +:+ ":" +:+ conntrack.OriginalDestinationPort e
  +:+ "/" +:+ conntrack.Protocol e.

(** "generic = 0.0.0.0:{e.OriginalDestinationPort}/{e.Protocol}" *)
Definition genericKey (e : conntrack.CTEntry) : string :=
  "0.0.0.0:" +:+ conntrack.OriginalDestinationPort e +:+ "/" +:+ conntrack.Protocol e.

(** "If specific hits the map, expected = mapped container.  Else ... if
    [generic] hits, expected = mapped container; otherwise skip." *)
Definition expected (m : gmap string Container.t) (e : conntrack.CTEntry)
  : option Container.t :=
  match m !! specificKey e with
  | Some c => Some c
  | None => m !! genericKey e
  end.

(** "e.ReplySourceIp differs from expected.PrimaryIp" *)
Definition stale (m : gmap string Container.t) (e : conntrack.CTEntry) : bool :=
  match expected m e with
  | Some c => negb (String.eqb (conntrack.ReplySourceIP e) (Container.PrimaryIp c))
  | None => false
  end.

(** The loop of the step over the conntrack entries. *)
Definition run_flows (m : gmap string Container.t) (es : list conntrack.CTEntry) (w : World)
  : World :=
  fold_left (fun w ctEntry => conntracksync.syncEntry m ctEntry w) es w.

(** A port string that makes the map construction index past the end: three
    fields between colons, the third without a slash. *)
Definition bad_port (aPort : string) : bool :=
  match strings.Split aPort ":"%char with
  | [_; _; third] => negb (strings.ContainsByte third "/"%char)
  | _ => false
  end.

(** A container whose ports the map construction reads. *)
Definition publishes_here (host : Host.t) (c : Container.t) : bool :=
  String.eqb (Container.HostUUID c) (Host.UUID host)
  && (0 <? Z.of_nat (length (Container.Ports c))).

End ctspec.

(** ** The veth enumeration in the words of the specification *)
Module vethspec.

(** The bridge that a member of a CNI config names: the member is an object
    and its "bridge" is a string.  The "type" of the member plays no part. *)
Definition bridge_of (config : json.value) : option string :=
  match config with
  | json.Map props =>
      match json.index props "bridge" with
      | json.Str b => Some b
      | _ => None
      end
  | _ => None
  end.

(** The bridge of the member visited last, or [""] for an empty config. *)
Definition last_bridge (cniConf : json.object) : string :=
  default "" (last cniConf ≫= fun member => bridge_of (snd member)).

(** The bridge that a local network adds to the set. *)
Definition bridge_added (n : Network.t) (w : World) : option string :=
  match json.index (Network.Metadata n) "cniConfig" with
  | json.Map cniConf =>
      match fst (utils.getBridgeInfoFromCNIConfig cniConf w) with
      | (b, None) => Some b
      | (_, Some _) => None
      end
  | _ => None
  end.

(** A CNI config with a bridge plugin and a second plugin without a bridge. *)
Definition two_plugins : json.object :=
  [("10-rancher.conf",
    json.Map [("type", json.Str "rancher-bridge"); ("bridge", json.Str "docker0");
              ("bridgeSubnet", json.Str "10.42.0.0/16")]);
   ("99-loopback.conf", json.Map [("type", json.Str "loopback")])].

End vethspec.

(** ** Words for the further properties *)
Module derived.

(** The fields that [getBridgeInfo] reads off a member of the CNI config; a
    member that is not an object, or a field that is not a string, reads as
    the empty string. *)
Definition cniType (file : json.value) : string :=
  fst (json.assertString (json.index (fst (json.assertMap file)) "type")).
Definition bridge (file : json.value) : string :=
  fst (json.assertString (json.index (fst (json.assertMap file)) "bridge")).
Definition bridgeSubnet (file : json.value) : string :=
  fst (json.assertString (json.index (fst (json.assertMap file)) "bridgeSubnet")).

(** A member whose type is the bridge plugin. *)
Definition is_bridge_plugin (member : string * json.value) : bool :=
  String.eqb (cniType (snd member)) "rancher-bridge".

(** The CNI config of a network as [getBridgeInfo] ranges over it. *)
Definition cniConfig (network : Network.t) : json.object :=
  fst (json.assertMap (json.index (Network.Metadata network) "cniConfig")).

(** A container that [buildContainersMap] indexes: it has an address and is
    on the network. *)
Definition indexed (network : Network.t) (c : Container.t) : bool :=
  negb (String.eqb (Container.PrimaryIp c) "")
  && String.eqb (Container.NetworkUUID c) (Network.UUID network).

(** The service that the ARP step takes for the network driver. *)
Definition is_driver (service : Service.t) : bool :=
  String.eqb (Service.Kind service) "networkDriverService"
  && String.eqb (Service.Name service) (Service.PrimaryServiceName service).

(** The containers of the network driver services on this host, in the order
    the step visits them. *)
Definition driver_containers (services : list Service.t) (host : Host.t)
  : list Container.t :=
  flat_map
    (fun service =>
       if is_driver service
       then List.filter
              (fun c => String.eqb (Container.HostUUID c) (Host.UUID host))
              (Service.Containers service)
       else [])
    services.

(** What the scan does with one container of a network driver on this host. *)
Definition scan_step (acc : string * gmap string bool) (c : Container.t)
  : string * gmap string bool :=
  (Container.PrimaryMacAddress c, <[Container.NetworkUUID c := true]> (snd acc)).

(** The key that a published port gives, when it has three fields and a
    protocol. *)
Definition port_key (aPort : string) : option string :=
  match strings.Split aPort ":"%char with
  | [hostIP; hostPort; third] =>
      match strings.Split third "/"%char !! 1%nat with
      | Some protocol => Some (hostIP +:+ ":" +:+ hostPort +:+ "/" +:+ protocol)
      | None => None
      end
  | _ => None
  end.

(** The published ports that the conntrack map construction reads, each with
    its container, in visiting order: the ports of the containers on this
    host. *)
Definition published (host : Host.t) (containers : list Container.t)
  : list (string * Container.t) :=
  flat_map
    (fun c =>
       if String.eqb (Container.HostUUID c) (Host.UUID host)
          && (0 <? Z.of_nat (length (Container.Ports c)))
       then (fun aPort => (aPort, c)) <$> Container.Ports c
       else [])
    containers.

(** A link that the host view lists: it has the prefix and its master is the
    index of a link that carries the name of a local bridge. *)
Definition is_host_veth (vethPrefix : string) (alllinks : list netlink.Link)
    (localBridges : gmap string bool) (l : netlink.Link) : Prop :=
  l ∈ alllinks
  /\ strings.HasPrefix (netlink.Name l) vethPrefix = true
  /\ exists b, b ∈ alllinks /\ is_Some (localBridges !! netlink.Name b)
               /\ netlink.Index b = netlink.MasterIndex l.

(** Whether some link carries the name of a local bridge. *)
Definition has_bridge_link (alllinks : list netlink.Link)
    (localBridges : gmap string bool) : bool :=
  existsb (fun b => bool_decide (is_Some (localBridges !! netlink.Name b))) alllinks.

(** The keys that entering the namespaces gives: the decimal text of the
    parent index of [eth0], for the containers off the host network whose
    namespace could be entered. *)
Definition entered (dc : docker.Client) (containers : list docker.Container)
  : list string :=
  omap
    (fun d =>
       if String.eqb (docker.NetworkMode d) "host" then None
       else
         match docker.eth0 dc (docker.ID d) with
         | Ok link => Some (strconv.Itoa (netlink.ParentIndex link))
         | Err _ => None
         end)
    containers.

(** A container off the host network whose ID has fewer than ten bytes. *)
Definition short_id (d : docker.Container) : bool :=
  negb (String.eqb (docker.NetworkMode d) "host")
  && (String.length (docker.ID d) <? 10)%nat.

(** The keys that the IDs give: [vethr] and the first ten bytes of the ID,
    for the containers off the host network. *)
Definition id_names (containers : list docker.Container) : list string :=
  omap
    (fun d =>
       if String.eqb (docker.NetworkMode d) "host" then None
       else Some ("vethr" +:+ String.substring 0 10 (docker.ID d)))
    containers.

End derived.

(** ** The visiting order of a map *)
Module order.

(** Go chooses the order in which [range] visits a map afresh at every loop,
    while a [json.object] lists its members in the order of one loop.  The
    one map that the watchers range over is the [cniConfig] of a network
    ([getBridgeInfo] at line 55 of the ARP watcher, [getBridgeInfoFromCNIConfig]
    at line 82 of the veth utilities); every other map of metadata is only
    indexed, which depends on no order.  [revisit n n']: [n'] is the network
    [n] as another loop may visit it, with the same members of the
    [cniConfig] in any order. *)
Definition revisit (n n' : Network.t) : Prop :=
  Network.UUID n' = Network.UUID n
  /\ match json.index (Network.Metadata n) "cniConfig",
           json.index (Network.Metadata n') "cniConfig" with
     | json.Map conf, json.Map conf' => Permutation conf conf'
     | v, v' => v' = v
     end.

(** The answers of metadata as another step may visit them: the same
    answers, the networks revisited. *)
Definition metadata_revisit (mc mc' : metadata.Client) : Prop :=
  metadata.GetSelfHost mc' = metadata.GetSelfHost mc
  /\ metadata.GetServices mc' = metadata.GetServices mc
  /\ metadata.GetContainers mc' = metadata.GetContainers mc
  /\ match metadata.GetNetworks mc, metadata.GetNetworks mc' with
     | Ok networks, Ok networks' => Forall2 revisit networks networks'
     | r, r' => r' = r
     end.

(** The same for the answer of [network.LocalNetworks]. *)
Definition local_revisit (LocalNetworks LocalNetworks' : metadata.Client -> result (list Network.t))
    (mc : metadata.Client) : Prop :=
  match LocalNetworks mc, LocalNetworks' mc with
  | Ok localNetworks, Ok localNetworks' => Forall2 revisit localNetworks localNetworks'
  | r, r' => r' = r
  end.


(** The members of the CNI config that name a bridge name the same one: the
    network then adds the same bridge, or none, in every visiting order. *)
Definition bridges_agree (n : Network.t) : Prop :=
  forall m1 m2 b1 b2,
    m1 ∈ derived.cniConfig n -> m2 ∈ derived.cniConfig n ->
    vethspec.bridge_of (snd m1) = Some b1 -> vethspec.bridge_of (snd m2) = Some b2 ->
    b1 = b2.

End order.

(** [w'] is [w] with more log lines and nothing else changed. *)
Definition quiet (w w' : World) : Prop :=
  links w' = links w /\ neighs w' = neighs w /\ dnat w' = dnat w
  /\ read_error w' = read_error w /\ call_error w' = call_error w
  /\ calls w' = calls w.

(** The calls that a step added to the world. *)
Definition new_calls (before after : World) : list Call :=
  drop (length (calls before)) (calls after).

(** ** The scenarios of the specification, as data *)
Module scenario.

Definition H : Host.t := {| Host.UUID := "H" |}.

Definition cniConfig (bridge subnet : string) : json.value :=
  json.Map [("10-rancher.conf",
             json.Map [("type", json.Str "rancher-bridge");
                       ("bridge", json.Str bridge);
                       ("bridgeSubnet", json.Str subnet)])].

Definition N : Network.t :=
  {| Network.UUID := "N";
     Network.Metadata := [("cniConfig", cniConfig "docker0" "10.42.0.0/16")] |}.

(** The container of the network driver on [H]. *)
Definition driver : Container.t :=
  {| Container.HostUUID := "H"; Container.NetworkUUID := "N";
     Container.PrimaryIp := "10.42.0.2";
     Container.PrimaryMacAddress := "02:dd:dd:dd:dd:dd"; Container.Ports := [] |}.

Definition driverService : Service.t :=
  {| Service.Kind := "networkDriverService"; Service.Name := "ipsec";
     Service.PrimaryServiceName := "ipsec"; Service.Containers := [driver] |}.

(** Container [C] with address 10.42.0.5 on host [host]. *)
Definition C (host mac : string) (ports : list string) : Container.t :=
  {| Container.HostUUID := host; Container.NetworkUUID := "N";
     Container.PrimaryIp := "10.42.0.5";
     Container.PrimaryMacAddress := mac; Container.Ports := ports |}.

Definition client (containers : list Container.t) : metadata.Client :=
  {| metadata.GetNetworks := Ok [N];
     metadata.GetSelfHost := Ok H;
     metadata.GetServices := Ok [driverService];
     metadata.GetContainers := Ok containers |}.

Definition docker0 : netlink.Link :=
  {| netlink.Index := 3; netlink.Name := "docker0";
     netlink.MasterIndex := 0; netlink.ParentIndex := 0 |}.

Definition veth (name : string) (index : Z) : netlink.Link :=
  {| netlink.Index := index; netlink.Name := name;
     netlink.MasterIndex := 3; netlink.ParentIndex := 0 |}.

Definition br1 : netlink.Link :=
  {| netlink.Index := 4; netlink.Name := "br1";
     netlink.MasterIndex := 0; netlink.ParentIndex := 0 |}.

Definition veth_on (master : Z) (name : string) (index : Z) : netlink.Link :=
  {| netlink.Index := index; netlink.Name := name;
     netlink.MasterIndex := master; netlink.ParentIndex := 0 |}.

(** The neighbour of 10.42.0.5 on [docker0], in state STALE. *)
Definition neighbour (mac : net.HardwareAddr) : netlink.Neigh :=
  {| netlink.LinkIndex := 3; netlink.Family := netlink.FAMILY_V4;
     netlink.State := netlink.NUD_STALE; netlink.Type_ := 1; netlink.Flags := 0;
     netlink.IP := [Byte.x0a; Byte.x2a; Byte.x00; Byte.x05];
     netlink.HardwareAddr := mac |}.

(** The neighbour of 10.42.0.5 on the link of the given index. *)
Definition neighbour_on (link : Z) (mac : net.HardwareAddr) : netlink.Neigh :=
  {| netlink.LinkIndex := link; netlink.Family := netlink.FAMILY_V4;
     netlink.State := netlink.NUD_STALE; netlink.Type_ := 1; netlink.Flags := 0;
     netlink.IP := [Byte.x0a; Byte.x2a; Byte.x00; Byte.x05];
     netlink.HardwareAddr := mac |}.

Definition mac_bb : net.HardwareAddr :=
  [Byte.x02; Byte.xbb; Byte.xbb; Byte.xbb; Byte.xbb; Byte.xbb].
Definition mac_cc : net.HardwareAddr :=
  [Byte.x02; Byte.xcc; Byte.xcc; Byte.xcc; Byte.xcc; Byte.xcc].
Definition mac_dd : net.HardwareAddr :=
  [Byte.x02; Byte.xdd; Byte.xdd; Byte.xdd; Byte.xdd; Byte.xdd].
Definition mac_05 : net.HardwareAddr :=
  [Byte.x02; Byte.xaa; Byte.xaa; Byte.xaa; Byte.xaa; Byte.x05].

(** A world in which no read and no mutation fails. *)
Definition world (ls : list netlink.Link) (ns : list netlink.Neigh)
    (es : list conntrack.CTEntry) : World :=
  {| links := ls; neighs := ns; dnat := es;
     read_error := fun _ => None; call_error := fun _ => None;
     calls := []; errors_logged := [] |}.

Definition arp_watcher (containers : list Container.t) : arpsync.ARPTableWatcher :=
  arpsync.Watch "" (client containers).

(** Two members of a CNI config on the same bridge: the bridge plugin and a
    second plugin. *)
Definition plugin_bridge : string * json.value :=
  ("10-rancher.conf",
   json.Map [("type", json.Str "rancher-bridge");
             ("bridge", json.Str "docker0");
             ("bridgeSubnet", json.Str "10.42.0.0/16")]).
Definition plugin_portmap : string * json.value :=
  ("20-portmap.conf",
   json.Map [("type", json.Str "portmap"); ("bridge", json.Str "docker0")]).

(** Network [N] with the given members of its CNI config, in the order one
    loop visits them. *)
Definition N_with (members : json.object) : Network.t :=
  {| Network.UUID := "N"; Network.Metadata := [("cniConfig", json.Map members)] |}.

Definition client_with (members : json.object) (containers : list Container.t)
  : metadata.Client :=
  {| metadata.GetNetworks := Ok [N_with members];
     metadata.GetSelfHost := Ok H;
     metadata.GetServices := Ok [driverService];
     metadata.GetContainers := Ok containers |}.

Definition localNetworks_with (members : json.object) (mc : metadata.Client)
  : result (list Network.t) := Ok [N_with members].

(** The bridge plugin of a second bridge, [br1], on the same subnet. *)
Definition plugin_br1 : string * json.value :=
  ("30-second.conf",
   json.Map [("type", json.Str "rancher-bridge");
             ("bridge", json.Str "br1");
             ("bridgeSubnet", json.Str "10.42.0.0/16")]).

Definition ct_watcher (containers : list Container.t) : conntracksync.ConntrackTableWatcher :=
  conntracksync.Watch "" (client containers).

Definition flow (dst port proto reply : string) : conntrack.CTEntry :=
  {| conntrack.OriginalDestinationIP := dst; conntrack.OriginalDestinationPort := port;
     conntrack.Protocol := proto; conntrack.ReplySourceIP := reply |}.

(** A runtime with one container, whose [eth0] has the given parent. *)
Definition runtime (parent : Z) : docker.Client :=
  {| docker.ContainerList := Ok [{| docker.ID := "c1"; docker.NetworkMode := "default" |}];
     docker.eth0 := fun _ =>
       Ok {| netlink.Index := 7; netlink.Name := "eth0";
             netlink.MasterIndex := 0; netlink.ParentIndex := parent |} |}.

Definition localNetworks (mc : metadata.Client) : result (list Network.t) := Ok [N].

(** 10.42.0.0/16 *)
Definition subnet : net.IPNet :=
  {| net.NetIP := [Byte.x0a; Byte.x2a; Byte.x00; Byte.x00];
     net.Mask := [Byte.xff; Byte.xff; Byte.x00; Byte.x00] |}.

(** What the ARP step has in hand in these scenarios. *)
Definition context (containers : list Container.t) (ns : list netlink.Neigh)
  : arpspec.Context :=
  {| arpspec.host := H;
     arpspec.DriverMac := "02:dd:dd:dd:dd:dd";
     arpspec.bridgeLink := docker0;
     arpspec.BridgeSubnet := subnet;
     arpspec.entries := ns;
     arpspec.containersMap := arpsync.buildContainersMap containers N |}.

End scenario.

(** * Properties *)

Local Open Scope list_scope.

(** ** The world *)

Lemma new_calls_app (w w' : World) (cs : list Call) :
  calls w' = calls w ++ cs -> new_calls w w' = cs.
Proof.
  intros E. unfold new_calls. rewrite E. by rewrite drop_app_length.
Qed.

Lemma quiet_refl (w : World) : quiet w w.
Proof. by repeat split. Qed.

Lemma quiet_trans (w1 w2 w3 : World) : quiet w1 w2 -> quiet w2 w3 -> quiet w1 w3.
Proof.
  intros (? & ? & ? & ? & ? & ?) (? & ? & ? & ? & ? & ?).
  repeat split; congruence.
Qed.

Lemma quiet_Errorf (format : string) (w : World) : quiet w (Errorf format w).
Proof. by repeat split. Qed.

Lemma quiet_fold {A B : Type} (f : B * World -> A -> B * World) (l : list A) :
  (forall b w a, quiet w (snd (f (b, w) a))) ->
  forall b w, quiet w (snd (fold_left f l (b, w))).
Proof.
  intros Hf. induction l as [| a l IH]; intros b w; [apply quiet_refl |].
  cbn [fold_left]. specialize (Hf b w a).
  destruct (f (b, w) a) as [b' w']. eapply quiet_trans; [exact Hf | apply IH].
Qed.


Lemma upsert_keeps (n e : netlink.Neigh) (table : list netlink.Neigh) :
  e ∈ table -> kernel.same_slot n e = false -> e ∈ kernel.upsert n table.
Proof.
  intros Hin Hslot. unfold kernel.upsert.
  destruct (existsb (kernel.same_slot n) table).
  - apply list_elem_of_fmap. exists e. by rewrite Hslot.
  - apply elem_of_app. by left.
Qed.


(** ** The ARP watcher *)
Section arp.
Context `{!net.Lib}.

Lemma fixEntry_calls (e : netlink.Neigh) (expected : string) (w : World) :
  calls (arpsync.fixEntry e expected w)
  = calls w ++ match net.ParseMAC expected with
               | Some mac => [CallNeighSet (arpspec.repaired e mac)]
               | None => []
               end.
Proof.
  unfold arpsync.fixEntry. destruct (net.ParseMAC expected) as [mac |]; simpl.
  - unfold kernel.NeighSet. fold (arpspec.repaired e mac).
    destruct (call_error _ _); reflexivity.
  - by rewrite app_nil_r.
Qed.

Lemma syncEntry_calls (ctx : arpspec.Context) (e : netlink.Neigh) (w : World) :
  calls (arpspec.run_entries ctx [e] w) = calls w ++ arpspec.repair ctx e.
Proof.
  unfold arpspec.run_entries, arpsync.syncEntries, arpsync.syncEntry, arpspec.repair; simpl.
  fold (arpspec.in_scope ctx e). fold (arpspec.container_of ctx e).
  destruct (arpspec.in_scope ctx e); simpl; [| by rewrite app_nil_r].
  destruct (arpspec.container_of ctx e) as [c |]; [| by rewrite app_nil_r].
  unfold arpspec.expectedMAC, arpspec.actualMAC.
  destruct (String.eqb (Container.HostUUID c) (Host.UUID (arpspec.host ctx))).
  - destruct (String.eqb _ _); simpl; [by rewrite app_nil_r |].
    apply fixEntry_calls.
  - rewrite (String.eqb_sym (arpspec.DriverMac ctx)).
    destruct (String.eqb _ _); simpl; [by rewrite app_nil_r |].
    by rewrite fixEntry_calls.
Qed.

Lemma run_entries_cons (ctx : arpspec.Context) e es w :
  arpspec.run_entries ctx (e :: es) w = arpspec.run_entries ctx es (arpspec.run_entries ctx [e] w).
Proof. reflexivity. Qed.

Lemma run_entries_calls (ctx : arpspec.Context) (es : list netlink.Neigh) (w : World) :
  calls (arpspec.run_entries ctx es w) = calls w ++ flat_map (arpspec.repair ctx) es.
Proof.
  revert w. induction es as [| e es IH]; intros w.
  - by rewrite app_nil_r.
  - rewrite run_entries_cons, IH, syncEntry_calls. simpl. by rewrite app_assoc.
Qed.

(** The step returned before the loop: nothing was asked of the kernel and
    no context is reached. *)
Ltac stops :=
  left; eexists _, _; repeat split; try reflexivity;
  intros ctx Hreach;
  destruct Hreach as (? & ? & ? & ? & ? & ? & ? & ? & ? & ? & ? & ? & ? & ? & ? & ? & ?);
  simplify_eq; congruence.

(** A step either stops before the loop, having asked nothing of the
    kernel, or reaches it and runs it. *)
Lemma doSync_cases (atw : arpsync.ARPTableWatcher) (w : World) :
  (exists err w', arpsync.doSync atw w = (Some err, w')
                  /\ calls w' = calls w /\ neighs w' = neighs w
                  /\ forall ctx, ~ arpspec.reaches atw w ctx)
  \/ (exists ctx, arpspec.reaches atw w ctx
                  /\ arpsync.doSync atw w = (None, arpspec.run_entries ctx (arpspec.entries ctx) w)).
Proof.
  unfold arpsync.doSync, arpspec.reaches.
  destruct (metadata.GetNetworks _) as [networks | e1] eqn:E1;
    [| stops].
  destruct (metadata.GetSelfHost _) as [host | e2] eqn:E2;
    [| stops].
  destruct (metadata.GetServices _) as [services | e3] eqn:E3;
    [| stops].
  destruct (arpsync.scanServices services host) as [drv localNetworks] eqn:E4.
  case_bool_decide as E5;
    [stops |].
  destruct (arpsync.getBridgeInfo _) as [[bridge subnetStr] | e6] eqn:E6;
    [| stops].
  destruct (kernel.LinkByName bridge w) as [bridgeLink | e7] eqn:E7;
    [| stops].
  destruct (net.ParseCIDR subnetStr) as [subnet |] eqn:E8;
    [| stops].
  destruct (kernel.NeighList w) as [entries | e9] eqn:E9;
    [| stops].
  destruct (metadata.GetContainers _) as [containers | e10] eqn:E10;
    [| stops].
  right.
  exists {| arpspec.host := host; arpspec.DriverMac := drv;
            arpspec.bridgeLink := bridgeLink; arpspec.BridgeSubnet := subnet;
            arpspec.entries := entries;
            arpspec.containersMap :=
              arpsync.buildContainersMap containers
                (arpsync.pickLocalNetwork networks localNetworks) |}.
  split; [| reflexivity].
  exists networks, services, localNetworks, bridge, subnetStr, containers.
  by repeat split.
Qed.

Lemma reaches_entries (atw : arpsync.ARPTableWatcher) (w : World) (ctx : arpspec.Context) :
  arpspec.reaches atw w ctx -> arpspec.entries ctx = neighs w.
Proof.
  intros (? & ? & ? & ? & ? & ? & _ & _ & _ & _ & _ & _ & _ & _ & Hlist & _).
  unfold kernel.NeighList in Hlist. destruct (read_error w ReadNeighList); congruence.
Qed.

Lemma reaches_doSync (atw : arpsync.ARPTableWatcher) (w : World) (ctx : arpspec.Context) :
  arpspec.reaches atw w ctx ->
  arpsync.doSync atw w = (None, arpspec.run_entries ctx (arpspec.entries ctx) w).
Proof.
  intros Hreach. destruct (doSync_cases atw w) as [(err & w' & _ & _ & _ & Hno) | (ctx' & Hreach' & ->)].
  - by destruct (Hno ctx).
  - destruct Hreach as (? & ? & ? & ? & ? & ? & ? & ? & ? & ? & ? & ? & ? & ? & ? & ? & ?).
    destruct Hreach' as (? & ? & ? & ? & ? & ? & ? & ? & ? & ? & ? & ? & ? & ? & ? & ? & ?).
    destruct ctx, ctx'; simpl in *.
    repeat match goal with
           | H1 : ?t = _, H2 : ?t = _ |- _ => rewrite H1 in H2; simplify_eq
           end.
    reflexivity.
Qed.

(** A repair is a single [NeighSet] on the slot of an entry that is in
    scope and has a container. *)
Lemma repair_elem (ctx : arpspec.Context) (e : netlink.Neigh) (c : Call) :
  c ∈ arpspec.repair ctx e ->
  exists k mac, arpspec.in_scope ctx e = true
    /\ arpspec.container_of ctx e = Some k
    /\ arpspec.expectedMAC ctx k <> arpspec.actualMAC e
    /\ net.ParseMAC (arpspec.expectedMAC ctx k) = Some mac
    /\ c = CallNeighSet (arpspec.repaired e mac).
Proof.
  unfold arpspec.repair.
  destruct (arpspec.in_scope ctx e); [| by intros ?%elem_of_nil].
  destruct (arpspec.container_of ctx e) as [k |]; [| by intros ?%elem_of_nil].
  destruct (String.eqb _ _) eqn:Heq; [by intros ?%elem_of_nil |].
  destruct (net.ParseMAC _) as [mac |] eqn:Hmac; [| by intros ?%elem_of_nil].
  intros ->%list_elem_of_singleton. exists k, mac.
  by apply String.eqb_neq in Heq.
Qed.

(** Entries of one slot are in scope together and have the same container. *)
Lemma same_slot_scope (ctx : arpspec.Context) (a b : netlink.Neigh) :
  kernel.same_slot a b = true ->
  arpspec.in_scope ctx a = arpspec.in_scope ctx b
  /\ arpspec.container_of ctx a = arpspec.container_of ctx b.
Proof.
  unfold kernel.same_slot. intros [Hl Hip]%andb_prop.
  apply Z.eqb_eq in Hl. apply bool_decide_eq_true in Hip.
  unfold arpspec.in_scope, arpspec.container_of. by rewrite Hl, Hip.
Qed.

Lemma same_slot_repaired (e x : netlink.Neigh) (mac : net.HardwareAddr) :
  kernel.same_slot (arpspec.repaired e mac) x = kernel.same_slot e x.
Proof. reflexivity. Qed.

Lemma run_entry_neighs (ctx : arpspec.Context) (e : netlink.Neigh) (w : World) :
  neighs (arpspec.run_entries ctx [e] w) = neighs w
  \/ exists n, CallNeighSet n ∈ arpspec.repair ctx e
               /\ neighs (arpspec.run_entries ctx [e] w) = kernel.upsert n (neighs w).
Proof.
  unfold arpspec.run_entries, arpsync.syncEntries, arpsync.syncEntry, arpspec.repair; simpl.
  fold (arpspec.in_scope ctx e). fold (arpspec.container_of ctx e).
  destruct (arpspec.in_scope ctx e); simpl; [| by left].
  destruct (arpspec.container_of ctx e) as [c |]; [| by left].
  unfold arpspec.expectedMAC, arpspec.actualMAC.
  destruct (String.eqb (Container.HostUUID c) (Host.UUID (arpspec.host ctx))).
  - destruct (String.eqb _ _); simpl; [by left |].
    unfold arpsync.fixEntry. destruct (net.ParseMAC _) as [mac |]; [| by left].
    unfold kernel.NeighSet. fold (arpspec.repaired e mac).
    destruct (call_error _ _); simpl; [by left |].
    right. exists (arpspec.repaired e mac). split; [apply list_elem_of_singleton |]; done.
  - rewrite (String.eqb_sym (arpspec.DriverMac ctx)).
    destruct (String.eqb _ _); simpl; [by left |].
    unfold arpsync.fixEntry. destruct (net.ParseMAC _) as [mac |]; [| by left].
    unfold kernel.NeighSet. fold (arpspec.repaired e mac).
    destruct (call_error _ _); simpl; [by left |].
    right. exists (arpspec.repaired e mac). split; [apply list_elem_of_singleton |]; done.
Qed.

Lemma run_entries_keeps (ctx : arpspec.Context) (es : list netlink.Neigh)
    (w : World) (e : netlink.Neigh) :
  e ∈ neighs w ->
  (forall n, CallNeighSet n ∈ flat_map (arpspec.repair ctx) es -> kernel.same_slot n e = false) ->
  e ∈ neighs (arpspec.run_entries ctx es w).
Proof.
  revert w. induction es as [| e' es IH]; intros w Hin Hslot; [done |].
  rewrite run_entries_cons. apply IH.
  - destruct (run_entry_neighs ctx e' w) as [-> | (n & Hn & ->)]; [done |].
    apply upsert_keeps; [done |]. apply Hslot. simpl. apply elem_of_app. by left.
  - intros n Hn. apply Hslot. simpl. apply elem_of_app. by right.
Qed.

(** C1 (amended): in a step that reaches the loop, the calls of the step
    are the calls for each entry in turn; for an entry in scope (on the
    bridge, inside the subnet) whose address has a container [c], with the
    expected address that of [c] when [c] is on this host and [DriverMac]
    otherwise: when the expected text parses, one [NeighSet] on the slot of
    the entry with the parsed address is issued exactly when the expected
    text differs from the text of the actual address, and nothing when they
    are equal; when the expected text does not parse, nothing is issued. *)
Theorem arp_step_repairs (atw : arpsync.ARPTableWatcher) (w : World)
    (ctx : arpspec.Context) :
  arpspec.reaches atw w ctx ->
  exists segs : list (list Call),
    new_calls w (snd (arpsync.doSync atw w)) = concat segs
    /\ length segs = length (arpspec.entries ctx)
    /\ forall (i : nat) e seg c,
         arpspec.entries ctx !! i = Some e -> segs !! i = Some seg ->
         arpspec.in_scope ctx e = true -> arpspec.container_of ctx e = Some c ->
         match net.ParseMAC (arpspec.expectedMAC ctx c) with
         | Some mac =>
             (arpspec.expectedMAC ctx c <> arpspec.actualMAC e ->
              exists n, seg = [CallNeighSet n]
                        /\ netlink.LinkIndex n = netlink.LinkIndex e
                        /\ netlink.IP n = netlink.IP e
                        /\ netlink.HardwareAddr n = mac)
             /\ (arpspec.expectedMAC ctx c = arpspec.actualMAC e -> seg = [])
         | None => seg = []
         end.
Proof.
  intros Hreach. exists (arpspec.repair ctx <$> arpspec.entries ctx).
  rewrite (reaches_doSync _ _ _ Hreach); simpl. split; [| split].
  - rewrite (new_calls_app _ _ _ (run_entries_calls ctx _ w)).
    by rewrite flat_map_concat_map.
  - apply length_fmap.
  - intros i e seg c He Hseg Hscope Hc.
    rewrite list_lookup_fmap, He in Hseg. injection Hseg as <-.
    unfold arpspec.repair. rewrite Hscope, Hc.
    destruct (net.ParseMAC _) as [mac |].
    + split.
      * intros Hne%String.eqb_neq. rewrite Hne. by exists (arpspec.repaired e mac).
      * intros Heq%String.eqb_eq. by rewrite Heq.
    + by destruct (String.eqb _ _).
Qed.

(** C4: every call that a step of the ARP watcher adds is a [NeighSet] on
    the slot of a table entry that is on the local bridge, inside the
    bridge subnet, and whose address has a container (so never a
    [NeighDel]); and a table entry that is outside that filter, or whose
    address has no container, is the target of no call and is still in the
    table, as it was, after the step. *)
Theorem arp_step_frame (atw : arpsync.ARPTableWatcher) (w : World) :
  (forall c, c ∈ new_calls w (snd (arpsync.doSync atw w)) ->
     exists ctx e n,
       arpspec.reaches atw w ctx /\ e ∈ neighs w
       /\ arpspec.in_scope ctx e = true /\ is_Some (arpspec.container_of ctx e)
       /\ c = CallNeighSet n
       /\ netlink.LinkIndex n = netlink.LinkIndex e /\ netlink.IP n = netlink.IP e)
  /\ (forall e,
        e ∈ neighs w ->
        (forall ctx, arpspec.reaches atw w ctx ->
           arpspec.in_scope ctx e = false \/ arpspec.container_of ctx e = None) ->
        (forall n, CallNeighSet n ∈ new_calls w (snd (arpsync.doSync atw w)) ->
           kernel.same_slot n e = false)
        /\ e ∈ neighs (snd (arpsync.doSync atw w))).
Proof.
  destruct (doSync_cases atw w) as [(err & w' & -> & Hcalls & Hneighs & Hno) | (ctx & Hreach & ->)];
    simpl.
  - rewrite (new_calls_app w w' []) by (by rewrite app_nil_r). rewrite Hneighs.
    split; [by intros c ?%elem_of_nil |].
    intros e He _. split; [by intros n ?%elem_of_nil | done].
  - rewrite (new_calls_app _ _ _ (run_entries_calls ctx _ w)).
    assert (forall e n, CallNeighSet n ∈ flat_map (arpspec.repair ctx) (arpspec.entries ctx) ->
              arpspec.in_scope ctx e = false \/ arpspec.container_of ctx e = None ->
              kernel.same_slot n e = false) as Hslot.
    { intros e n Hn Hout.
      apply list_elem_of_In, in_flat_map in Hn as (e' & _ & Hn%list_elem_of_In).
      apply repair_elem in Hn as (k & mac & Hscope & Hk & _ & _ & [= ->]).
      rewrite same_slot_repaired.
      destruct (kernel.same_slot e' e) eqn:Hs; [| done].
      apply (same_slot_scope ctx) in Hs as [Hs1 Hs2].
      destruct Hout; congruence. }
    split.
    + intros c Hc.
      apply list_elem_of_In, in_flat_map in Hc as (e & He%list_elem_of_In & Hc%list_elem_of_In).
      apply repair_elem in Hc as (k & mac & Hscope & Hk & _ & _ & ->).
      exists ctx, e, (arpspec.repaired e mac).
      rewrite (reaches_entries _ _ _ Hreach) in He. by repeat split.
    + intros e He Hout. specialize (Hout ctx Hreach). split.
      * intros n Hn. by apply Hslot.
      * apply run_entries_keeps; [done |]. intros n Hn. by apply Hslot.
Qed.

End arp.

Lemma scenario_reaches (containers : list Container.t) (ns : list netlink.Neigh) :
  arpspec.reaches (scenario.arp_watcher containers) (scenario.world [scenario.docker0] ns [])
    (scenario.context containers ns).
Proof.
  exists [scenario.N], [scenario.driverService],
    (snd (arpsync.scanServices [scenario.driverService] scenario.H)),
    "docker0"%string, "10.42.0.0/16"%string, containers.
  repeat split; try reflexivity. vm_compute. discriminate.
Qed.

Lemma arp_step_repairs_witness :
  arpspec.reaches
    (scenario.arp_watcher [scenario.C "H" "02:aa:aa:aa:aa:05" []; scenario.driver])
    (scenario.world [scenario.docker0] [scenario.neighbour scenario.mac_bb] [])
    (scenario.context [scenario.C "H" "02:aa:aa:aa:aa:05" []; scenario.driver]
       [scenario.neighbour scenario.mac_bb])
  /\ exists segs : list (list Call),
       new_calls (scenario.world [scenario.docker0] [scenario.neighbour scenario.mac_bb] [])
         (snd (arpsync.doSync
                 (scenario.arp_watcher [scenario.C "H" "02:aa:aa:aa:aa:05" []; scenario.driver])
                 (scenario.world [scenario.docker0] [scenario.neighbour scenario.mac_bb] [])))
       = concat segs
       /\ length segs = 1%nat.
Proof.
  assert (arpspec.reaches
            (scenario.arp_watcher [scenario.C "H" "02:aa:aa:aa:aa:05" []; scenario.driver])
            (scenario.world [scenario.docker0] [scenario.neighbour scenario.mac_bb] [])
            (scenario.context [scenario.C "H" "02:aa:aa:aa:aa:05" []; scenario.driver]
               [scenario.neighbour scenario.mac_bb])) as Hreach.
  { exists [scenario.N], [scenario.driverService],
      (snd (arpsync.scanServices [scenario.driverService] scenario.H)),
      "docker0"%string, "10.42.0.0/16"%string,
      [scenario.C "H" "02:aa:aa:aa:aa:05" []; scenario.driver].
    repeat split; try reflexivity. vm_compute. discriminate. }
  split; [exact Hreach |].
  destruct (arp_step_repairs _ _ _ Hreach) as (segs & Hsegs & Hlen & _).
  exists segs. split; [exact Hsegs | exact Hlen].
Defined.

(** C1, as stated, fails where the expected address does not parse: the
    container of 10.42.0.5 is on this host and has no MAC address in
    metadata; the entry is on the bridge, in the subnet, its address differs
    from the expected one, and the step asks nothing of the kernel. *)
Lemma arp_unparsable_expected_left_alone :
  exists ctx c,
    arpspec.reaches (scenario.arp_watcher [scenario.C "H" "" []; scenario.driver])
      (scenario.world [scenario.docker0] [scenario.neighbour scenario.mac_bb] []) ctx
    /\ scenario.neighbour scenario.mac_bb ∈ arpspec.entries ctx
    /\ arpspec.in_scope ctx (scenario.neighbour scenario.mac_bb) = true
    /\ arpspec.container_of ctx (scenario.neighbour scenario.mac_bb) = Some c
    /\ Container.HostUUID c = Host.UUID (arpspec.host ctx)
    /\ arpspec.actualMAC (scenario.neighbour scenario.mac_bb) <> Container.PrimaryMacAddress c
    /\ new_calls
         (scenario.world [scenario.docker0] [scenario.neighbour scenario.mac_bb] [])
         (snd (arpsync.doSync (scenario.arp_watcher [scenario.C "H" "" []; scenario.driver])
                 (scenario.world [scenario.docker0] [scenario.neighbour scenario.mac_bb] [])))
       = [].
Proof.
  exists (scenario.context [scenario.C "H" "" []; scenario.driver]
            [scenario.neighbour scenario.mac_bb]),
    (scenario.C "H" "" []).
  split; [apply scenario_reaches |].
  split; [apply list_elem_of_singleton; reflexivity |].
  repeat split; try (vm_compute; reflexivity).
  vm_compute. discriminate.
Qed.

(** ** The conntrack watcher *)
Section conntrack_step.

Lemma syncEntry_calls_ct (m : gmap string Container.t) (e : conntrack.CTEntry) (w : World) :
  calls (conntracksync.syncEntry m e w)
  = calls w ++ (if ctspec.stale m e then [CallCTEntryDelete e] else []).
Proof.
  unfold conntracksync.syncEntry, ctspec.stale, ctspec.expected.
  fold (ctspec.specificKey e). fold (ctspec.genericKey e).
  assert (forall c : Container.t,
            calls (if negb (String.eqb (conntrack.ReplySourceIP e) (Container.PrimaryIp c))
                   then match kernel.CTEntryDelete e w with
                        | (Some _, w0) =>
                            Errorf "conntracksync: error deleting the conntrack entry: %v" w0
                        | (None, w0) => w0
                        end
                   else w)
            = calls w ++ (if negb (String.eqb (conntrack.ReplySourceIP e) (Container.PrimaryIp c))
                          then [CallCTEntryDelete e] else [])) as Hc.
  { intros c. destruct (negb _); [| by rewrite app_nil_r].
    unfold kernel.CTEntryDelete. destruct (call_error _ _); reflexivity. }
  destruct (m !! ctspec.specificKey e) as [c |]; [apply Hc |].
  destruct (m !! ctspec.genericKey e) as [c |]; [apply Hc |].
  by rewrite app_nil_r.
Qed.

Lemma run_flows_calls (m : gmap string Container.t) (es : list conntrack.CTEntry) (w : World) :
  calls (ctspec.run_flows m es w)
  = calls w ++ (CallCTEntryDelete <$> List.filter (ctspec.stale m) es).
Proof.
  revert w. induction es as [| e es IH]; intros w; simpl.
  - by rewrite app_nil_r.
  - unfold ctspec.run_flows in *. simpl. rewrite IH, syncEntry_calls_ct.
    destruct (ctspec.stale m e); simpl; by rewrite <- app_assoc.
Qed.

Lemma buildContainersMaps_world (ctw : conntracksync.ConntrackTableWatcher) (w w1 : World)
    (m : gmap string Container.t) :
  conntracksync.buildContainersMaps ctw w = (Returns (Ok m), w1) -> w1 = w.
Proof.
  unfold conntracksync.buildContainersMaps.
  destruct (metadata.GetSelfHost _); [| discriminate].
  destruct (metadata.GetContainers _); [| discriminate].
  destruct (fold_left _ _ _); [| discriminate]. congruence.
Qed.

(** C3: for a conntrack entry [e], the step looks up the specific key
    first and the generic key only when the specific one misses; when both
    miss the world is left as it was; when one hits with container [c], one
    [CTEntryDelete e] is issued when [e.ReplySourceIP] differs from
    [c.PrimaryIp] and nothing when they are equal; the calls of the whole
    step are the deletions of the entries that are stale in this sense, in
    the order of the table. *)
Theorem conntrack_step_deletes (ctw : conntracksync.ConntrackTableWatcher) (w w1 : World)
    (m : gmap string Container.t) (es : list conntrack.CTEntry) :
  conntracksync.buildContainersMaps ctw w = (Returns (Ok m), w1) ->
  kernel.ListDNAT w1 = Ok es ->
  new_calls w (snd (conntracksync.doSync ctw w))
  = (CallCTEntryDelete <$> List.filter (ctspec.stale m) es)
  /\ forall e w0,
       match m !! ctspec.specificKey e with
       | Some c =>
           new_calls w0 (conntracksync.syncEntry m e w0)
           = if String.eqb (conntrack.ReplySourceIP e) (Container.PrimaryIp c)
             then [] else [CallCTEntryDelete e]
       | None =>
           match m !! ctspec.genericKey e with
           | Some c =>
               new_calls w0 (conntracksync.syncEntry m e w0)
               = if String.eqb (conntrack.ReplySourceIP e) (Container.PrimaryIp c)
                 then [] else [CallCTEntryDelete e]
           | None => conntracksync.syncEntry m e w0 = w0
           end
       end.
Proof.
  intros Hmap Hlist. pose proof (buildContainersMaps_world _ _ _ _ Hmap) as ->.
  split.
  - unfold conntracksync.doSync. rewrite Hmap, Hlist. simpl.
    apply new_calls_app. apply (run_flows_calls m es w).
  - intros e w0.
    pose proof (syncEntry_calls_ct m e w0) as Hc.
    unfold ctspec.stale, ctspec.expected in Hc.
    destruct (m !! ctspec.specificKey e) as [c |] eqn:Hs.
    + rewrite (new_calls_app _ _ _ Hc). by destruct (String.eqb _ _).
    + destruct (m !! ctspec.genericKey e) as [c |] eqn:Hg.
      * rewrite (new_calls_app _ _ _ Hc). by destruct (String.eqb _ _).
      * unfold conntracksync.syncEntry.
        fold (ctspec.specificKey e). fold (ctspec.genericKey e). by rewrite Hs, Hg.
Qed.

End conntrack_step.

Lemma conntrack_step_deletes_witness :
  new_calls
    (scenario.world [] [] [scenario.flow "10.0.0.1" "8080" "tcp" "10.42.0.9"])
    (snd (conntracksync.doSync
            (scenario.ct_watcher [scenario.C "H" "02:aa:aa:aa:aa:05" ["0.0.0.0:8080:80/tcp"]])
            (scenario.world [] [] [scenario.flow "10.0.0.1" "8080" "tcp" "10.42.0.9"])))
  = [CallCTEntryDelete (scenario.flow "10.0.0.1" "8080" "tcp" "10.42.0.9")].
Proof.
  refine (proj1 (conntrack_step_deletes
                   (scenario.ct_watcher
                      [scenario.C "H" "02:aa:aa:aa:aa:05" ["0.0.0.0:8080:80/tcp"]])
                   (scenario.world [] [] [scenario.flow "10.0.0.1" "8080" "tcp" "10.42.0.9"])
                   (scenario.world [] [] [scenario.flow "10.0.0.1" "8080" "tcp" "10.42.0.9"])
                   (<["0.0.0.0:8080/tcp"%string :=
                        scenario.C "H" "02:aa:aa:aa:aa:05" ["0.0.0.0:8080:80/tcp"]]> ∅)
                   [scenario.flow "10.0.0.1" "8080" "tcp" "10.42.0.9"] _ _)).
  - vm_compute. reflexivity.
  - reflexivity.
Defined.

(** ** The map of published ports *)
Section published_ports.

Lemma Split_nonempty (s : string) (sep : ascii) : strings.Split s sep <> [].
Proof.
  destruct s as [| c rest]; simpl; [done |].
  destruct (Ascii.eqb c sep); [done |]. by destruct (strings.Split rest sep).
Qed.

(** The second field of a split exists exactly when the separator occurs. *)
Lemma Split_second (s : string) (sep : ascii) :
  strings.ContainsByte s sep = bool_decide (is_Some (strings.Split s sep !! 1%nat)).
Proof.
  induction s as [| c rest IH]; simpl.
  - reflexivity.
  - pose proof (Split_nonempty rest sep) as Hne.
    destruct (Ascii.eqb c sep); simpl.
    + destruct (strings.Split rest sep) as [| h t]; [done |].
      symmetry. by apply bool_decide_eq_true.
    + rewrite IH. by destruct (strings.Split rest sep) as [| h t].
Qed.

Lemma addPort_panics (c : Container.t) (acc : outcome (gmap string Container.t))
    (aPort : string) :
  is_panic (conntracksync.addPort c acc aPort) = is_panic acc || ctspec.bad_port aPort.
Proof.
  unfold conntracksync.addPort, ctspec.bad_port.
  destruct acc as [m | msg]; [simpl | done].
  destruct (strings.Split aPort ":") as [| f1 [| f2 [| f3 [| f4 rest]]]]; try done.
  rewrite Split_second.
  by destruct (strings.Split f3 "/" !! 1%nat) as [protocol |] eqn:E.
Qed.

Lemma addPorts_panics (c : Container.t) (ports : list string)
    (acc : outcome (gmap string Container.t)) :
  is_panic (fold_left (conntracksync.addPort c) ports acc)
  = is_panic acc || existsb ctspec.bad_port ports.
Proof.
  revert acc. induction ports as [| p ports IH]; intros acc; simpl.
  - by rewrite orb_false_r.
  - by rewrite IH, addPort_panics, orb_assoc.
Qed.

Lemma addContainer_panics (host : Host.t) (acc : outcome (gmap string Container.t))
    (c : Container.t) :
  is_panic (conntracksync.addContainer host acc c)
  = is_panic acc
    || (ctspec.publishes_here host c && existsb ctspec.bad_port (Container.Ports c)).
Proof.
  unfold conntracksync.addContainer. fold (ctspec.publishes_here host c).
  destruct (ctspec.publishes_here host c); simpl.
  - apply addPorts_panics.
  - by rewrite orb_false_r.
Qed.

Lemma addContainers_panics (host : Host.t) (containers : list Container.t)
    (acc : outcome (gmap string Container.t)) :
  is_panic (fold_left (conntracksync.addContainer host) containers acc)
  = is_panic acc
    || existsb (fun c => ctspec.publishes_here host c
                         && existsb ctspec.bad_port (Container.Ports c)) containers.
Proof.
  revert acc. induction containers as [| c containers IH]; intros acc; simpl.
  - by rewrite orb_false_r.
  - by rewrite IH, addContainer_panics, orb_assoc.
Qed.

(** C9: the map construction panics on a container of this host that
    publishes ["0.0.0.0:8080:80"]; and it panics exactly when both fetches
    succeed and some container of this host has a port of three fields
    whose third field holds no slash, so it returns for every input in
    which each such third field holds one. *)
Theorem buildContainersMaps_partial :
  is_panic (fst (conntracksync.buildContainersMaps
                   (scenario.ct_watcher [scenario.C "H" "02:aa:aa:aa:aa:05" ["0.0.0.0:8080:80"]])
                   (scenario.world [] [] [])))
  = true
  /\ forall (ctw : conntracksync.ConntrackTableWatcher) (w : World),
       is_panic (fst (conntracksync.buildContainersMaps ctw w)) = true
       <-> exists host containers c aPort f1 f2 third,
             metadata.GetSelfHost (conntracksync.mc ctw) = Ok host
             /\ metadata.GetContainers (conntracksync.mc ctw) = Ok containers
             /\ c ∈ containers
             /\ Container.HostUUID c = Host.UUID host
             /\ aPort ∈ Container.Ports c
             /\ strings.Split aPort ":" = [f1; f2; third]
             /\ strings.ContainsByte third "/" = false.
Proof.
  split; [vm_compute; reflexivity |].
  intros ctw w. unfold conntracksync.buildContainersMaps.
  destruct (metadata.GetSelfHost _) as [host | e1] eqn:E1; simpl.
  2: { split; [done | intros (? & ? & ? & ? & ? & ? & ? & ? & _); congruence]. }
  destruct (metadata.GetContainers _) as [containers | e2] eqn:E2; simpl.
  2: { split; [done | intros (? & ? & ? & ? & ? & ? & ? & _ & ? & _); congruence]. }
  pose proof (addContainers_panics host containers (Returns ∅)) as Hp.
  destruct (fold_left _ _ _) as [m | msg]; simpl in *.
  - split; [done |].
    intros (host' & containers' & c & aPort & f1 & f2 & third
            & [= <-] & [= <-] & Hc & Hhost & Hport & Hsplit & Hslash).
    rewrite (proj2 (existsb_exists _ containers)) in Hp; [done |].
    exists c. split; [by apply list_elem_of_In |].
    apply andb_true_iff. split.
    + unfold ctspec.publishes_here. rewrite Hhost, String.eqb_refl. simpl.
      destruct (Container.Ports c); [by apply elem_of_nil in Hport | done].
    + apply existsb_exists. exists aPort. split; [by apply list_elem_of_In |].
      unfold ctspec.bad_port. by rewrite Hsplit, Hslash.
  - split; [intros _ | done].
    symmetry in Hp. apply existsb_exists in Hp as (c & Hc & Hbad).
    apply andb_true_iff in Hbad as [Hhere Hbad].
    apply existsb_exists in Hbad as (aPort & Hport & Hbad).
    unfold ctspec.bad_port in Hbad.
    destruct (strings.Split aPort ":") as [| f1 [| f2 [| third [| f4 rest]]]] eqn:Hsplit;
      try done.
    exists host, containers, c, aPort, f1, f2, third.
    repeat split; try done; try (by apply list_elem_of_In).
    + unfold ctspec.publishes_here in Hhere.
      apply andb_true_iff in Hhere as [Hh _]. by apply String.eqb_eq.
    + by apply negb_true_iff.
Qed.

End published_ports.

(** ** The loop of a watcher *)
Section loops.
Variable doSync : World -> outcome (option error) * World.
Variable format : string.

Lemma loop_succ (ticks : nat) (w : World) :
  watcher.loop doSync format (S ticks) w
  = match doSync w with
    | (Panics msg, w1) => ({| watcher.steps_started := 1; watcher.crashed := Some msg |}, w1)
    | (Returns err, w1) =>
        let w1 := match err with Some _ => Errorf format w1 | None => w1 end in
        ({| watcher.steps_started := S (watcher.steps_started (fst (watcher.loop doSync format ticks w1)));
            watcher.crashed := watcher.crashed (fst (watcher.loop doSync format ticks w1)) |},
         snd (watcher.loop doSync format ticks w1))
    end.
Proof.
  simpl. destruct (doSync w) as [[err | msg] w1]; [| reflexivity].
  by destruct (watcher.loop doSync format ticks _).
Qed.

Lemma loop_alive_all_ticks (ticks : nat) (w : World) :
  watcher.crashed (fst (watcher.loop doSync format ticks w)) = None ->
  watcher.steps_started (fst (watcher.loop doSync format ticks w)) = ticks.
Proof.
  revert w. induction ticks as [| ticks IH]; intros w; [done |].
  rewrite loop_succ. destruct (doSync w) as [[err | msg] w1]; simpl; [| done].
  intros Halive. f_equal. by apply IH.
Qed.

Lemma loop_dead_stays_dead (n m : nat) (w : World) (msg : string) :
  watcher.crashed (fst (watcher.loop doSync format n w)) = Some msg ->
  (n <= m)%nat ->
  watcher.loop doSync format m w = watcher.loop doSync format n w.
Proof.
  revert m w. induction n as [| n IH]; intros m w; [done |].
  intros Hdead Hle. destruct m as [| m]; [lia |].
  rewrite !loop_succ in *. destruct (doSync w) as [[err | msg'] w1]; simpl in *; [| done].
  rewrite (IH m _ Hdead) by lia. reflexivity.
Qed.

Lemma loop_no_panic_alive (ticks : nat) (w : World) :
  (forall w0, is_panic (fst (doSync w0)) = false) ->
  watcher.crashed (fst (watcher.loop doSync format ticks w)) = None.
Proof.
  intros Hsafe. revert w. induction ticks as [| ticks IH]; intros w; [done |].
  rewrite loop_succ. specialize (Hsafe w).
  destruct (doSync w) as [[err | msg] w1]; simpl in *; [apply IH | done].
Qed.

(** C5 (amended): an error that a step returns does not end the loop, it is
    logged and the next tick is performed, so a loop whose steps return
    performs every tick; a panic inside a step is not recovered, the loop
    ends there without a log line, and no later tick is performed. *)
Theorem loop_survives_errors_not_panics (ticks : nat) (w : World) :
  ((forall w0, is_panic (fst (doSync w0)) = false) ->
     watcher.crashed (fst (watcher.loop doSync format ticks w)) = None
     /\ watcher.steps_started (fst (watcher.loop doSync format ticks w)) = ticks)
  /\ (forall err w1,
        doSync w = (Returns (Some err), w1) ->
        watcher.steps_started (fst (watcher.loop doSync format (S ticks) w))
        = S (watcher.steps_started
               (fst (watcher.loop doSync format ticks (Errorf format w1)))))
  /\ (forall msg w1,
        doSync w = (Panics msg, w1) ->
        forall later,
          watcher.loop doSync format (S later) w
          = ({| watcher.steps_started := 1; watcher.crashed := Some msg |}, w1)).
Proof.
  split; [| split].
  - intros Hsafe. pose proof (loop_no_panic_alive ticks w Hsafe) as Halive.
    split; [done | by apply loop_alive_all_ticks].
  - intros err w1 Hstep. by rewrite loop_succ, Hstep.
  - intros msg w1 Hstep later. by rewrite loop_succ, Hstep.
Qed.

End loops.

(** C5, as stated, fails: the conntrack loop, observed for two ticks on a
    container that publishes ["0.0.0.0:8080:80"], starts one step, ends with
    the panic of that step, writes no log line and never starts the second
    step. *)
Lemma conntrack_loop_dies_on_panic :
  watcher.steps_started
    (fst (conntracksync.syncLoop
            (scenario.ct_watcher [scenario.C "H" "02:aa:aa:aa:aa:05" ["0.0.0.0:8080:80"]])
            2 (scenario.world [] [] [])))
  = 1%nat
  /\ watcher.crashed
       (fst (conntracksync.syncLoop
               (scenario.ct_watcher [scenario.C "H" "02:aa:aa:aa:aa:05" ["0.0.0.0:8080:80"]])
               2 (scenario.world [] [] [])))
     = Some "runtime error: index out of range"%string
  /\ errors_logged
       (snd (conntracksync.syncLoop
               (scenario.ct_watcher [scenario.C "H" "02:aa:aa:aa:aa:05" ["0.0.0.0:8080:80"]])
               2 (scenario.world [] [] [])))
     = [].
Proof. vm_compute. repeat split. Qed.

(** ** Sync intervals *)
Section intervals.

Lemma seconds_exact (i : Z) : time.fits_duration i -> time.seconds i = i * time.Second.
Proof.
  unfold time.fits_duration, time.seconds, time.wrap64, time.Second. intros Hi.
  rewrite (Z.mod_small (i + 2 ^ 63)) by lia.
  replace (i + 2 ^ 63 - 2 ^ 63) with i by lia.
  rewrite Z.mod_small by lia. lia.
Qed.

(** C8 (amended): a string that does not parse as an integer, the empty
    string among them, gives the default of the watcher (120 s for ARP and
    conntrack, [DefaultSyncInterval] seconds for veth); a string that parses
    as an integer of at most 9223372036 in absolute value gives that many
    seconds. *)
Theorem watch_interval (s : string) (mc : metadata.Client) (DefaultSyncInterval : Z) :
  match strconv.Atoi s with
  | None =>
      arpsync.syncInterval (arpsync.Watch s mc) = 120 * time.Second
      /\ conntracksync.syncInterval (conntracksync.Watch s mc) = 120 * time.Second
      /\ vethsync.Watch DefaultSyncInterval s = time.seconds DefaultSyncInterval
  | Some i =>
      time.fits_duration i ->
      arpsync.syncInterval (arpsync.Watch s mc) = i * time.Second
      /\ conntracksync.syncInterval (conntracksync.Watch s mc) = i * time.Second
      /\ vethsync.Watch DefaultSyncInterval s = i * time.Second
  end
  /\ strconv.Atoi "" = None
  /\ strconv.Atoi "abc" = None
  /\ strconv.Atoi "30" = Some 30.
Proof.
  split; [| by vm_compute].
  unfold arpsync.Watch, conntracksync.Watch, vethsync.Watch; simpl.
  destruct (strconv.Atoi s) as [i |].
  - intros Hi. by rewrite (seconds_exact i Hi).
  - split; [reflexivity | split; reflexivity].
Qed.

(** C10 (amended): a string that parses as an integer is taken as it is,
    whatever the default: the interval is [time.Duration(i) * time.Second];
    it is zero for zero and negative for a negative value down to
    -9223372036, as for ["0"] and ["-5"]. *)
Theorem watch_takes_parsed_value (s : string) (i : Z) (mc : metadata.Client) :
  strconv.Atoi s = Some i ->
  arpsync.syncInterval (arpsync.Watch s mc) = time.seconds i
  /\ conntracksync.syncInterval (conntracksync.Watch s mc) = time.seconds i
  /\ (i = 0 -> time.seconds i = 0)
  /\ (-9223372036 <= i < 0 -> time.seconds i = i * time.Second /\ time.seconds i < 0)
  /\ arpsync.syncInterval (arpsync.Watch "0" mc) = 0
  /\ arpsync.syncInterval (arpsync.Watch "-5" mc) = -5 * time.Second.
Proof.
  intros Hparse. unfold arpsync.Watch, conntracksync.Watch. rewrite Hparse. simpl.
  repeat split; try reflexivity.
  - by intros ->.
  - apply seconds_exact. unfold time.fits_duration. lia.
  - rewrite seconds_exact by (unfold time.fits_duration; lia). unfold time.Second. lia.
Qed.

End intervals.

Lemma watch_takes_parsed_value_witness :
  strconv.Atoi "-5" = Some (-5)
  /\ conntracksync.syncInterval (conntracksync.Watch "-5" (scenario.client []))
     = time.seconds (-5).
Proof.
  split; [reflexivity |].
  apply (watch_takes_parsed_value "-5" (-5) (scenario.client [])). reflexivity.
Defined.

(** C8, as stated, fails past the range of [time.Duration]: ["9223372037"]
    parses, and the interval is negative instead of that many seconds. *)
Lemma interval_overflows_int64 :
  strconv.Atoi "9223372037" = Some 9223372037
  /\ arpsync.syncInterval (arpsync.Watch "9223372037" (scenario.client []))
     = -9223372036709551616
  /\ arpsync.syncInterval (arpsync.Watch "9223372037" (scenario.client []))
     <> 9223372037 * time.Second.
Proof. vm_compute. repeat split. discriminate. Qed.

(** C10, as stated, fails past the range of [time.Duration]: ["-9223372037"]
    parses to a negative value and the interval is positive. *)
Lemma negative_value_positive_interval :
  strconv.Atoi "-9223372037" = Some (-9223372037)
  /\ conntracksync.syncInterval (conntracksync.Watch "-9223372037" (scenario.client []))
     = 9223372036709551616
  /\ 0 < conntracksync.syncInterval (conntracksync.Watch "-9223372037" (scenario.client [])).
Proof. vm_compute. repeat split. Qed.

(** ** Bridge discovery for the veth enumeration *)
Section bridges.

Lemma bridgeStep_fst (bridge : string) (lastErr : option error) (w : World)
    (member : string * json.value) :
  fst (utils.bridgeStep ((bridge, lastErr), w) member)
  = match vethspec.bridge_of (snd member) with
    | Some b => (b, lastErr)
    | None =>
        match snd member with
        | json.Map _ => ("", Some "error getting bridge from cni config")
        | _ => (bridge, Some "error getting props from cni config")
        end
    end.
Proof.
  unfold utils.bridgeStep, vethspec.bridge_of.
  destruct (snd member) as [| s | n | b | l | props]; simpl; try reflexivity.
  by destruct (json.index props "bridge").
Qed.

(** The result of the bridge discovery does not depend on the world. *)
Lemma bridge_fold_fst (cniConf : json.object) (acc : string * option error) (w1 w2 : World) :
  fst (fold_left utils.bridgeStep cniConf (acc, w1))
  = fst (fold_left utils.bridgeStep cniConf (acc, w2)).
Proof.
  revert acc w1 w2. induction cniConf as [| member rest IH]; intros [b e] w1 w2; [done |].
  cbn [fold_left].
  pose proof (bridgeStep_fst b e w1 member) as H1.
  pose proof (bridgeStep_fst b e w2 member) as H2.
  destruct (utils.bridgeStep (b, e, w1) member) as [acc1 w1'].
  destruct (utils.bridgeStep (b, e, w2) member) as [acc2 w2'].
  cbn [fst] in H1, H2. subst acc1 acc2. apply IH.
Qed.

Lemma getBridgeInfoFromCNIConfig_fst (cniConf : json.object) (w1 w2 : World) :
  fst (utils.getBridgeInfoFromCNIConfig cniConf w1)
  = fst (utils.getBridgeInfoFromCNIConfig cniConf w2).
Proof. apply bridge_fold_fst. Qed.

Lemma getBridgeInfoFromCNIConfig_snoc (cniConf : json.object) (member : string * json.value)
    (w : World) :
  fst (utils.getBridgeInfoFromCNIConfig (cniConf ++ [member]) w)
  = match vethspec.bridge_of (snd member) with
    | Some b => (b, snd (fst (utils.getBridgeInfoFromCNIConfig cniConf w)))
    | None =>
        match snd member with
        | json.Map _ => ("", Some "error getting bridge from cni config")
        | _ => (fst (fst (utils.getBridgeInfoFromCNIConfig cniConf w)),
                Some "error getting props from cni config")
        end
    end.
Proof.
  unfold utils.getBridgeInfoFromCNIConfig. rewrite fold_left_app. simpl.
  destruct (fold_left utils.bridgeStep cniConf ("", None, w)) as [[b e] w']. simpl.
  apply bridgeStep_fst.
Qed.

Lemma bridges_all_named (cniConf : json.object) (w : World) :
  Forall (fun member => is_Some (vethspec.bridge_of (snd member))) cniConf ->
  fst (utils.getBridgeInfoFromCNIConfig cniConf w) = (vethspec.last_bridge cniConf, None).
Proof.
  induction cniConf as [| member rest IH] using rev_ind; [done |].
  intros [Hrest [b Hb]%Forall_singleton]%Forall_app.
  rewrite getBridgeInfoFromCNIConfig_snoc, Hb, (IH Hrest). simpl.
  unfold vethspec.last_bridge. rewrite last_snoc. simpl. by rewrite Hb.
Qed.

Lemma bridges_one_unnamed (cniConf : json.object) (w : World) :
  Exists (fun member => vethspec.bridge_of (snd member) = None) cniConf ->
  is_Some (snd (fst (utils.getBridgeInfoFromCNIConfig cniConf w))).
Proof.
  induction cniConf as [| member rest IH] using rev_ind; [by intros ?%Exists_nil |].
  intros [Hrest | Hlast%Exists_cons]%Exists_app.
  - rewrite getBridgeInfoFromCNIConfig_snoc.
    destruct (vethspec.bridge_of (snd member)); [by apply IH |].
    by destruct (snd member).
  - destruct Hlast as [Hlast | ?%Exists_nil]; [| done].
    rewrite getBridgeInfoFromCNIConfig_snoc, Hlast. by destruct (snd member).
Qed.

Lemma bridge_added_spec (n : Network.t) (w : World) (b : string) :
  vethspec.bridge_added n w = Some b
  <-> exists cniConf,
        json.index (Network.Metadata n) "cniConfig" = json.Map cniConf
        /\ fst (utils.getBridgeInfoFromCNIConfig cniConf w) = (b, None).
Proof.
  unfold vethspec.bridge_added.
  destruct (json.index (Network.Metadata n) "cniConfig") as [| s | z | bo | l | cniConf];
    try (split; [done | by intros (? & ? & _)]).
  destruct (fst (utils.getBridgeInfoFromCNIConfig cniConf w)) as [b' [e |]] eqn:E.
  - split; [done | intros (? & [= <-] & ?); congruence].
  - split.
    + intros [= ->]. by exists cniConf.
    + intros (? & [= <-] & ?). congruence.
Qed.

Lemma addLocalBridge_fst (localBridges : gmap string bool) (w0 w : World) (n : Network.t) :
  fst (utils.addLocalBridge (localBridges, w0) n)
  = match vethspec.bridge_added n w with
    | Some b => <[b := true]> localBridges
    | None => localBridges
    end.
Proof.
  unfold utils.addLocalBridge, vethspec.bridge_added.
  destruct (json.index (Network.Metadata n) "cniConfig") as [| s | z | bo | l | cniConf];
    try reflexivity.
  cbn [json.assertMap].
  rewrite (getBridgeInfoFromCNIConfig_fst cniConf w w0).
  by destruct (utils.getBridgeInfoFromCNIConfig cniConf w0) as [[b' [e |]] w0'].
Qed.

Lemma localBridges_fold (localNetworks : list Network.t) (acc : gmap string bool)
    (w0 w : World) (b : string) :
  is_Some (fst (fold_left utils.addLocalBridge localNetworks (acc, w0)) !! b)
  <-> is_Some (acc !! b) \/ exists n, n ∈ localNetworks /\ vethspec.bridge_added n w = Some b.
Proof.
  revert acc w0. induction localNetworks as [| n rest IH]; intros acc w0.
  { split; [by left |]. intros [? | (? & ?%elem_of_nil & _)]; done. }
  cbn [fold_left].
  pose proof (addLocalBridge_fst acc w0 w n) as Hstep.
  destruct (utils.addLocalBridge (acc, w0) n) as [acc' w0']. cbn [fst] in Hstep. subst acc'.
  rewrite IH. split.
  - intros [Hacc | (n' & Hin & Hn')].
    + destruct (vethspec.bridge_added n w) as [b' |] eqn:Hb; [| by left].
      destruct (decide (b' = b)) as [-> | Hne].
      * right. exists n. split; [apply elem_of_cons; by left | done].
      * left. by rewrite lookup_insert_ne in Hacc.
    + right. exists n'. split; [apply elem_of_cons; by right | done].
  - intros [Hacc | (n' & [-> | Hin]%elem_of_cons & Hn')].
    + left. destruct (vethspec.bridge_added n w) as [b' |]; [| done].
      destruct (decide (b' = b)) as [-> | Hne].
      * rewrite lookup_insert_eq. by eexists.
      * by rewrite lookup_insert_ne.
    + left. rewrite Hn', lookup_insert_eq. by eexists.
    + right. by exists n'.
Qed.

(** The local bridges: a name is in the set exactly when the discovery
    returns it without error for the CNI config of some local network. *)
Lemma localBridgesOf_spec (localNetworks : list Network.t) (w : World) (b : string) :
  is_Some (fst (utils.localBridgesOf localNetworks w) !! b)
  <-> exists n cniConf,
        n ∈ localNetworks
        /\ json.index (Network.Metadata n) "cniConfig" = json.Map cniConf
        /\ fst (utils.getBridgeInfoFromCNIConfig cniConf w) = (b, None).
Proof.
  unfold utils.localBridgesOf. rewrite (localBridges_fold _ _ _ w), lookup_empty. split.
  - intros [[? ?] | (n & Hin & (conf & ? & ?)%bridge_added_spec)]; [done |].
    by exists n, conf.
  - intros (n & conf & Hin & ? & ?). right. exists n. split; [done |].
    apply bridge_added_spec. by exists conf.
Qed.

(** C6 (amended): the discovery reads the "bridge" of every member of a
    CNI config and never its "type": when every member is an object with a
    string "bridge" it returns, without error, the bridge of the member
    visited last, so the bridge itself for a config of one member whatever
    its type; when some member is not an object or has no string "bridge"
    it returns an error; and the local-bridge set of the host view holds
    the names returned without error for the local networks whose
    cniConfig is an object. *)
Theorem veth_bridge_discovery (cniConf : json.object) (w : World) :
  (Forall (fun member => is_Some (vethspec.bridge_of (snd member))) cniConf ->
     fst (utils.getBridgeInfoFromCNIConfig cniConf w) = (vethspec.last_bridge cniConf, None))
  /\ (Exists (fun member => vethspec.bridge_of (snd member) = None) cniConf ->
        is_Some (snd (fst (utils.getBridgeInfoFromCNIConfig cniConf w))))
  /\ (forall file cniType bridge props,
        fst (utils.getBridgeInfoFromCNIConfig
               [(file, json.Map (("type", json.Str cniType)
                                 :: ("bridge", json.Str bridge) :: props))] w)
        = (bridge, None))
  /\ (forall localNetworks b,
        is_Some (fst (utils.localBridgesOf localNetworks w) !! b)
        <-> exists n conf,
              n ∈ localNetworks
              /\ json.index (Network.Metadata n) "cniConfig" = json.Map conf
              /\ fst (utils.getBridgeInfoFromCNIConfig conf w) = (b, None)).
Proof.
  split; [apply bridges_all_named |].
  split; [apply bridges_one_unnamed |].
  split; [| intros; apply localBridgesOf_spec].
  intros file cniType bridge props. reflexivity.
Qed.

End bridges.

(** C6, as stated, fails on a config with a bridge plugin and a plugin
    without a bridge: in either visiting order the discovery returns an
    error although one member names the bridge [docker0], and the network
    adds nothing to the local-bridge set; the discovery of the ARP watcher
    returns [docker0] for the same config. *)
Lemma veth_bridge_discovery_fails_on_second_plugin :
  vethspec.bridge_of (json.Map [("type", json.Str "rancher-bridge"); ("bridge", json.Str "docker0");
                                ("bridgeSubnet", json.Str "10.42.0.0/16")])
  = Some "docker0"%string
  /\ fst (utils.getBridgeInfoFromCNIConfig vethspec.two_plugins (scenario.world [] [] []))
     = (""%string, Some "error getting bridge from cni config"%string)
  /\ fst (utils.getBridgeInfoFromCNIConfig (rev vethspec.two_plugins) (scenario.world [] [] []))
     = ("docker0"%string, Some "error getting bridge from cni config"%string)
  /\ fst (utils.localBridgesOf
            [{| Network.UUID := "N";
                Network.Metadata := [("cniConfig"%string, json.Map vethspec.two_plugins)] |}]
            (scenario.world [] [] []))
     = ∅
  /\ arpsync.getBridgeInfo
       {| Network.UUID := "N";
          Network.Metadata := [("cniConfig"%string, json.Map vethspec.two_plugins)] |}
     = Ok ("docker0"%string, "10.42.0.0/16"%string).
Proof. vm_compute. repeat split. Qed.

(** ** Veth enumeration and clean-up *)
Section veths.
Variable LocalNetworks : metadata.Client -> result (list Network.t).

Lemma localBridgesLinks_fold (alllinks : list netlink.Link) (localBridges : gmap string bool)
    (acc : gmap Z netlink.Link) (i : Z) (b : netlink.Link) :
  fold_left
    (fun m l =>
       match localBridges !! netlink.Name l with
       | Some _ => <[netlink.Index l := l]> m
       | None => m
       end) alllinks acc !! i = Some b ->
  acc !! i = Some b
  \/ (b ∈ alllinks /\ is_Some (localBridges !! netlink.Name b) /\ netlink.Index b = i).
Proof.
  revert acc. induction alllinks as [| l rest IH]; intros acc; simpl; [by left |].
  intros [Hacc | (Hin & Hname & Hidx)]%IH.
  - destruct (localBridges !! netlink.Name l) as [t |] eqn:Hl; [| by left].
    destruct (decide (netlink.Index l = i)) as [<- | Hne].
    + rewrite lookup_insert_eq in Hacc. injection Hacc as <-.
      right. split; [apply elem_of_cons; by left |]. split; [by eexists | done].
    + rewrite lookup_insert_ne in Hacc by done. by left.
  - right. split; [apply elem_of_cons; by right | done].
Qed.

(** A member of the map of local bridge links is a link that carries the
    name of a local bridge, under its own index. *)
Lemma localBridgesLinks_lookup (alllinks : list netlink.Link)
    (localBridges : gmap string bool) (i : Z) (b : netlink.Link) :
  utils.localBridgesLinks alllinks localBridges !! i = Some b ->
  b ∈ alllinks /\ is_Some (localBridges !! netlink.Name b) /\ netlink.Index b = i.
Proof.
  intros [Hempty | ?]%localBridgesLinks_fold; [| done]. by rewrite lookup_empty in Hempty.
Qed.

Lemma vethsOf_fold (vethPrefix : string) (alllinks : list netlink.Link)
    (lbl : gmap Z netlink.Link) (acc : gmap string netlink.Link) (k : string)
    (l : netlink.Link) :
  fold_left
    (fun veths l =>
       if negb (strings.HasPrefix (netlink.Name l) vethPrefix) then veths
       else
         match lbl !! netlink.MasterIndex l with
         | None => veths
         | Some _ => <[strconv.Itoa (netlink.Index l) := l]> veths
         end) alllinks acc !! k = Some l ->
  acc !! k = Some l
  \/ (l ∈ alllinks /\ strings.HasPrefix (netlink.Name l) vethPrefix = true
      /\ is_Some (lbl !! netlink.MasterIndex l) /\ k = strconv.Itoa (netlink.Index l)).
Proof.
  revert acc. induction alllinks as [| x rest IH]; intros acc; simpl; [by left |].
  intros [Hacc | (Hin & ? & ? & ?)]%IH.
  - destruct (strings.HasPrefix (netlink.Name x) vethPrefix) eqn:Hp; simpl in Hacc; [| by left].
    destruct (lbl !! netlink.MasterIndex x) as [bridge |] eqn:Hm; [| by left].
    destruct (decide (strconv.Itoa (netlink.Index x) = k)) as [<- | Hne].
    + rewrite lookup_insert_eq in Hacc. injection Hacc as <-.
      right. split; [apply elem_of_cons; by left |]. repeat split; [done | by eexists].
    + rewrite lookup_insert_ne in Hacc by done. by left.
  - right. split; [apply elem_of_cons; by right | done].
Qed.

(** A member of the host view is a link with the prefix whose master is a
    local bridge link, under the decimal text of its own index. *)
Lemma vethsOf_lookup (vethPrefix : string) (alllinks : list netlink.Link)
    (lbl : gmap Z netlink.Link) (k : string) (l : netlink.Link) :
  utils.vethsOf vethPrefix alllinks lbl !! k = Some l ->
  l ∈ alllinks /\ strings.HasPrefix (netlink.Name l) vethPrefix = true
  /\ is_Some (lbl !! netlink.MasterIndex l) /\ k = strconv.Itoa (netlink.Index l).
Proof.
  intros [Hempty | ?]%vethsOf_fold; [| done]. by rewrite lookup_empty in Hempty.
Qed.

Lemma getBridgeInfoFromCNIConfig_quiet (cniConf : json.object) (w : World) :
  quiet w (snd (utils.getBridgeInfoFromCNIConfig cniConf w)).
Proof.
  apply quiet_fold. intros [b e] w0 member. unfold utils.bridgeStep.
  destruct (json.assertMap _) as [props [|]]; [| apply quiet_Errorf].
  destruct (json.assertString _) as [b' [|]]; [apply quiet_refl | apply quiet_Errorf].
Qed.

Lemma localBridgesOf_quiet (localNetworks : list Network.t) (w : World) :
  quiet w (snd (utils.localBridgesOf localNetworks w)).
Proof.
  apply quiet_fold. intros acc w0 n. unfold utils.addLocalBridge.
  destruct (json.assertMap _) as [conf [|]]; [| apply quiet_refl].
  pose proof (getBridgeInfoFromCNIConfig_quiet conf w0) as Hq.
  by destruct (utils.getBridgeInfoFromCNIConfig conf w0) as [[b [e |]] w1].
Qed.

Lemma GetHostViewVethMap_Ok (vethPrefix : string) (mc : metadata.Client) (w w1 : World)
    (hostVethMap : gmap string netlink.Link) :
  utils.GetHostViewVethMap LocalNetworks vethPrefix mc w = (Ok hostVethMap, w1) ->
  exists localNetworks,
    LocalNetworks mc = Ok localNetworks
    /\ kernel.LinkList w = Ok (links w)
    /\ hostVethMap
       = utils.vethsOf vethPrefix (links w)
           (utils.localBridgesLinks (links w) (fst (utils.localBridgesOf localNetworks w)))
    /\ quiet w w1.
Proof.
  unfold utils.GetHostViewVethMap, kernel.LinkList.
  destruct (read_error w ReadLinkList); [discriminate |].
  destruct (LocalNetworks mc) as [localNetworks | e]; [| discriminate].
  pose proof (localBridgesOf_quiet localNetworks w) as Hw.
  unfold utils.localBridgesOf in *.
  destruct (fold_left utils.addLocalBridge localNetworks (∅, w)) as [localBridges w'] eqn:Hfold.
  case_bool_decide; [discriminate |].
  intros [= <- <-]. exists localNetworks. rewrite Hfold.
  split; [done |]. split; [done |]. split; [done |]. exact Hw.
Qed.

Lemma clean_calls (ds : list (string * netlink.Link)) (w : World) :
  calls (fold_left utils.deleteVeth ds w)
  = calls w ++ ((fun kv => CallLinkDel (snd kv)) <$> ds).
Proof.
  revert w. induction ds as [| kv ds IH]; intros w; simpl; [by rewrite app_nil_r |].
  rewrite IH. unfold utils.deleteVeth, kernel.LinkDel.
  destruct (call_error _ _); simpl; by rewrite <- app_assoc.
Qed.

Lemma CleanUpDanglingVeths_calls (dangling : gmap string netlink.Link) (w : World) :
  calls (utils.CleanUpDanglingVeths dangling w)
  = calls w ++ ((fun kv => CallLinkDel (snd kv)) <$> map_to_list dangling).
Proof. apply clean_calls. Qed.

Lemma containerView_fold (dc : docker.Client) (containers : list docker.Container)
    (acc : gmap string bool) (w : World) (k : string) :
  is_Some (fst (fold_left (utils.addContainerVeth dc) containers (acc, w)) !! k)
  <-> is_Some (acc !! k)
      \/ exists d link,
           d ∈ containers /\ docker.NetworkMode d <> "host"%string
           /\ docker.eth0 dc (docker.ID d) = Ok link
           /\ strconv.Itoa (netlink.ParentIndex link) = k.
Proof.
  revert acc w. induction containers as [| d rest IH]; intros acc w.
  { split; [by left |]. intros [? | (? & ? & ?%elem_of_nil & _)]; done. }
  cbn [fold_left]. unfold utils.addContainerVeth at 2.
  destruct (String.eqb (docker.NetworkMode d) "host") eqn:Hmode.
  - apply String.eqb_eq in Hmode. rewrite IH. split.
    + intros [? | (d' & link & Hin & ?)]; [by left |].
      right. exists d', link. split; [apply elem_of_cons; by right | done].
    + intros [? | (d' & link & [-> | Hin]%elem_of_cons & Hm & ?)]; [by left | done |].
      right. by exists d', link.
  - apply String.eqb_neq in Hmode.
    destruct (docker.eth0 dc (docker.ID d)) as [link |] eqn:Heth; rewrite IH.
    + split.
      * intros [Hacc | (d' & link' & Hin & ?)].
        -- destruct (decide (strconv.Itoa (netlink.ParentIndex link) = k)) as [Hk | Hne].
           ++ right. exists d, link. split; [apply elem_of_cons; by left | done].
           ++ left. by rewrite lookup_insert_ne in Hacc.
        -- right. exists d', link'. split; [apply elem_of_cons; by right | done].
      * intros [Hacc | (d' & link' & [-> | Hin]%elem_of_cons & Hm & Hl & Hk)].
        -- left. destruct (decide (strconv.Itoa (netlink.ParentIndex link) = k)) as [<- | Hne].
           ++ rewrite lookup_insert_eq. by eexists.
           ++ by rewrite lookup_insert_ne.
        -- left. rewrite Heth in Hl. injection Hl as <-. rewrite Hk, lookup_insert_eq.
           by eexists.
        -- right. by exists d', link'.
    + split.
      * intros [? | (d' & link & Hin & ?)]; [by left |].
        right. exists d', link. split; [apply elem_of_cons; by right | done].
      * intros [? | (d' & link & [-> | Hin]%elem_of_cons & Hm & Hl & ?)];
          [by left | congruence |].
        right. by exists d', link.
Qed.

(** The container view holds exactly the decimal texts of the parent
    indices that the containers outside the host network report. *)
Lemma containerView_spec (dc : docker.Client) (w w' : World)
    (containerVethMap : gmap string bool) (k : string) :
  utils.GetContainersViewVethMapByEnteringNS dc w = (Ok containerVethMap, w') ->
  is_Some (containerVethMap !! k)
  <-> exists containers d link,
        docker.ContainerList dc = Ok containers
        /\ d ∈ containers /\ docker.NetworkMode d <> "host"%string
        /\ docker.eth0 dc (docker.ID d) = Ok link
        /\ strconv.Itoa (netlink.ParentIndex link) = k.
Proof.
  unfold utils.GetContainersViewVethMapByEnteringNS.
  destruct (docker.ContainerList dc) as [containers | e]; [| discriminate].
  pose proof (containerView_fold dc containers ∅ w k) as Hfold.
  destruct (fold_left _ _ _) as [cv w0]. intros [= <- <-]. simpl in Hfold.
  rewrite Hfold, lookup_empty. split.
  - intros [[? ?] | (d & link & ?)]; [done |]. by exists containers, d, link.
  - intros (cs & d & link & [= <-] & ?). right. by exists d, link.
Qed.

(** C2: when the host view is [GetHostViewVethMap(prefix, mc)], every call
    that [CleanUpDanglingVeths] makes on [GetDanglingVeths(host, container)]
    deletes a link of the kernel that (a) has the prefix in its name, (b) has
    for master the index of a link that carries the name of a local bridge,
    and (c) is absent, by the decimal text of its index, from the container
    view; when that view is the one built by entering the namespaces, no
    container outside the host network reports the index as the parent of
    its [eth0]. *)
Theorem veth_deleted_only_if_dangling (vethPrefix : string) (mc : metadata.Client)
    (w w1 w2 : World) (hostVethMap : gmap string netlink.Link)
    (containerVethMap : gmap string bool) (c : Call) :
  utils.GetHostViewVethMap LocalNetworks vethPrefix mc w = (Ok hostVethMap, w1) ->
  c ∈ new_calls w2
        (utils.CleanUpDanglingVeths
           (utils.GetDanglingVeths hostVethMap containerVethMap) w2) ->
  exists l,
    c = CallLinkDel l
    /\ l ∈ links w
    /\ strings.HasPrefix (netlink.Name l) vethPrefix = true
    /\ (exists localNetworks bridge,
          LocalNetworks mc = Ok localNetworks
          /\ bridge ∈ links w
          /\ is_Some (fst (utils.localBridgesOf localNetworks w) !! netlink.Name bridge)
          /\ netlink.MasterIndex l = netlink.Index bridge)
    /\ hostVethMap !! strconv.Itoa (netlink.Index l) = Some l
    /\ containerVethMap !! strconv.Itoa (netlink.Index l) = None
    /\ (forall dc w3 w4 containers d link,
          utils.GetContainersViewVethMapByEnteringNS dc w3 = (Ok containerVethMap, w4) ->
          docker.ContainerList dc = Ok containers ->
          d ∈ containers ->
          docker.NetworkMode d <> "host"%string ->
          docker.eth0 dc (docker.ID d) = Ok link ->
          netlink.ParentIndex link <> netlink.Index l).
Proof.
  intros (localNetworks & Hnets & _ & -> & _)%GetHostViewVethMap_Ok.
  rewrite (new_calls_app _ _ _ (CleanUpDanglingVeths_calls _ w2)).
  intros ([k l] & -> & Hkl%elem_of_map_to_list)%list_elem_of_fmap. simpl.
  unfold utils.GetDanglingVeths in Hkl.
  apply map_lookup_filter_Some in Hkl as [Hhost Hfree]. simpl in Hfree.
  pose proof Hhost as Hhost'.
  apply vethsOf_lookup in Hhost as (Hin & Hprefix & [bridge Hbridge] & ->).
  apply localBridgesLinks_lookup in Hbridge as (Hbin & Hbname & Hbidx).
  exists l. repeat split; try done.
  - by exists localNetworks, bridge.
  - intros dc w3 w4 containers d link Hview Hlist Hd Hmode Heth Hparent.
    assert (is_Some (containerVethMap !! strconv.Itoa (netlink.Index l))) as [x Hx].
    { apply (containerView_spec dc w3 w4 _ _ Hview).
      exists containers, d, link. by rewrite Hparent. }
    congruence.
Qed.

End veths.

Lemma veth_deleted_only_if_dangling_witness :
  exists l,
    CallLinkDel (scenario.veth "vethB" 43) = CallLinkDel l
    /\ l ∈ [scenario.docker0; scenario.veth "vethA" 42; scenario.veth "vethB" 43]
    /\ strings.HasPrefix (netlink.Name l) "veth" = true.
Proof.
  destruct (veth_deleted_only_if_dangling scenario.localNetworks "veth" (scenario.client [])
              (scenario.world [scenario.docker0; scenario.veth "vethA" 42; scenario.veth "vethB" 43]
                 [] [])
              (scenario.world [scenario.docker0; scenario.veth "vethA" 42; scenario.veth "vethB" 43]
                 [] [])
              (scenario.world [scenario.docker0; scenario.veth "vethA" 42; scenario.veth "vethB" 43]
                 [] [])
              (<["42"%string := scenario.veth "vethA" 42]>
                 (<["43"%string := scenario.veth "vethB" 43]> ∅))
              (<["42"%string := true]> ∅)
              (CallLinkDel (scenario.veth "vethB" 43)))
    as (l & Hl & Hin & Hprefix & _).
  - vm_compute. reflexivity.
  - vm_compute. constructor.
  - exists l. split; [exact Hl | split; [exact Hin | exact Hprefix]].
Defined.

(** ** A second step after a successful one *)
Section arp_second_step.
Context `{!net.Lib}.







End arp_second_step.

Section conntrack_second_step.

Lemma same_flow_refl (e : conntrack.CTEntry) : kernel.same_flow e e = true.
Proof. unfold kernel.same_flow. by rewrite !String.eqb_refl. Qed.

Lemma syncEntry_kernel_ct (m : gmap string Container.t) (e : conntrack.CTEntry) (w : World) :
  (forall c, call_error w c = None) ->
  read_error (conntracksync.syncEntry m e w) = read_error w
  /\ call_error (conntracksync.syncEntry m e w) = call_error w
  /\ dnat (conntracksync.syncEntry m e w)
     = if ctspec.stale m e
       then List.filter (fun x => negb (kernel.same_flow e x)) (dnat w)
       else dnat w.
Proof.
  intros Hok. unfold conntracksync.syncEntry, ctspec.stale, ctspec.expected.
  fold (ctspec.specificKey e). fold (ctspec.genericKey e).
  assert (forall c : Container.t,
            let w' := if negb (String.eqb (conntrack.ReplySourceIP e) (Container.PrimaryIp c))
                      then match kernel.CTEntryDelete e w with
                           | (Some _, w0) =>
                               Errorf "conntracksync: error deleting the conntrack entry: %v" w0
                           | (None, w0) => w0
                           end
                      else w in
            read_error w' = read_error w /\ call_error w' = call_error w
            /\ dnat w' = if negb (String.eqb (conntrack.ReplySourceIP e) (Container.PrimaryIp c))
                         then List.filter (fun x => negb (kernel.same_flow e x)) (dnat w)
                         else dnat w) as Hc.
  { intros c. simpl. destruct (negb _); [| done].
    unfold kernel.CTEntryDelete. simpl. by rewrite Hok. }
  destruct (m !! ctspec.specificKey e) as [c |]; [apply Hc |].
  destruct (m !! ctspec.genericKey e) as [c |]; [apply Hc | done].
Qed.

Lemma run_flows_settles (m : gmap string Container.t) (es : list conntrack.CTEntry) (w : World) :
  (forall c, call_error w c = None) ->
  (forall x, x ∈ dnat w -> ctspec.stale m x = false \/ x ∈ es) ->
  read_error (ctspec.run_flows m es w) = read_error w
  /\ forall x, x ∈ dnat (ctspec.run_flows m es w) -> ctspec.stale m x = false.
Proof.
  revert w. induction es as [| e es IH]; intros w Hok Hinv.
  { split; [done |]. intros x Hx. destruct (Hinv x Hx) as [? | ?%elem_of_nil]; done. }
  unfold ctspec.run_flows in *. cbn [fold_left].
  destruct (syncEntry_kernel_ct m e w Hok) as (Hr & Hc & Hd).
  destruct (IH (conntracksync.syncEntry m e w)) as [Hr' Hs'].
  - intros c. by rewrite Hc.
  - intros x Hx. rewrite Hd in Hx. destruct (ctspec.stale m e) eqn:Hstale.
    + apply list_elem_of_In, filter_In in Hx as [Hx%list_elem_of_In Hflow].
      destruct (Hinv x Hx) as [? | [-> | ?]%elem_of_cons]; [by left | | by right].
      rewrite same_flow_refl in Hflow. discriminate.
    + destruct (Hinv x Hx) as [? | [-> | ?]%elem_of_cons]; [by left | by left | by right].
  - split; [congruence | done].
Qed.

(** What a conntrack step that returns nil did. *)
Lemma conntrack_doSync_ok (ctw : conntracksync.ConntrackTableWatcher) (w : World) :
  fst (conntracksync.doSync ctw w) = Returns None ->
  exists m,
    (forall w', conntracksync.buildContainersMaps ctw w' = (Returns (Ok m), w'))
    /\ read_error w ReadListDNAT = None
    /\ snd (conntracksync.doSync ctw w) = ctspec.run_flows m (dnat w) w.
Proof.
  unfold conntracksync.doSync, conntracksync.buildContainersMaps, kernel.ListDNAT.
  destruct (metadata.GetSelfHost _) as [host |]; [| discriminate].
  destruct (metadata.GetContainers _) as [containers |]; [| discriminate].
  destruct (fold_left _ _ _) as [m | msg]; [| discriminate].
  destruct (read_error w ReadListDNAT) eqn:Hr; [discriminate |].
  intros _. exists m. by repeat split.
Qed.


End conntrack_second_step.

Section veth_second_step.
Variable LocalNetworks : metadata.Client -> result (list Network.t).

Lemma localBridges_fold_fst (localNetworks : list Network.t) (acc : gmap string bool)
    (w1 w2 : World) :
  fst (fold_left utils.addLocalBridge localNetworks (acc, w1))
  = fst (fold_left utils.addLocalBridge localNetworks (acc, w2)).
Proof.
  revert acc w1 w2. induction localNetworks as [| n rest IH]; intros acc w1 w2; [done |].
  cbn [fold_left].
  pose proof (addLocalBridge_fst acc w1 w1 n) as H1.
  pose proof (addLocalBridge_fst acc w2 w1 n) as H2.
  destruct (utils.addLocalBridge (acc, w1) n) as [acc1 w1'].
  destruct (utils.addLocalBridge (acc, w2) n) as [acc2 w2'].
  cbn [fst] in H1, H2. subst acc1 acc2. apply IH.
Qed.

Lemma localBridgesLinks_complete (alllinks : list netlink.Link)
    (localBridges : gmap string bool) (b : netlink.Link) :
  b ∈ alllinks -> is_Some (localBridges !! netlink.Name b) ->
  is_Some (utils.localBridgesLinks alllinks localBridges !! netlink.Index b).
Proof.
  unfold utils.localBridgesLinks. generalize (∅ : gmap Z netlink.Link).
  assert (forall (ls : list netlink.Link) (acc : gmap Z netlink.Link),
            is_Some (acc !! netlink.Index b) ->
            is_Some (fold_left
                       (fun m l =>
                          match localBridges !! netlink.Name l with
                          | Some _ => <[netlink.Index l := l]> m
                          | None => m
                          end) ls acc !! netlink.Index b)) as Hkeep.
  { induction ls as [| l ls IH]; intros acc Hacc; [done |]. simpl. apply IH.
    destruct (localBridges !! netlink.Name l); [| done].
    destruct (decide (netlink.Index l = netlink.Index b)) as [-> | Hne].
    - rewrite lookup_insert_eq. by eexists.
    - by rewrite lookup_insert_ne. }
  induction alllinks as [| l ls IH]; intros acc Hin Hname; [by apply elem_of_nil in Hin |].
  simpl. apply elem_of_cons in Hin as [<- | Hin]; [| by apply IH].
  apply Hkeep. destruct Hname as [t ->]. rewrite lookup_insert_eq. by eexists.
Qed.

Lemma vethsOf_complete (vethPrefix : string) (alllinks : list netlink.Link)
    (lbl : gmap Z netlink.Link) (l : netlink.Link) :
  l ∈ alllinks -> strings.HasPrefix (netlink.Name l) vethPrefix = true ->
  is_Some (lbl !! netlink.MasterIndex l) ->
  is_Some (utils.vethsOf vethPrefix alllinks lbl !! strconv.Itoa (netlink.Index l)).
Proof.
  unfold utils.vethsOf. generalize (∅ : gmap string netlink.Link).
  assert (forall (ls : list netlink.Link) (acc : gmap string netlink.Link),
            is_Some (acc !! strconv.Itoa (netlink.Index l)) ->
            is_Some (fold_left
                       (fun veths x =>
                          if negb (strings.HasPrefix (netlink.Name x) vethPrefix) then veths
                          else
                            match lbl !! netlink.MasterIndex x with
                            | None => veths
                            | Some _ => <[strconv.Itoa (netlink.Index x) := x]> veths
                            end) ls acc !! strconv.Itoa (netlink.Index l))) as Hkeep.
  { induction ls as [| x ls IH]; intros acc Hacc; [done |]. simpl. apply IH.
    destruct (negb _); [done |].
    destruct (lbl !! netlink.MasterIndex x); [| done].
    destruct (decide (strconv.Itoa (netlink.Index x) = strconv.Itoa (netlink.Index l)))
      as [-> | Hne].
    - rewrite lookup_insert_eq. by eexists.
    - by rewrite lookup_insert_ne. }
  induction alllinks as [| x ls IH]; intros acc Hin Hprefix Hmaster;
    [by apply elem_of_nil in Hin |].
  simpl. apply elem_of_cons in Hin as [<- | Hin]; [| by apply IH].
  apply Hkeep. rewrite Hprefix. simpl. destruct Hmaster as [t ->].
  rewrite lookup_insert_eq. by eexists.
Qed.

Lemma GetHostViewVethMap_quiet (vethPrefix : string) (mc : metadata.Client) (w : World) :
  quiet w (snd (utils.GetHostViewVethMap LocalNetworks vethPrefix mc w)).
Proof.
  unfold utils.GetHostViewVethMap.
  destruct (kernel.LinkList w); [| apply quiet_Errorf].
  destruct (LocalNetworks mc) as [localNetworks |]; [| apply quiet_Errorf].
  pose proof (localBridgesOf_quiet localNetworks w) as Hq.
  destruct (utils.localBridgesOf localNetworks w) as [lb w1]. simpl in Hq.
  case_bool_decide; simpl; [| done].
  eapply quiet_trans; [exact Hq | apply quiet_Errorf].
Qed.

Lemma containerView_quiet (dc : docker.Client) (w : World) :
  quiet w (snd (utils.GetContainersViewVethMapByEnteringNS dc w)).
Proof.
  unfold utils.GetContainersViewVethMapByEnteringNS.
  destruct (docker.ContainerList dc) as [containers |]; [| apply quiet_Errorf].
  pose proof (quiet_fold (utils.addContainerVeth dc) containers) as Hq.
  specialize (Hq ltac:(intros b w0 d; unfold utils.addContainerVeth;
                       destruct (String.eqb _ _); [apply quiet_refl |];
                       destruct (docker.eth0 _ _); [apply quiet_refl | apply quiet_Errorf])
                ∅ w).
  by destruct (fold_left _ _ _).
Qed.

(** The links that a clean-up leaves, when no deletion fails. *)
Lemma clean_links (ds : list (string * netlink.Link)) (w : World) :
  (forall c, call_error w c = None) ->
  read_error (fold_left utils.deleteVeth ds w) = read_error w
  /\ forall x, x ∈ links (fold_left utils.deleteVeth ds w) ->
               x ∈ links w /\ forall kv, kv ∈ ds -> netlink.Index x <> netlink.Index (snd kv).
Proof.
  revert w. induction ds as [| kv ds IH]; intros w Hok; cbn [fold_left].
  { split; [done |]. intros x Hx. split; [done |]. by intros kv ?%elem_of_nil. }
  assert (utils.deleteVeth w kv
          = with_links
              (List.filter (fun x => negb (netlink.Index x =? netlink.Index (snd kv))) (links w))
              (record_call (CallLinkDel (snd kv)) w)) as ->.
  { unfold utils.deleteVeth, kernel.LinkDel. simpl. by rewrite Hok. }
  destruct (IH (with_links
                  (List.filter (fun x => negb (netlink.Index x =? netlink.Index (snd kv)))
                     (links w))
                  (record_call (CallLinkDel (snd kv)) w))) as [Hr Hl].
  { intros c. apply Hok. }
  split; [by rewrite Hr |].
  intros x [Hx Hds]%Hl. simpl in Hx.
  apply list_elem_of_In, filter_In in Hx as [Hx%list_elem_of_In Hidx].
  split; [done |]. intros kv' [-> | Hin]%elem_of_cons; [| by apply Hds].
  by apply negb_true_iff, Z.eqb_neq in Hidx.
Qed.

End veth_second_step.


(** ** A second step that visits the CNI config in another order *)
Section visiting_order.

Lemma getBridgeInfo_range_find (conf : json.object) :
  arpsync.getBridgeInfo_range conf
  = match List.find derived.is_bridge_plugin conf with
    | None => Err "arpsync: couldn't find bridge info"
    | Some member =>
        if String.eqb (derived.bridge (snd member)) ""
        then Err "error: bridge is empty in CNI config"
        else if String.eqb (derived.bridgeSubnet (snd member)) ""
             then Err "error: bridgeSubnet is empty in CNI config"
             else Ok (derived.bridge (snd member), derived.bridgeSubnet (snd member))
    end.
Proof.
  induction conf as [| [name file] rest IH]; [reflexivity |].
  cbn [arpsync.getBridgeInfo_range List.find].
  unfold derived.is_bridge_plugin at 1. cbn [snd].
  fold (derived.cniType file) (derived.bridge file) (derived.bridgeSubnet file).
  destruct (String.eqb (derived.cniType file) "rancher-bridge"); [| exact IH].
  cbv beta iota. cbn [snd].
  destruct (String.eqb (derived.bridge file) ""); cbn [negb]; [reflexivity |].
  by destruct (String.eqb (derived.bridgeSubnet file) "").
Qed.








Lemma last_elem_of {A : Type} (l : list A) (x : A) : last l = Some x -> x ∈ l.
Proof.
  intros [l' ->]%last_Some. apply elem_of_app. right. by apply list_elem_of_singleton.
Qed.

(** A network adds the same bridge, or none, in every visiting order when
    the members of its config that name a bridge agree. *)
Lemma bridge_added_revisit (n n' : Network.t) (w w' : World) :
  order.revisit n n' -> order.bridges_agree n ->
  vethspec.bridge_added n' w' = vethspec.bridge_added n w.
Proof.
  intros [_ Hconf] Hagree. unfold vethspec.bridge_added.
  unfold order.bridges_agree, derived.cniConfig in Hagree.
  destruct (json.index (Network.Metadata n) "cniConfig") as [| | | | | conf];
    destruct (json.index (Network.Metadata n') "cniConfig") as [| | | | | conf'];
    try discriminate; try reflexivity.
  cbn [json.assertMap fst] in Hagree.
  destruct (decide (Forall (fun member => is_Some (vethspec.bridge_of (snd member))) conf))
    as [Hall | Hsome].
  - assert (Forall (fun member => is_Some (vethspec.bridge_of (snd member))) conf') as Hall'
        by (by rewrite <- Hconf).
    rewrite (bridges_all_named conf w Hall), (bridges_all_named conf' w' Hall').
    f_equal. unfold vethspec.last_bridge.
    destruct (last conf) as [m |] eqn:Hm.
    + destruct (last conf') as [m' |] eqn:Hm'.
      * apply last_elem_of in Hm, Hm'. rewrite <- Hconf in Hm'.
        rewrite Forall_forall in Hall.
        destruct (Hall m Hm) as [b Hb]. destruct (Hall m' Hm') as [b' Hb'].
        cbn. rewrite Hb, Hb'. cbn. symmetry. by apply (Hagree m m').
      * apply last_None in Hm'. subst conf'. apply Permutation_nil_r in Hconf. by subst conf.
    + apply last_None in Hm. subst conf. apply Permutation_nil in Hconf. by subst conf'.
  - apply not_Forall_Exists in Hsome; [| apply _].
    assert (Exists (fun member => vethspec.bridge_of (snd member) = None) conf) as Hnone.
    { eapply Exists_impl; [exact Hsome |]. intros m Hm. cbn in Hm.
      destruct (vethspec.bridge_of (snd m)); [| done]. exfalso. apply Hm. by eexists. }
    assert (Exists (fun member => vethspec.bridge_of (snd member) = None) conf') as Hnone'
        by (by rewrite <- Hconf).
    destruct (bridges_one_unnamed conf w Hnone) as [e He].
    destruct (bridges_one_unnamed conf' w' Hnone') as [e' He'].
    destruct (fst (utils.getBridgeInfoFromCNIConfig conf w)) as [b1 o1].
    destruct (fst (utils.getBridgeInfoFromCNIConfig conf' w')) as [b2 o2].
    cbn [snd] in He, He'. by subst o1 o2.
Qed.

Lemma bridges_added_revisit (nets nets' : list Network.t) (w w' : World) (b : string) :
  Forall2 order.revisit nets nets' -> Forall order.bridges_agree nets ->
  (exists n', n' ∈ nets' /\ vethspec.bridge_added n' w' = Some b) ->
  exists n, n ∈ nets /\ vethspec.bridge_added n w = Some b.
Proof.
  induction 1 as [| n n' ns ns' Hn _ IH]; intros Hagree (x & Hx & Hb).
  { by apply elem_of_nil in Hx. }
  apply Forall_cons in Hagree as [Hagree1 Hagree].
  apply elem_of_cons in Hx as [-> | Hx].
  - exists n. split; [apply elem_of_cons; by left |].
    by rewrite <- (bridge_added_revisit n n' w w' Hn Hagree1).
  - destruct (IH Hagree) as (y & Hy & Hby); [by exists x |].
    exists y. split; [apply elem_of_cons; by right | done].
Qed.

(** The local bridges that the host view finds in another visiting order
    are local bridges of the first order. *)
Lemma localBridgesOf_revisit (nets nets' : list Network.t) (w w' : World) (b : string) :
  Forall2 order.revisit nets nets' -> Forall order.bridges_agree nets ->
  is_Some (fst (utils.localBridgesOf nets' w') !! b) ->
  is_Some (fst (utils.localBridgesOf nets w) !! b).
Proof.
  intros Hnets Hagree Hb. unfold utils.localBridgesOf in *.
  apply (localBridges_fold nets' ∅ w' w' b) in Hb as [[? Hx] | Hb];
    [by rewrite lookup_empty in Hx |].
  apply (localBridges_fold nets ∅ w w b). right.
  by apply (bridges_added_revisit nets nets' w w' b).
Qed.

Variables LocalNetworks LocalNetworks' : metadata.Client -> result (list Network.t).

(** When the dangling members of the host view are deleted without a
    failure, the host view taken again, in any visiting order, has no
    dangling member with respect to a container view with the same keys. *)
Lemma clean_up_settles (vethPrefix : string) (mc : metadata.Client)
    (w wa wb w' : World) (host host' : gmap string netlink.Link)
    (cv cv' : gmap string bool) :
  utils.GetHostViewVethMap LocalNetworks vethPrefix mc w = (Ok host, wa) ->
  quiet wa wb ->
  (forall c, call_error w c = None) ->
  order.local_revisit LocalNetworks LocalNetworks' mc ->
  (forall nets, LocalNetworks mc = Ok nets -> Forall order.bridges_agree nets) ->
  utils.GetHostViewVethMap LocalNetworks' vethPrefix mc
    (utils.CleanUpDanglingVeths (utils.GetDanglingVeths host cv) wb)
  = (Ok host', w') ->
  (forall k, is_Some (cv !! k) -> is_Some (cv' !! k)) ->
  utils.GetDanglingVeths host' cv' = ∅.
Proof.
  intros Hhost Hqb Hok Hrevisit Hagree Hhost' Hkeys.
  pose proof (GetHostViewVethMap_Ok LocalNetworks _ _ _ _ _ Hhost)
    as (nets & Hnets & _ & Hhosteq & Hqa).
  pose proof (quiet_trans _ _ _ Hqa Hqb) as (Hlb & _ & _ & _ & Hcb & _).
  set (dangling := utils.GetDanglingVeths host cv) in *.
  destruct (clean_links (map_to_list dangling) wb) as [_ Hl1].
  { intros c. by rewrite Hcb. }
  fold (utils.CleanUpDanglingVeths dangling wb) in Hl1.
  set (w1 := utils.CleanUpDanglingVeths dangling wb) in *.
  pose proof (GetHostViewVethMap_Ok LocalNetworks' _ _ _ _ _ Hhost')
    as (nets' & Hnets' & _ & Hhosteq' & _).
  unfold order.local_revisit in Hrevisit. rewrite Hnets, Hnets' in Hrevisit.
  specialize (Hagree nets Hnets).
  apply map_empty. intros k. apply map_lookup_filter_None. right.
  intros l Hl Hfree. cbn [fst] in Hfree.
  rewrite Hhosteq' in Hl.
  apply vethsOf_lookup in Hl as (Hin & Hprefix & [b Hb] & ->).
  apply localBridgesLinks_lookup in Hb as (Hbin & Hbname & Hbidx).
  apply Hl1 in Hin as [Hin Hkept]. apply Hl1 in Hbin as [Hbin _].
  rewrite Hlb in Hin, Hbin.
  apply (localBridgesOf_revisit nets nets' w w1 _ Hrevisit Hagree) in Hbname.
  pose proof (localBridgesLinks_complete _ _ _ Hbin Hbname) as Hmaster.
  rewrite Hbidx in Hmaster.
  pose proof (vethsOf_complete vethPrefix _ _ _ Hin Hprefix Hmaster) as [v Hv].
  rewrite <- Hhosteq in Hv.
  assert (cv !! strconv.Itoa (netlink.Index l) = None) as Hfree0.
  { destruct (cv !! strconv.Itoa (netlink.Index l)) as [t |] eqn:Hcv; [| done].
    destruct (Hkeys (strconv.Itoa (netlink.Index l))) as [t' Ht']; [by eexists | congruence]. }
  assert ((strconv.Itoa (netlink.Index l), v) ∈ map_to_list dangling) as Hdel.
  { apply elem_of_map_to_list. unfold dangling, utils.GetDanglingVeths.
    apply map_lookup_filter_Some. by split. }
  apply (Hkept _ Hdel). cbn [snd].
  rewrite Hhosteq in Hv. apply vethsOf_lookup in Hv as (_ & _ & _ & Hk).
  by apply (inj pretty) in Hk.
Qed.


End visiting_order.





(** The proviso on the visiting order is needed.  With two bridge plugins
    on different bridges, the first step, which meets the plugin of
    [docker0] first, repairs the entry on [docker0]; a second step in the
    same order asks nothing, and a second step that meets the plugin of
    [br1] first repairs the entry on [br1]. *)
Lemma arp_second_step_in_another_order :
  let cs := [scenario.C "H" "02:aa:aa:aa:aa:05" []; scenario.driver] in
  let first :=
    arpsync.Watch "" (scenario.client_with [scenario.plugin_bridge; scenario.plugin_br1] cs) in
  let other :=
    arpsync.Watch "" (scenario.client_with [scenario.plugin_br1; scenario.plugin_bridge] cs) in
  let w :=
    scenario.world [scenario.docker0; scenario.br1]
      [scenario.neighbour scenario.mac_bb; scenario.neighbour_on 4 scenario.mac_bb] [] in
  order.metadata_revisit (arpsync.mc first) (arpsync.mc other)
  /\ fst (arpsync.doSync first w) = None
  /\ new_calls w (snd (arpsync.doSync first w))
     = [CallNeighSet (arpspec.repaired (scenario.neighbour scenario.mac_bb) scenario.mac_05)]
  /\ new_calls (snd (arpsync.doSync first w))
       (snd (arpsync.doSync first (snd (arpsync.doSync first w)))) = []
  /\ new_calls (snd (arpsync.doSync first w))
       (snd (arpsync.doSync other (snd (arpsync.doSync first w))))
     = [CallNeighSet
          (arpspec.repaired (scenario.neighbour_on 4 scenario.mac_bb) scenario.mac_05)].
Proof.
  cbv zeta. split.
  - split; [reflexivity | split; [reflexivity | split; [reflexivity |]]].
    cbn. constructor; [| constructor]. split; [reflexivity | apply perm_swap].
  - vm_compute. repeat split; reflexivity.
Qed.

(** The same for the veth watcher: with two members that name different
    bridges, the host view takes the bridge of the member visited last.  The
    first step, which visits the member of [br1] last, deletes the veth on
    [br1]; a second step that visits the member of [docker0] last deletes
    the veth on [docker0]. *)
Lemma veth_second_step_in_another_order :
  let first := scenario.localNetworks_with [scenario.plugin_bridge; scenario.plugin_br1] in
  let other := scenario.localNetworks_with [scenario.plugin_br1; scenario.plugin_bridge] in
  let dc := {| docker.ContainerList := Ok []; docker.eth0 := fun _ => Err "no namespace" |} in
  let w :=
    scenario.world
      [scenario.docker0; scenario.br1; scenario.veth "vethA" 42;
       scenario.veth_on 4 "vethB" 43] [] [] in
  order.local_revisit first other (scenario.client [])
  /\ fst (vethsync.doSync first "veth" (scenario.client []) dc w) = None
  /\ new_calls w (snd (vethsync.doSync first "veth" (scenario.client []) dc w))
     = [CallLinkDel (scenario.veth_on 4 "vethB" 43)]
  /\ new_calls (snd (vethsync.doSync first "veth" (scenario.client []) dc w))
       (snd (vethsync.doSync other "veth" (scenario.client []) dc
               (snd (vethsync.doSync first "veth" (scenario.client []) dc w))))
     = [CallLinkDel (scenario.veth "vethA" 42)].
Proof.
  cbv zeta. split.
  - cbn. constructor; [| constructor]. split; [reflexivity | apply perm_swap].
  - vm_compute. repeat split; reflexivity.
Qed.

Lemma loop_survives_errors_not_panics_witness :
  watcher.crashed
    (fst (arpsync.syncLoop
            (scenario.arp_watcher [scenario.C "H" "02:aa:aa:aa:aa:05" []; scenario.driver])
            3 (scenario.world [] [scenario.neighbour scenario.mac_bb] [])))
  = None
  /\ watcher.steps_started
       (fst (arpsync.syncLoop
               (scenario.arp_watcher [scenario.C "H" "02:aa:aa:aa:aa:05" []; scenario.driver])
               3 (scenario.world [] [scenario.neighbour scenario.mac_bb] [])))
     = 3%nat.
Proof.
  apply (proj1 (loop_survives_errors_not_panics
                  (fun w => let '(err, w) :=
                              arpsync.doSync
                                (scenario.arp_watcher
                                   [scenario.C "H" "02:aa:aa:aa:aa:05" []; scenario.driver]) w in
                            (Returns err, w))
                  "arpsync: while syncing, got error: %v" 3
                  (scenario.world [] [scenario.neighbour scenario.mac_bb] []))).
  intros w0. destruct (arpsync.doSync _ w0). reflexivity.
Defined.

(** ** The scenarios of the specification, run *)

(** Scenario 1: one [NeighSet] with the address of the local container; the
    entry it carries has [Type] set to [NUD_REACHABLE] and the [State] of the
    entry read from the kernel. *)
Example scenario_arp_local :
  new_calls (scenario.world [scenario.docker0] [scenario.neighbour scenario.mac_bb] [])
    (snd (arpsync.doSync
            (scenario.arp_watcher [scenario.C "H" "02:aa:aa:aa:aa:05" []; scenario.driver])
            (scenario.world [scenario.docker0] [scenario.neighbour scenario.mac_bb] [])))
  = [CallNeighSet
       {| netlink.LinkIndex := 3; netlink.Family := netlink.FAMILY_V4;
          netlink.State := netlink.NUD_STALE; netlink.Type_ := netlink.NUD_REACHABLE;
          netlink.Flags := 0;
          netlink.IP := [Byte.x0a; Byte.x2a; Byte.x00; Byte.x05];
          netlink.HardwareAddr := scenario.mac_05 |}].
Proof. vm_compute. reflexivity. Qed.

(** Scenario 2: the container is on another host; one [NeighSet] with the
    address of the network driver's container. *)
Example scenario_arp_remote :
  new_calls (scenario.world [scenario.docker0] [scenario.neighbour scenario.mac_cc] [])
    (snd (arpsync.doSync
            (scenario.arp_watcher [scenario.C "H2" "02:aa:aa:aa:aa:05" []; scenario.driver])
            (scenario.world [scenario.docker0] [scenario.neighbour scenario.mac_cc] [])))
  = [CallNeighSet (arpspec.repaired (scenario.neighbour scenario.mac_cc) scenario.mac_dd)].
Proof. vm_compute. reflexivity. Qed.

(** Scenario 3: the kernel already has the expected address. *)
Example scenario_arp_noop :
  new_calls (scenario.world [scenario.docker0] [scenario.neighbour scenario.mac_05] [])
    (snd (arpsync.doSync
            (scenario.arp_watcher [scenario.C "H" "02:aa:aa:aa:aa:05" []; scenario.driver])
            (scenario.world [scenario.docker0] [scenario.neighbour scenario.mac_05] [])))
  = [].
Proof. vm_compute. reflexivity. Qed.

(** Scenario 5: of two veths on the bridge, the one no container reports is
    deleted. *)
Example scenario_veth_cleanup :
  new_calls
    (scenario.world [scenario.docker0; scenario.veth "vethA" 42; scenario.veth "vethB" 43] [] [])
    (snd (vethsync.doSync scenario.localNetworks "veth" (scenario.client [])
            (scenario.runtime 42)
            (scenario.world [scenario.docker0; scenario.veth "vethA" 42; scenario.veth "vethB" 43]
               [] [])))
  = [CallLinkDel (scenario.veth "vethB" 43)].
Proof. vm_compute. reflexivity. Qed.

(** Scenario 6: the interval of the conntrack loop for [""], ["30"], ["abc"]. *)
Example scenario_config_fallback :
  conntracksync.syncInterval (conntracksync.Watch "" (scenario.client [])) = 120 * time.Second
  /\ conntracksync.syncInterval (conntracksync.Watch "30" (scenario.client []))
     = 30 * time.Second
  /\ conntracksync.syncInterval (conntracksync.Watch "abc" (scenario.client []))
     = 120 * time.Second.
Proof. vm_compute. repeat split. Qed.

(** * Further properties of the code *)

(** ** Bridge discovery of the ARP watcher *)
Section arp_bridge_info.

(** X1: [getBridgeInfo] is decided by the first member of the CNI config, in
    visiting order, whose type is [rancher-bridge]: without one (so also
    without a cniConfig object) the error is "couldn't find bridge info"; an
    empty bridge or subnet in that member is an error even when a later member
    is complete; otherwise its bridge and subnet are returned, and a returned
    bridge and subnet are never empty. *)
Theorem getBridgeInfo_first_plugin (network : Network.t) :
  arpsync.getBridgeInfo network
  = match List.find derived.is_bridge_plugin (derived.cniConfig network) with
    | None => Err "arpsync: couldn't find bridge info"
    | Some member =>
        if String.eqb (derived.bridge (snd member)) ""
        then Err "error: bridge is empty in CNI config"
        else if String.eqb (derived.bridgeSubnet (snd member)) ""
             then Err "error: bridgeSubnet is empty in CNI config"
             else Ok (derived.bridge (snd member), derived.bridgeSubnet (snd member))
    end
  /\ forall bridge bridgeSubnet,
       arpsync.getBridgeInfo network = Ok (bridge, bridgeSubnet) ->
       bridge <> ""%string /\ bridgeSubnet <> ""%string
       /\ exists before member after,
            derived.cniConfig network = before ++ member :: after
            /\ Forall (fun m => derived.is_bridge_plugin m = false) before
            /\ derived.is_bridge_plugin member = true
            /\ derived.bridge (snd member) = bridge
            /\ derived.bridgeSubnet (snd member) = bridgeSubnet.
Proof.
  unfold arpsync.getBridgeInfo. fold (derived.cniConfig network).
  rewrite getBridgeInfo_range_find. split; [reflexivity |].
  intros bridge bridgeSubnet.
  destruct (List.find derived.is_bridge_plugin (derived.cniConfig network)) as [member |] eqn:Hfind;
    [| discriminate].
  destruct (String.eqb (derived.bridge (snd member)) "") eqn:Hb; [discriminate |].
  destruct (String.eqb (derived.bridgeSubnet (snd member)) "") eqn:Hs; [discriminate |].
  intros [= <- <-]. apply String.eqb_neq in Hb, Hs. split; [done |]. split; [done |].
  clear Hb Hs. induction (derived.cniConfig network) as [| m rest IH]; [discriminate |].
  cbn [List.find] in Hfind. destruct (derived.is_bridge_plugin m) eqn:Hm.
  - injection Hfind as ->. by exists [], member, rest.
  - destruct (IH Hfind) as (before & member' & after & -> & Hbefore & Hp & Hbr & Hsub).
    exists (m :: before), member', after. repeat split; try done. by constructor.
Qed.

End arp_bridge_info.

(** ** The address index of the ARP watcher *)
Section arp_containers_map.

Lemma buildContainersMap_snoc (containers : list Container.t) (c : Container.t)
    (network : Network.t) :
  arpsync.buildContainersMap (containers ++ [c]) network
  = if derived.indexed network c
    then <[Container.PrimaryIp c := c]> (arpsync.buildContainersMap containers network)
    else arpsync.buildContainersMap containers network.
Proof.
  unfold arpsync.buildContainersMap. rewrite fold_left_app. cbn [fold_left].
  fold (derived.indexed network c). by destruct (derived.indexed network c).
Qed.

(** X2: the address index maps an address to the last container of the
    metadata list that has this address, a non-empty one, and is on the
    network; so a later container overwrites an earlier one with the same
    address, and an address is absent exactly when no such container
    exists. *)
Theorem buildContainersMap_last_wins (containers : list Container.t) (network : Network.t)
    (ip : string) :
  arpsync.buildContainersMap containers network !! ip
  = List.find
      (fun c => derived.indexed network c && String.eqb (Container.PrimaryIp c) ip)
      (rev containers).
Proof.
  induction containers as [| c containers IH] using rev_ind; [apply lookup_empty |].
  rewrite buildContainersMap_snoc, rev_app_distr. cbn [rev app List.find].
  destruct (derived.indexed network c); cbn [andb]; [| exact IH].
  destruct (String.eqb (Container.PrimaryIp c) ip) eqn:Hip.
  - apply String.eqb_eq in Hip. subst ip. apply lookup_insert_eq.
  - apply String.eqb_neq in Hip. by rewrite lookup_insert_ne.
Qed.

End arp_containers_map.

(** ** The scan of the services *)
Section arp_scan_services.


Lemma scan_containers_filter (host : Host.t) (cs : list Container.t)
    (acc : string * gmap string bool) :
  fold_left
    (fun acc aContainer =>
       if String.eqb (Container.HostUUID aContainer) (Host.UUID host)
       then (Container.PrimaryMacAddress aContainer,
             <[Container.NetworkUUID aContainer := true]> (snd acc))
       else acc) cs acc
  = fold_left derived.scan_step
      (List.filter (fun c => String.eqb (Container.HostUUID c) (Host.UUID host)) cs) acc.
Proof.
  revert acc. induction cs as [| c cs IH]; intros acc; [reflexivity |].
  cbn [fold_left List.filter].
  destruct (String.eqb (Container.HostUUID c) (Host.UUID host)); apply IH.
Qed.

Lemma scanServices_drivers_fold (services : list Service.t) (host : Host.t) :
  arpsync.scanServices services host
  = fold_left derived.scan_step (derived.driver_containers services host) ("", ∅).
Proof.
  unfold arpsync.scanServices, derived.driver_containers.
  generalize (""%string, (∅ : gmap string bool)).
  induction services as [| service services IH]; intros acc; [reflexivity |].
  cbn [fold_left flat_map]. rewrite fold_left_app.
  fold (derived.is_driver service).
  destruct (derived.is_driver service); cbn [negb fold_left].
  - rewrite scan_containers_filter. apply IH.
  - apply IH.
Qed.

Lemma scan_step_fold (cs : list Container.t) (acc : string * gmap string bool) :
  fst (fold_left derived.scan_step cs acc)
  = default (fst acc) (Container.PrimaryMacAddress <$> last cs)
  /\ forall n, is_Some (snd (fold_left derived.scan_step cs acc) !! n)
               <-> is_Some (snd acc !! n) \/ exists c, c ∈ cs /\ Container.NetworkUUID c = n.
Proof.
  revert acc. induction cs as [| c cs IH] using rev_ind; intros acc.
  { split; [reflexivity |]. intros n. split; [by left |].
    intros [? | (? & ?%elem_of_nil & _)]; done. }
  rewrite fold_left_app, last_snoc. cbn [fold_left]. destruct (IH acc) as [_ Hdom].
  split; [reflexivity |]. intros n. unfold derived.scan_step at 1. cbn [snd].
  destruct (decide (Container.NetworkUUID c = n)) as [<- | Hne].
  - rewrite lookup_insert_eq. split; [| by eexists].
    intros _. right. exists c. split; [| done]. apply elem_of_app. right. by apply list_elem_of_singleton.
  - rewrite lookup_insert_ne by done. rewrite Hdom. split.
    + intros [? | (c' & Hin & ?)]; [by left |]. right. exists c'. split; [| done].
      apply elem_of_app. by left.
    + intros [? | (c' & [Hin | ->%list_elem_of_singleton]%elem_of_app & ?)];
        [by left | right; by exists c' | done].
Qed.

(** X3: the scan of the services keeps the MAC address of the last container,
    in visiting order, that belongs to a network driver service (kind
    [networkDriverService], name equal to the primary service name) and is on
    this host, or the empty string without one; the local networks are
    exactly the networks of such containers, so the set is empty exactly when
    there is none. *)
Theorem scanServices_drivers (services : list Service.t) (host : Host.t) :
  fst (arpsync.scanServices services host)
  = default ""%string
      (Container.PrimaryMacAddress <$> last (derived.driver_containers services host))
  /\ (forall n, is_Some (snd (arpsync.scanServices services host) !! n)
                <-> exists c, c ∈ derived.driver_containers services host
                              /\ Container.NetworkUUID c = n)
  /\ (size (snd (arpsync.scanServices services host)) = 0%nat
      <-> derived.driver_containers services host = []).
Proof.
  rewrite scanServices_drivers_fold.
  destruct (scan_step_fold (derived.driver_containers services host) (""%string, ∅))
    as [Hmac Hdom].
  split; [exact Hmac |].
  assert (forall n, is_Some (snd (fold_left derived.scan_step
                                    (derived.driver_containers services host) (""%string, ∅)) !! n)
                    <-> exists c, c ∈ derived.driver_containers services host
                                  /\ Container.NetworkUUID c = n) as Hdom'.
  { intros n. rewrite Hdom. cbn [snd]. rewrite lookup_empty. split; [| by right].
    intros [[? ?] | ?]; done. }
  split; [exact Hdom' |].
  rewrite map_size_empty_iff. split.
  - intros Hempty. destruct (derived.driver_containers services host) as [| c cs] eqn:Hd; [done |].
    assert (is_Some ((∅ : gmap string bool) !! Container.NetworkUUID c)) as [? Hx].
    { rewrite <- Hempty. apply Hdom'. exists c. split; [apply elem_of_cons; by left | done]. }
    by rewrite lookup_empty in Hx.
  - intros Hnone. apply map_empty. intros n.
    destruct (snd (fold_left derived.scan_step _ _) !! n) eqn:Hn; [| done].
    assert (exists c, c ∈ derived.driver_containers services host
                      /\ Container.NetworkUUID c = n) as (c & Hc & _)
        by (apply Hdom'; by eexists).
    rewrite Hnone in Hc. by apply elem_of_nil in Hc.
Qed.

End arp_scan_services.

(** ** The ARP step as a whole *)
Section arp_step.
Context `{!net.Lib}.

Lemma new_calls_same (w w' : World) : calls w' = calls w -> new_calls w w' = [].
Proof. intros E. apply new_calls_app. by rewrite app_nil_r. Qed.

Lemma doSync_error_quiet (atw : arpsync.ARPTableWatcher) (w : World) (err : error) :
  fst (arpsync.doSync atw w) = Some err -> quiet w (snd (arpsync.doSync atw w)).
Proof.
  unfold arpsync.doSync.
  destruct (metadata.GetNetworks _); [| intros _; apply quiet_Errorf].
  destruct (metadata.GetSelfHost _); [| intros _; apply quiet_Errorf].
  destruct (metadata.GetServices _); [| intros _; apply quiet_Errorf].
  destruct (arpsync.scanServices _ _) as [drv localNetworks].
  case_bool_decide; [intros _; apply quiet_refl |].
  destruct (arpsync.getBridgeInfo _) as [[bridge subnetStr] |]; [| intros _; apply quiet_refl].
  destruct (kernel.LinkByName bridge w); [| intros _; apply quiet_Errorf].
  destruct (net.ParseCIDR subnetStr); [| intros _; apply quiet_Errorf].
  destruct (kernel.NeighList w); [| intros _; apply quiet_Errorf].
  destruct (metadata.GetContainers _); [| intros _; apply quiet_Errorf].
  discriminate.
Qed.

(** X4: an ARP step returns nil exactly when every fetch and lookup before
    the loop succeeds; a step that returns an error has asked nothing of the
    kernel and left its tables as they were, only log lines were written. *)
Theorem arp_step_error_mutates_nothing (atw : arpsync.ARPTableWatcher) (w : World) :
  match fst (arpsync.doSync atw w) with
  | Some _ =>
      quiet w (snd (arpsync.doSync atw w)) /\ forall ctx, ~ arpspec.reaches atw w ctx
  | None => exists ctx, arpspec.reaches atw w ctx
  end.
Proof.
  destruct (fst (arpsync.doSync atw w)) as [err |] eqn:Hres.
  - split; [by apply (doSync_error_quiet atw w err) |].
    intros ctx Hreach. rewrite (reaches_doSync _ _ _ Hreach) in Hres. discriminate.
  - destruct (doSync_cases atw w) as [(err & w' & Hstep & _) | (ctx & Hreach & _)].
    + rewrite Hstep in Hres. discriminate.
    + by exists ctx.
Qed.

Lemma reaches_with_call_error (atw : arpsync.ARPTableWatcher) (w : World)
    (f : Call -> option error) (ctx : arpspec.Context) :
  arpspec.reaches atw w ctx <-> arpspec.reaches atw (with_call_error f w) ctx.
Proof. reflexivity. Qed.

(** X5: which mutations fail has no influence on what an ARP step asks of
    the kernel nor on the error it returns: a failed [NeighSet] is logged and
    the loop goes on with the next entry. *)
Theorem arp_step_isolation (atw : arpsync.ARPTableWatcher) (w : World)
    (f : Call -> option error) :
  fst (arpsync.doSync atw (with_call_error f w)) = fst (arpsync.doSync atw w)
  /\ new_calls (with_call_error f w) (snd (arpsync.doSync atw (with_call_error f w)))
     = new_calls w (snd (arpsync.doSync atw w)).
Proof.
  destruct (doSync_cases atw w) as [(err & w' & Hstep & Hcalls & _ & Hno) | (ctx & Hreach & Hstep)].
  - assert (arpsync.doSync atw (with_call_error f w)
            = (Some err, snd (arpsync.doSync atw (with_call_error f w)))
            /\ quiet (with_call_error f w) (snd (arpsync.doSync atw (with_call_error f w))))
      as [Hstep' Hq].
    { revert Hstep. unfold arpsync.doSync.
      change (kernel.NeighList (with_call_error f w)) with (kernel.NeighList w).
      assert (forall b, kernel.LinkByName b (with_call_error f w) = kernel.LinkByName b w) as Hl
          by reflexivity.
      destruct (metadata.GetNetworks _);
        [| intros [= <- _]; split; [reflexivity | apply quiet_Errorf]].
      destruct (metadata.GetSelfHost _);
        [| intros [= <- _]; split; [reflexivity | apply quiet_Errorf]].
      destruct (metadata.GetServices _);
        [| intros [= <- _]; split; [reflexivity | apply quiet_Errorf]].
      destruct (arpsync.scanServices _ _) as [drv localNetworks].
      case_bool_decide; [intros [= <- _]; split; [reflexivity | apply quiet_refl] |].
      destruct (arpsync.getBridgeInfo _) as [[bridge subnetStr] |];
        [| intros [= <- _]; split; [reflexivity | apply quiet_refl]].
      rewrite Hl. destruct (kernel.LinkByName bridge w);
        [| intros [= <- _]; split; [reflexivity | apply quiet_Errorf]].
      destruct (net.ParseCIDR subnetStr);
        [| intros [= <- _]; split; [reflexivity | apply quiet_Errorf]].
      destruct (kernel.NeighList w);
        [| intros [= <- _]; split; [reflexivity | apply quiet_Errorf]].
      destruct (metadata.GetContainers _);
        [| intros [= <- _]; split; [reflexivity | apply quiet_Errorf]].
      discriminate. }
    rewrite Hstep', Hstep. cbn [fst snd]. split; [reflexivity |].
    rewrite (new_calls_same w w' Hcalls).
    apply new_calls_same. by destruct Hq as (_ & _ & _ & _ & _ & ?).
  - pose proof (proj1 (reaches_with_call_error atw w f ctx) Hreach) as Hreach'.
    rewrite (reaches_doSync _ _ _ Hreach'), Hstep. cbn [fst snd]. split; [reflexivity |].
    rewrite (new_calls_app _ _ _ (run_entries_calls ctx _ w)).
    by rewrite (new_calls_app _ _ _ (run_entries_calls ctx _ (with_call_error f w))).
Qed.

Lemma run_entry_frame (ctx : arpspec.Context) (e : netlink.Neigh) (w : World) :
  links (arpspec.run_entries ctx [e] w) = links w
  /\ dnat (arpspec.run_entries ctx [e] w) = dnat w
  /\ read_error (arpspec.run_entries ctx [e] w) = read_error w
  /\ call_error (arpspec.run_entries ctx [e] w) = call_error w.
Proof.
  assert (forall expected w0,
            links (arpsync.fixEntry e expected w0) = links w0
            /\ dnat (arpsync.fixEntry e expected w0) = dnat w0
            /\ read_error (arpsync.fixEntry e expected w0) = read_error w0
            /\ call_error (arpsync.fixEntry e expected w0) = call_error w0) as Hfix.
  { intros expected w0. unfold arpsync.fixEntry.
    destruct (net.ParseMAC expected) as [mac |]; [| done].
    unfold kernel.NeighSet. by destruct (call_error _ _). }
  unfold arpspec.run_entries, arpsync.syncEntries, arpsync.syncEntry; cbn [fold_left].
  destruct (negb _); [done |].
  destruct (_ !! _) as [c |]; [| done].
  destruct (String.eqb (Container.HostUUID c) _).
  - destruct (negb _); [apply Hfix | done].
  - destruct (negb _); [| done].
    apply (Hfix _ (Errorf "arpsync: wrong ARP entry found=%+v(expected: %v) for remote container, fixing it" w)).
Qed.

Lemma run_entries_frame (ctx : arpspec.Context) (es : list netlink.Neigh) (w : World) :
  links (arpspec.run_entries ctx es w) = links w
  /\ dnat (arpspec.run_entries ctx es w) = dnat w
  /\ read_error (arpspec.run_entries ctx es w) = read_error w
  /\ call_error (arpspec.run_entries ctx es w) = call_error w.
Proof.
  revert w. induction es as [| e es IH]; intros w; [done |].
  rewrite run_entries_cons.
  destruct (run_entry_frame ctx e w) as (? & ? & ? & ?).
  destruct (IH (arpspec.run_entries ctx [e] w)) as (? & ? & ? & ?).
  repeat split; congruence.
Qed.

(** X6: every mutation that an ARP step asks for is a [NeighSet] of a copy
    of an entry of the neighbour table in which only the hardware address
    and the [Type] field differ: link, family, flags, address and [State] are
    those of the entry, and [Type] is [NUD_REACHABLE]. *)
Theorem arp_calls_copy_the_entry (atw : arpsync.ARPTableWatcher) (w : World) :
  Forall
    (fun c =>
       exists e n,
         e ∈ neighs w /\ c = CallNeighSet n
         /\ netlink.LinkIndex n = netlink.LinkIndex e
         /\ netlink.Family n = netlink.Family e
         /\ netlink.State n = netlink.State e
         /\ netlink.Flags n = netlink.Flags e
         /\ netlink.IP n = netlink.IP e
         /\ netlink.Type_ n = netlink.NUD_REACHABLE)
    (new_calls w (snd (arpsync.doSync atw w))).
Proof.
  destruct (doSync_cases atw w) as [(err & w' & -> & Hcalls & _) | (ctx & Hreach & ->)];
    cbn [snd].
  - rewrite (new_calls_same w w' Hcalls). constructor.
  - rewrite (new_calls_app _ _ _ (run_entries_calls ctx _ w)).
    apply Forall_forall. intros c Hc.
    apply list_elem_of_In, in_flat_map in Hc as (e & He%list_elem_of_In & Hc%list_elem_of_In).
    apply repair_elem in Hc as (k & mac & _ & _ & _ & _ & ->).
    rewrite (reaches_entries _ _ _ Hreach) in He.
    exists e, (arpspec.repaired e mac). by repeat split.
Qed.


End arp_step.


(** ** The conntrack step as a whole *)
Section conntrack_whole.

Lemma addPort_returns (c : Container.t) (acc : outcome (gmap string Container.t))
    (aPort : string) (m : gmap string Container.t) :
  conntracksync.addPort c acc aPort = Returns m ->
  exists m0, acc = Returns m0
             /\ m = match derived.port_key aPort with
                    | Some k => <[k := c]> m0
                    | None => m0
                    end.
Proof.
  unfold conntracksync.addPort, derived.port_key.
  destruct acc as [m0 | msg]; [| discriminate].
  destruct (strings.Split aPort ":") as [| f1 [| f2 [| f3 [| f4 rest]]]];
    try (intros [= <-]; by exists m0).
  destruct (strings.Split f3 "/" !! 1%nat); [| discriminate].
  intros [= <-]. by exists m0.
Qed.

Lemma addContainers_published (host : Host.t) (containers : list Container.t)
    (acc : outcome (gmap string Container.t)) :
  fold_left (conntracksync.addContainer host) containers acc
  = fold_left (fun acc pc => conntracksync.addPort (snd pc) acc (fst pc))
      (derived.published host containers) acc.
Proof.
  revert acc. induction containers as [| c containers IH]; intros acc; [reflexivity |].
  cbn [fold_left]. unfold derived.published. cbn [flat_map]. rewrite fold_left_app.
  fold (derived.published host containers). rewrite <- IH. f_equal.
  unfold conntracksync.addContainer.
  destruct (String.eqb _ _ && _); cbn [negb fold_left]; [| reflexivity].
  generalize (Container.Ports c). intros ports. revert acc.
  induction ports as [| p ports IHp]; intros acc; [reflexivity |].
  cbn [fold_left fmap list_fmap]. apply IHp.
Qed.

Lemma published_fold_lookup (pcs : list (string * Container.t))
    (m : gmap string Container.t) (k : string) :
  fold_left (fun acc pc => conntracksync.addPort (snd pc) acc (fst pc)) pcs (Returns ∅)
  = Returns m ->
  m !! k
  = snd <$> List.find (fun pc => bool_decide (derived.port_key (fst pc) = Some k)) (rev pcs).
Proof.
  revert m. induction pcs as [| [p c] pcs IH] using rev_ind; intros m.
  { intros [= <-]. apply lookup_empty. }
  rewrite fold_left_app, rev_app_distr. cbn [fold_left rev app List.find fst snd].
  intros (m0 & Hm0 & ->)%addPort_returns. specialize (IH m0 Hm0).
  destruct (derived.port_key p) as [k0 |].
  - destruct (decide (k0 = k)) as [-> | Hne].
    + rewrite bool_decide_eq_true_2 by done. apply lookup_insert_eq.
    + rewrite bool_decide_eq_false_2 by congruence. by rewrite lookup_insert_ne.
  - rewrite bool_decide_eq_false_2 by done. exact IH.
Qed.

(** X8: when the construction of the published-port map returns, a key maps
    to the container of the last published port, in visiting order over the
    containers of this host and their ports, whose text gives that key
    ([hostIP:hostPort/protocol], the protocol being what follows the first
    slash of the third field); ports without exactly three fields give no
    key, and containers of other hosts give none. *)
Theorem buildContainersMaps_last_wins (ctw : conntracksync.ConntrackTableWatcher)
    (w w1 : World) (host : Host.t) (containers : list Container.t)
    (m : gmap string Container.t) (k : string) :
  metadata.GetSelfHost (conntracksync.mc ctw) = Ok host ->
  metadata.GetContainers (conntracksync.mc ctw) = Ok containers ->
  conntracksync.buildContainersMaps ctw w = (Returns (Ok m), w1) ->
  m !! k
  = snd <$> List.find (fun pc => bool_decide (derived.port_key (fst pc) = Some k))
              (rev (derived.published host containers)).
Proof.
  intros Hhost Hcontainers. unfold conntracksync.buildContainersMaps.
  rewrite Hhost, Hcontainers, addContainers_published.
  destruct (fold_left _ _ _) as [m' | msg] eqn:Hfold; [| discriminate].
  intros [= <- _]. by apply published_fold_lookup.
Qed.

Lemma conntrack_syncEntry_frame (m : gmap string Container.t) (e : conntrack.CTEntry)
    (w : World) :
  links (conntracksync.syncEntry m e w) = links w
  /\ neighs (conntracksync.syncEntry m e w) = neighs w
  /\ read_error (conntracksync.syncEntry m e w) = read_error w
  /\ call_error (conntracksync.syncEntry m e w) = call_error w.
Proof.
  unfold conntracksync.syncEntry.
  destruct (match m !! _ with Some c => Some c | None => _ end) as [c |]; [| done].
  destruct (negb _); [| done].
  unfold kernel.CTEntryDelete. by destruct (call_error _ _).
Qed.

Lemma run_flows_frame (m : gmap string Container.t) (es : list conntrack.CTEntry) (w : World) :
  links (ctspec.run_flows m es w) = links w
  /\ neighs (ctspec.run_flows m es w) = neighs w
  /\ read_error (ctspec.run_flows m es w) = read_error w
  /\ call_error (ctspec.run_flows m es w) = call_error w.
Proof.
  revert w. induction es as [| e es IH]; intros w; [done |].
  unfold ctspec.run_flows in *. cbn [fold_left].
  destruct (conntrack_syncEntry_frame m e w) as (? & ? & ? & ?).
  destruct (IH (conntracksync.syncEntry m e w)) as (? & ? & ? & ?).
  repeat split; congruence.
Qed.

(** The three ways a conntrack step ends. *)
Lemma conntrack_doSync_cases (ctw : conntracksync.ConntrackTableWatcher) (w : World) :
  (exists msg, conntracksync.doSync ctw w = (Panics msg, w))
  \/ (exists err w', conntracksync.doSync ctw w = (Returns (Some err), w') /\ quiet w w')
  \/ (exists m, (forall w', conntracksync.buildContainersMaps ctw w' = (Returns (Ok m), w'))
                /\ read_error w ReadListDNAT = None
                /\ conntracksync.doSync ctw w
                   = (Returns None, ctspec.run_flows m (dnat w) w)).
Proof.
  unfold conntracksync.doSync, conntracksync.buildContainersMaps, kernel.ListDNAT.
  destruct (metadata.GetSelfHost _) as [host | e].
  2: { right. left. eexists _, _. split; [reflexivity |].
       eapply quiet_trans; apply quiet_Errorf. }
  destruct (metadata.GetContainers _) as [containers | e].
  2: { right. left. eexists _, _. split; [reflexivity |].
       eapply quiet_trans; apply quiet_Errorf. }
  destruct (fold_left _ _ _) as [m | msg]; [| left; by eexists].
  destruct (read_error w ReadListDNAT) eqn:Hr.
  - right. left. eexists _, _. split; [reflexivity | apply quiet_Errorf].
  - right. right. exists m. by repeat split.
Qed.

(** X9: a conntrack step that returns an error, or that panics, has asked
    nothing of the kernel and left every table as it was. *)
Theorem conntrack_step_failure_mutates_nothing (ctw : conntracksync.ConntrackTableWatcher)
    (w : World) :
  match fst (conntracksync.doSync ctw w) with
  | Returns None => True
  | Returns (Some _) | Panics _ => quiet w (snd (conntracksync.doSync ctw w))
  end.
Proof.
  destruct (conntrack_doSync_cases ctw w)
    as [(msg & ->) | [(err & w' & -> & Hq) | (m & _ & _ & ->)]]; cbn [fst snd];
    [apply quiet_refl | exact Hq | exact I].
Qed.

(** X10: which deletions fail has no influence on what a conntrack step asks
    of the kernel nor on how it ends: a failed [CTEntryDelete] is logged and
    the loop goes on with the next entry. *)
Theorem conntrack_step_isolation (ctw : conntracksync.ConntrackTableWatcher) (w : World)
    (f : Call -> option error) :
  fst (conntracksync.doSync ctw (with_call_error f w)) = fst (conntracksync.doSync ctw w)
  /\ new_calls (with_call_error f w) (snd (conntracksync.doSync ctw (with_call_error f w)))
     = new_calls w (snd (conntracksync.doSync ctw w)).
Proof.
  unfold conntracksync.doSync, conntracksync.buildContainersMaps, kernel.ListDNAT.
  change (read_error (with_call_error f w)) with (read_error w).
  change (dnat (with_call_error f w)) with (dnat w).
  destruct (metadata.GetSelfHost _) as [host | e];
    [| split; [reflexivity | by rewrite !new_calls_same]].
  destruct (metadata.GetContainers _) as [containers | e];
    [| split; [reflexivity | by rewrite !new_calls_same]].
  destruct (fold_left _ _ _) as [m | msg]; [| split; [reflexivity |]].
  - replace (read_error (with_call_error f w) ReadListDNAT)
      with (read_error w ReadListDNAT) by reflexivity.
    replace (dnat (with_call_error f w)) with (dnat w) by reflexivity.
    destruct (read_error w ReadListDNAT);
      [split; [reflexivity | by rewrite !new_calls_same] |].
    cbn [fst snd]. split; [reflexivity |].
    fold (ctspec.run_flows m (dnat w) (with_call_error f w)).
    fold (ctspec.run_flows m (dnat w) w).
    rewrite (new_calls_app _ _ _ (run_flows_calls m (dnat w) w)).
    by rewrite (new_calls_app _ _ _ (run_flows_calls m (dnat w) (with_call_error f w))).
  - cbn [snd]. by rewrite !new_calls_same.
Qed.

(** X11: after a conntrack step that returned nil and whose deletions all
    succeeded, no entry of the DNAT table is stale: an entry whose specific
    or generic key has a container has the address of that container as its
    reply source. *)
Theorem conntrack_step_converges (ctw : conntracksync.ConntrackTableWatcher) (w w1 : World)
    (m : gmap string Container.t) (x : conntrack.CTEntry) :
  conntracksync.buildContainersMaps ctw w = (Returns (Ok m), w1) ->
  fst (conntracksync.doSync ctw w) = Returns None ->
  (forall c, call_error w c = None) ->
  x ∈ dnat (snd (conntracksync.doSync ctw w)) ->
  ctspec.stale m x = false.
Proof.
  intros Hmap Hres Hok Hx.
  destruct (conntrack_doSync_ok ctw w Hres) as (m' & Hmap' & _ & Hstep).
  rewrite (Hmap' w) in Hmap. injection Hmap as <- _.
  rewrite Hstep in Hx.
  destruct (run_flows_settles m' (dnat w) w Hok) as [_ Hsettled]; [by right |].
  by apply Hsettled.
Qed.

End conntrack_whole.

Lemma buildContainersMaps_last_wins_witness :
  (<["0.0.0.0:8080/tcp"%string :=
       scenario.C "H" "02:aa:aa:aa:aa:05" ["0.0.0.0:8080:80/tcp"]]> ∅
   : gmap string Container.t) !! "0.0.0.0:8080/tcp"%string
  = snd <$> List.find
              (fun pc => bool_decide (derived.port_key (fst pc) = Some "0.0.0.0:8080/tcp"%string))
              (rev (derived.published scenario.H
                      [scenario.C "H" "02:aa:aa:aa:aa:05" ["0.0.0.0:8080:80/tcp"]])).
Proof.
  apply (buildContainersMaps_last_wins
           (scenario.ct_watcher [scenario.C "H" "02:aa:aa:aa:aa:05" ["0.0.0.0:8080:80/tcp"]])
           (scenario.world [] [] []) (scenario.world [] [] [])).
  - reflexivity.
  - reflexivity.
  - vm_compute. reflexivity.
Defined.

Lemma conntrack_step_converges_witness :
  ctspec.stale
    (<["0.0.0.0:8080/tcp"%string :=
         scenario.C "H" "02:aa:aa:aa:aa:05" ["0.0.0.0:8080:80/tcp"]]> ∅)
    (scenario.flow "10.0.0.1" "8080" "tcp" "10.42.0.5")
  = false.
Proof.
  apply (conntrack_step_converges
           (scenario.ct_watcher [scenario.C "H" "02:aa:aa:aa:aa:05" ["0.0.0.0:8080:80/tcp"]])
           (scenario.world [] []
              [scenario.flow "10.0.0.2" "8080" "tcp" "10.42.0.9";
               scenario.flow "10.0.0.1" "8080" "tcp" "10.42.0.5"])
           (scenario.world [] []
              [scenario.flow "10.0.0.2" "8080" "tcp" "10.42.0.9";
               scenario.flow "10.0.0.1" "8080" "tcp" "10.42.0.5"])).
  - vm_compute. reflexivity.
  - vm_compute. reflexivity.
  - intros c. reflexivity.
  - vm_compute. constructor.
Defined.

(** ** The utilities of the veth watcher *)
Section veth_utils.
Variable LocalNetworks : metadata.Client -> result (list Network.t).

Lemma has_bridge_link_size (alllinks : list netlink.Link) (localBridges : gmap string bool) :
  size (utils.localBridgesLinks alllinks localBridges) = 0%nat
  <-> derived.has_bridge_link alllinks localBridges = false.
Proof.
  rewrite map_size_empty_iff. unfold derived.has_bridge_link. split.
  - intros Hempty. destruct (existsb _ _) eqn:Hex; [| done].
    apply existsb_exists in Hex as (b & Hb%list_elem_of_In & Hname%bool_decide_eq_true).
    destruct (localBridgesLinks_complete _ _ _ Hb Hname) as [x Hx].
    rewrite Hempty, lookup_empty in Hx. done.
  - intros Hex. apply map_empty. intros i.
    destruct (utils.localBridgesLinks alllinks localBridges !! i) as [b |] eqn:Hb; [| done].
    apply localBridgesLinks_lookup in Hb as (Hin & Hname & _).
    assert (existsb (fun b => bool_decide (is_Some (localBridges !! netlink.Name b))) alllinks
            = true) as Htrue; [| congruence].
    apply existsb_exists. exists b. split; [by apply list_elem_of_In |].
    by apply bool_decide_eq_true.
Qed.

(** X12: what [GetHostViewVethMap] returns.  A failed read of the links or of
    the local networks is returned as it is; without a link that carries the
    name of a local bridge the result is the error [couldn't find any local
    bridge link]; otherwise the map holds, under the decimal text of its
    index, a link for every index of a link that has the prefix and whose
    master is such a bridge link, and nothing else. *)
Theorem GetHostViewVethMap_result (vethPrefix : string) (mc : metadata.Client) (w : World) :
  match kernel.LinkList w, LocalNetworks mc with
  | Err err, _ => fst (utils.GetHostViewVethMap LocalNetworks vethPrefix mc w) = Err err
  | Ok _, Err err => fst (utils.GetHostViewVethMap LocalNetworks vethPrefix mc w) = Err err
  | Ok alllinks, Ok localNetworks =>
      let localBridges := fst (utils.localBridgesOf localNetworks w) in
      if derived.has_bridge_link alllinks localBridges then
        exists hostVethMap,
          fst (utils.GetHostViewVethMap LocalNetworks vethPrefix mc w) = Ok hostVethMap
          /\ (forall k l, hostVethMap !! k = Some l ->
                derived.is_host_veth vethPrefix alllinks localBridges l
                /\ k = strconv.Itoa (netlink.Index l))
          /\ (forall l, derived.is_host_veth vethPrefix alllinks localBridges l ->
                exists l', hostVethMap !! strconv.Itoa (netlink.Index l) = Some l'
                           /\ netlink.Index l' = netlink.Index l)
      else fst (utils.GetHostViewVethMap LocalNetworks vethPrefix mc w)
           = Err "couldn't find any local bridge link"
  end.
Proof.
  unfold utils.GetHostViewVethMap.
  destruct (kernel.LinkList w) as [alllinks | e]; [| reflexivity].
  destruct (LocalNetworks mc) as [localNetworks | e]; [| reflexivity].
  cbv zeta.
  destruct (utils.localBridgesOf localNetworks w) as [localBridges w1] eqn:Hlb. cbn [fst].
  pose proof (has_bridge_link_size alllinks localBridges) as Hsize.
  destruct (derived.has_bridge_link alllinks localBridges).
  - rewrite bool_decide_eq_false_2 by (intros E; apply Hsize in E; discriminate).
    eexists. split; [reflexivity |]. split.
    + intros k l Hl. apply vethsOf_lookup in Hl as (Hin & Hprefix & [b Hb] & ->).
      apply localBridgesLinks_lookup in Hb as (Hbin & Hbname & Hbidx).
      split; [| done]. split; [done |]. split; [done |]. by exists b.
    + intros l (Hin & Hprefix & b & Hbin & Hbname & Hbidx).
      pose proof (localBridgesLinks_complete _ _ _ Hbin Hbname) as Hmaster.
      rewrite Hbidx in Hmaster.
      destruct (vethsOf_complete vethPrefix _ _ _ Hin Hprefix Hmaster) as [l' Hl'].
      exists l'. split; [done |].
      apply vethsOf_lookup in Hl' as (_ & _ & _ & Hk).
      symmetry. by apply (inj pretty) in Hk.
  - rewrite bool_decide_eq_true_2 by (by apply Hsize). reflexivity.
Qed.

Lemma entered_fold (dc : docker.Client) (containers : list docker.Container)
    (X : gset string) (w : World) :
  fst (fold_left (utils.addContainerVeth dc) containers (gset_to_gmap true X, w))
  = gset_to_gmap true (X ∪ list_to_set (derived.entered dc containers)).
Proof.
  revert X w. induction containers as [| d containers IH]; intros X w.
  { cbn. by rewrite (right_id_L ∅ (∪)). }
  cbn [fold_left]. unfold derived.entered. cbn [omap list_omap].
  fold (derived.entered dc containers).
  unfold utils.addContainerVeth at 2.
  destruct (String.eqb (docker.NetworkMode d) "host"); [apply IH |].
  destruct (docker.eth0 dc (docker.ID d)) as [link | e]; [| apply IH].
  rewrite <- gset_to_gmap_union_singleton, IH. f_equal.
  cbn [list_to_set]. by rewrite (assoc_L (∪)), (comm_L (∪) X).
Qed.

(** X13: what [GetContainersViewVethMapByEnteringNS] returns.  Only a failed
    listing of the containers makes it fail; otherwise the map is the set of
    the decimal texts of the parent index of [eth0] of the containers off the
    host network whose namespace could be entered, each with the value true:
    a container whose namespace cannot be entered is left out and fails
    nothing. *)
Theorem GetContainersViewVethMapByEnteringNS_result (dc : docker.Client) (w : World) :
  fst (utils.GetContainersViewVethMapByEnteringNS dc w)
  = match docker.ContainerList dc with
    | Err err => Err err
    | Ok containers =>
        Ok (gset_to_gmap true (list_to_set (derived.entered dc containers)))
    end.
Proof.
  unfold utils.GetContainersViewVethMapByEnteringNS.
  destruct (docker.ContainerList dc) as [containers | e]; [| reflexivity].
  pose proof (entered_fold dc containers ∅ w) as Hfold.
  rewrite gset_to_gmap_empty in Hfold.
  destruct (fold_left _ _ _) as [m w']. cbn [fst] in *. rewrite Hfold.
  by rewrite (left_id_L ∅ (∪)).
Qed.

Lemma id_names_fold (containers : list docker.Container) (X : gset string) :
  fold_left utils.addContainerID containers (Returns (gset_to_gmap true X))
  = if existsb derived.short_id containers
    then Panics "runtime error: slice bounds out of range"
    else Returns (gset_to_gmap true (X ∪ list_to_set (derived.id_names containers))).
Proof.
  revert X. induction containers as [| d containers IH]; intros X.
  { cbn. by rewrite (right_id_L ∅ (∪)). }
  cbn [fold_left existsb]. unfold derived.id_names. cbn [omap list_omap].
  fold (derived.id_names containers).
  unfold utils.addContainerID at 2, derived.short_id at 1, utils.slice_to.
  destruct (String.eqb (docker.NetworkMode d) "host"); cbn [negb andb orb]; [apply IH |].
  destruct (String.length (docker.ID d) <? 10)%nat; cbn [orb].
  - clear IH. induction containers as [| d' containers IH']; [reflexivity |].
    cbn [fold_left]. exact IH'.
  - rewrite <- gset_to_gmap_union_singleton, IH.
    destruct (existsb derived.short_id containers); [reflexivity |].
    cbn [list_to_set]. by rewrite (assoc_L (∪)), (comm_L (∪) X).
Qed.

(** X14: what [GetContainersViewVethMapUsingID] returns.  A failed listing of
    the containers is returned as it is.  Otherwise the function panics
    exactly when some container off the host network has an ID of fewer than
    ten bytes; without one the map is the set of the names [vethr] followed
    by the first ten bytes of the ID of each container off the host network,
    and no log line is written. *)
Theorem GetContainersViewVethMapUsingID_result (dc : docker.Client) (w : World) :
  match docker.ContainerList dc with
  | Err err => fst (utils.GetContainersViewVethMapUsingID dc w) = Returns (Err err)
  | Ok containers =>
      utils.GetContainersViewVethMapUsingID dc w
      = (if existsb derived.short_id containers
         then Panics "runtime error: slice bounds out of range"
         else Returns (Ok (gset_to_gmap true (list_to_set (derived.id_names containers)))),
         w)
  end.
Proof.
  unfold utils.GetContainersViewVethMapUsingID.
  destruct (docker.ContainerList dc) as [containers | e]; [| reflexivity].
  pose proof (id_names_fold containers ∅) as Hfold.
  rewrite gset_to_gmap_empty in Hfold. rewrite Hfold.
  destruct (existsb derived.short_id containers); [reflexivity |].
  by rewrite (left_id_L ∅ (∪)).
Qed.

Lemma usingID_quiet (dc : docker.Client) (w : World) :
  quiet w (snd (utils.GetContainersViewVethMapUsingID dc w)).
Proof.
  unfold utils.GetContainersViewVethMapUsingID.
  destruct (docker.ContainerList dc) as [containers | e]; [| apply quiet_Errorf].
  destruct (fold_left _ _ _); apply quiet_refl.
Qed.

(** X15: the views are read-only: [GetHostViewVethMap] and both container
    views ask no mutation of the kernel and leave the links, the neighbours
    and the DNAT entries as they were, whatever they return; they only write
    log lines. *)
Theorem veth_views_read_only (vethPrefix : string) (mc : metadata.Client)
    (dc : docker.Client) (w : World) :
  quiet w (snd (utils.GetHostViewVethMap LocalNetworks vethPrefix mc w))
  /\ quiet w (snd (utils.GetContainersViewVethMapByEnteringNS dc w))
  /\ quiet w (snd (utils.GetContainersViewVethMapUsingID dc w)).
Proof.
  split; [apply GetHostViewVethMap_quiet |].
  split; [apply containerView_quiet | apply usingID_quiet].
Qed.

(** X16: the algebra of [GetDanglingVeths].  The result is a part of the host
    view; with an empty container view it is the whole host view; it depends
    on the keys of the container view only, not on its values; a larger
    container view gives a smaller result; and taking the dangling members of
    the result again changes nothing. *)
Theorem GetDanglingVeths_algebra (hostVethMap : gmap string netlink.Link)
    (containerVethMap : gmap string bool) :
  utils.GetDanglingVeths hostVethMap containerVethMap ⊆ hostVethMap
  /\ utils.GetDanglingVeths hostVethMap ∅ = hostVethMap
  /\ (forall other : gmap string bool,
        dom other = dom containerVethMap ->
        utils.GetDanglingVeths hostVethMap other
        = utils.GetDanglingVeths hostVethMap containerVethMap)
  /\ (forall larger : gmap string bool,
        containerVethMap ⊆ larger ->
        utils.GetDanglingVeths hostVethMap larger
        ⊆ utils.GetDanglingVeths hostVethMap containerVethMap)
  /\ utils.GetDanglingVeths (utils.GetDanglingVeths hostVethMap containerVethMap)
       containerVethMap
     = utils.GetDanglingVeths hostVethMap containerVethMap
  /\ dom (utils.GetDanglingVeths hostVethMap containerVethMap)
     = dom hostVethMap ∖ dom containerVethMap.
Proof.
  unfold utils.GetDanglingVeths. repeat split.
  - apply map_filter_subseteq.
  - apply map_eq. intros k. destruct (hostVethMap !! k) as [l |] eqn:Hk.
    + apply map_lookup_filter_Some. split; [done | apply lookup_empty].
    + apply map_lookup_filter_None. by left.
  - intros other Hdom. apply map_filter_ext. intros k l _. cbn [fst].
    rewrite <- !not_elem_of_dom, Hdom. done.
  - intros larger Hsub. apply map_subseteq_spec. intros k l.
    intros [Hk Hfree]%map_lookup_filter_Some. apply map_lookup_filter_Some.
    split; [done |]. cbn [fst] in *.
    destruct (containerVethMap !! k) as [v |] eqn:Hv; [| done].
    eapply lookup_weaken in Hv; [| exact Hsub]. congruence.
  - apply map_eq. intros k.
    destruct (filter (fun kv => containerVethMap !! fst kv = None) hostVethMap !! k)
      as [l |] eqn:Hk.
    + apply map_lookup_filter_Some. split; [done |].
      by apply map_lookup_filter_Some in Hk as [_ ?].
    + apply map_lookup_filter_None. by left.
  - apply set_eq. intros k. rewrite elem_of_difference, !elem_of_dom. split.
    + intros [l [Hk Hfree]%map_lookup_filter_Some]. cbn [fst] in Hfree.
      split; [by eexists |]. rewrite Hfree. by intros [? ?].
    + intros [[l Hk] Hfree]. exists l. apply map_lookup_filter_Some. split; [done |].
      cbn [fst]. destruct (containerVethMap !! k); [| done]. exfalso. apply Hfree. by eexists.
Qed.



(** X17: failures are isolated in [CleanUpDanglingVeths]: whichever
    deletions fail, the function asks exactly one [LinkDel] for each member
    of the map, of the link of that member, and nothing else. *)
Theorem CleanUpDanglingVeths_isolation (dangling : gmap string netlink.Link) (w : World)
    (f : Call -> option error) :
  new_calls (with_call_error f w) (utils.CleanUpDanglingVeths dangling (with_call_error f w))
  = new_calls w (utils.CleanUpDanglingVeths dangling w)
  /\ length (new_calls w (utils.CleanUpDanglingVeths dangling w)) = size dangling
  /\ forall c, c ∈ new_calls w (utils.CleanUpDanglingVeths dangling w)
               <-> exists k l, dangling !! k = Some l /\ c = CallLinkDel l.
Proof.
  rewrite (new_calls_app _ _ _ (CleanUpDanglingVeths_calls dangling w)).
  rewrite (new_calls_app _ _ _ (CleanUpDanglingVeths_calls dangling (with_call_error f w))).
  split; [reflexivity |]. split.
  - by rewrite length_fmap, length_map_to_list.
  - intros c. rewrite list_elem_of_fmap. split.
    + intros ([k l] & -> & Hin%elem_of_map_to_list). by exists k, l.
    + intros (k & l & Hk & ->). exists (k, l). split; [done |]. by apply elem_of_map_to_list.
Qed.


End veth_utils.

Section veth_convergence.
Variables LocalNetworks LocalNetworks' : metadata.Client -> result (list Network.t).

(** X19: one clean-up is enough.  When the host view is taken, its dangling
    members with respect to a container view are deleted without a failure,
    and the host view is taken again, in whatever order it then visits the
    CNI configs, then no member of the new host view is dangling with
    respect to the same container view, provided the members of every local
    network's config that name a bridge name the same one. *)
Theorem veth_cleanup_converges (vethPrefix : string) (mc : metadata.Client)
    (w wa w' : World) (hostVethMap hostVethMap' : gmap string netlink.Link)
    (containerVethMap : gmap string bool) :
  utils.GetHostViewVethMap LocalNetworks vethPrefix mc w = (Ok hostVethMap, wa) ->
  (forall c, call_error w c = None) ->
  order.local_revisit LocalNetworks LocalNetworks' mc ->
  (forall nets, LocalNetworks mc = Ok nets -> Forall order.bridges_agree nets) ->
  utils.GetHostViewVethMap LocalNetworks' vethPrefix mc
    (utils.CleanUpDanglingVeths (utils.GetDanglingVeths hostVethMap containerVethMap) wa)
  = (Ok hostVethMap', w') ->
  utils.GetDanglingVeths hostVethMap' containerVethMap = ∅.
Proof.
  intros Hhost Hok Hrevisit Hagree Hhost'.
  apply (clean_up_settles LocalNetworks LocalNetworks' vethPrefix mc w wa wa w'
           hostVethMap hostVethMap' containerVethMap containerVethMap).
  - exact Hhost.
  - apply quiet_refl.
  - exact Hok.
  - exact Hrevisit.
  - exact Hagree.
  - exact Hhost'.
  - by intros k Hk.
Qed.

End veth_convergence.

Lemma veth_cleanup_converges_witness :
  utils.GetDanglingVeths (<["42"%string := scenario.veth "vethA" 42]> ∅)
    (<["42"%string := true]> ∅)
  = ∅.
Proof.
  apply (veth_cleanup_converges
           (scenario.localNetworks_with [scenario.plugin_bridge; scenario.plugin_portmap])
           (scenario.localNetworks_with [scenario.plugin_portmap; scenario.plugin_bridge])
           "veth" (scenario.client [])
           (scenario.world [scenario.docker0; scenario.veth "vethA" 42; scenario.veth "vethB" 43]
              [] [])
           (scenario.world [scenario.docker0; scenario.veth "vethA" 42; scenario.veth "vethB" 43]
              [] [])
           {| links := [scenario.docker0; scenario.veth "vethA" 42]; neighs := []; dnat := [];
              read_error := fun _ => None; call_error := fun _ => None;
              calls := [CallLinkDel (scenario.veth "vethB" 43)]; errors_logged := [] |}
           (<["42"%string := scenario.veth "vethA" 42]>
              (<["43"%string := scenario.veth "vethB" 43]> ∅))).
  - vm_compute. reflexivity.
  - intros c. reflexivity.
  - cbn. constructor; [| constructor]. split; [reflexivity | apply perm_swap].
  - intros nets [= <-]. constructor; [| constructor].
    intros m1 m2 b1 b2 Hm1 Hm2 Hb1 Hb2. vm_compute in Hm1, Hm2.
    apply elem_of_cons in Hm1 as [-> | Hm1%list_elem_of_singleton];
      apply elem_of_cons in Hm2 as [-> | Hm2%list_elem_of_singleton];
      subst; vm_compute in Hb1, Hb2; congruence.
  - vm_compute. reflexivity.
Defined.

Lemma pretty_N_go_ne_v (x : N) (s s' : string) :
  s <> String "v" s' -> pretty_N_go x s <> String "v" s'.
Proof.
  revert s. induction (N.lt_wf_0 x) as [x _ IH]; intros s Hs.
  assert (x = 0 \/ 0 < x)%N as [-> | Hpos] by lia.
  - by rewrite pretty_N_go_0.
  - rewrite pretty_N_go_step by done. apply IH.
    { by apply N.div_lt. }
    unfold pretty_N_char. by repeat case_match.
Qed.

Lemma Itoa_ne_vethr (i : Z) (s : string) : strconv.Itoa i <> "vethr" +:+ s.
Proof.
  unfold strconv.Itoa, pretty, pretty_Z. destruct i as [| p | p]; [done | | done].
  change (pretty (N.pos p) <> "vethr" +:+ s). unfold pretty, pretty_N.
  destruct (decide (N.pos p = 0%N)); [done |].
  by apply pretty_N_go_ne_v.
Qed.

Section veth_views.
Variable LocalNetworks : metadata.Client -> result (list Network.t).

(** X20: the two key spaces do not meet.  The host view is keyed by the
    decimal text of the link index and the view by container ID by names
    that start with [vethr], so against the view by ID every member of the
    host view is dangling: [GetDanglingVeths] returns the whole host view. *)
Theorem id_view_never_matches_host_view (vethPrefix : string) (mc : metadata.Client)
    (dc : docker.Client) (w w1 w2 w3 : World)
    (hostVethMap : gmap string netlink.Link) (idView : gmap string bool) :
  utils.GetHostViewVethMap LocalNetworks vethPrefix mc w = (Ok hostVethMap, w1) ->
  utils.GetContainersViewVethMapUsingID dc w2 = (Returns (Ok idView), w3) ->
  utils.GetDanglingVeths hostVethMap idView = hostVethMap.
Proof.
  intros Hhost Hview.
  pose proof (GetHostViewVethMap_Ok LocalNetworks _ _ _ _ _ Hhost)
    as (nets & _ & _ & Hhosteq & _).
  unfold utils.GetContainersViewVethMapUsingID in Hview.
  destruct (docker.ContainerList dc) as [containers | e]; [| discriminate].
  pose proof (id_names_fold containers ∅) as Hfold.
  rewrite gset_to_gmap_empty in Hfold. rewrite Hfold in Hview.
  destruct (existsb derived.short_id containers); [discriminate |].
  injection Hview as <- _.
  apply map_eq. intros k. unfold utils.GetDanglingVeths.
  destruct (hostVethMap !! k) as [l |] eqn:Hk.
  - apply map_lookup_filter_Some. split; [done |]. cbn [fst].
    apply lookup_gset_to_gmap_None. rewrite (left_id_L ∅ (∪)), elem_of_list_to_set.
    unfold derived.id_names. rewrite list_elem_of_omap. intros (d & _ & Hd).
    rewrite Hhosteq in Hk. apply vethsOf_lookup in Hk as (_ & _ & _ & ->).
    destruct (String.eqb (docker.NetworkMode d) "host"); [discriminate |].
    injection Hd as Hd. symmetry in Hd. by apply Itoa_ne_vethr in Hd.
  - apply map_lookup_filter_None. by left.
Qed.

End veth_views.

Lemma id_view_never_matches_host_view_witness :
  utils.GetDanglingVeths (<["42"%string := scenario.veth "vethA" 42]> ∅)
    (<["vethr0123456789"%string := true]> ∅)
  = <["42"%string := scenario.veth "vethA" 42]> ∅.
Proof.
  apply (id_view_never_matches_host_view scenario.localNetworks "veth" (scenario.client [])
           {| docker.ContainerList :=
                Ok [{| docker.ID := "0123456789ab"; docker.NetworkMode := "default" |}];
              docker.eth0 := fun _ => Err "no namespace" |}
           (scenario.world [scenario.docker0; scenario.veth "vethA" 42] [] [])
           (scenario.world [scenario.docker0; scenario.veth "vethA" 42] [] [])
           (scenario.world [scenario.docker0; scenario.veth "vethA" 42] [] [])
           (scenario.world [scenario.docker0; scenario.veth "vethA" 42] [] [])).
  - vm_compute. reflexivity.
  - vm_compute. reflexivity.
Defined.

(** ** What the steps leave alone *)
Section write_sets.
Context `{!net.Lib}.

Lemma pickLocalNetwork_none (networks : list Network.t) (localNetworks : gmap string bool) :
  (forall n, n ∈ networks -> localNetworks !! Network.UUID n = None) ->
  arpsync.pickLocalNetwork networks localNetworks = Network.zero.
Proof.
  induction networks as [| n networks IH]; intros Hnone; [reflexivity |].
  cbn [arpsync.pickLocalNetwork]. rewrite (Hnone n) by (apply elem_of_cons; by left).
  apply IH. intros n' Hn'. apply Hnone. apply elem_of_cons. by right.
Qed.

(** X21: each step writes to its own table only.  An ARP step leaves the
    links and the DNAT entries as they were, and a conntrack step leaves the
    links and the neighbours as they were, however the step ends. *)
Theorem steps_touch_only_their_table (atw : arpsync.ARPTableWatcher)
    (ctw : conntracksync.ConntrackTableWatcher) (w : World) :
  (links (snd (arpsync.doSync atw w)) = links w
   /\ dnat (snd (arpsync.doSync atw w)) = dnat w)
  /\ (links (snd (conntracksync.doSync ctw w)) = links w
      /\ neighs (snd (conntracksync.doSync ctw w)) = neighs w).
Proof.
  split.
  - destruct (doSync_cases atw w) as [(err & w' & Hstep & _) | (ctx & _ & Hstep)].
    + pose proof (doSync_error_quiet atw w err) as Hq. rewrite Hstep in Hq. cbn [fst snd] in Hq.
      destruct (Hq eq_refl) as (? & _ & ? & _). rewrite Hstep. by split.
    + rewrite Hstep. cbn [snd].
      destruct (run_entries_frame ctx (arpspec.entries ctx) w) as (? & ? & _). by split.
  - destruct (conntrack_doSync_cases ctw w)
      as [(msg & ->) | [(err & w' & -> & Hq) | (m & _ & _ & ->)]]; cbn [snd].
    + by split.
    + destruct Hq as (? & ? & _). by split.
    + destruct (run_flows_frame m (dnat w) w) as (? & ? & _). by split.
Qed.

(** X22: when the network driver has containers on this host but none of
    the networks of metadata is the network of one of them, the local
    network is the zero value, which has no CNI config: the step returns
    [arpsync: couldn't find bridge info] and leaves the world as it was, log
    included. *)
Theorem arp_step_without_local_network (atw : arpsync.ARPTableWatcher) (w : World)
    (networks : list Network.t) (host : Host.t) (services : list Service.t) :
  metadata.GetNetworks (arpsync.mc atw) = Ok networks ->
  metadata.GetSelfHost (arpsync.mc atw) = Ok host ->
  metadata.GetServices (arpsync.mc atw) = Ok services ->
  derived.driver_containers services host <> [] ->
  (forall n c, n ∈ networks -> c ∈ derived.driver_containers services host ->
               Container.NetworkUUID c <> Network.UUID n) ->
  arpsync.doSync atw w = (Some "arpsync: couldn't find bridge info"%string, w).
Proof.
  intros Hnetworks Hhost Hservices Hsome Hnone. unfold arpsync.doSync.
  rewrite Hnetworks, Hhost, Hservices, scanServices_drivers_fold.
  destruct (scan_step_fold (derived.driver_containers services host) (""%string, ∅))
    as [_ Hdom].
  destruct (fold_left derived.scan_step _ _) as [drv localNetworks]. cbn [snd] in Hdom.
  rewrite bool_decide_eq_false_2.
  2: { rewrite map_size_empty_iff. intros ->.
       destruct (derived.driver_containers services host) as [| c cs]; [done |].
       assert (is_Some ((∅ : gmap string bool) !! Container.NetworkUUID c)) as [? Hx].
       { apply Hdom. right. exists c. split; [apply elem_of_cons; by left | done]. }
       by rewrite lookup_empty in Hx. }
  rewrite pickLocalNetwork_none; [reflexivity |].
  intros n Hn. destruct (localNetworks !! Network.UUID n) eqn:Hl; [| done].
  assert (is_Some (localNetworks !! Network.UUID n)) as Hs by (by eexists).
  apply Hdom in Hs as [[? Hx] | (c & Hc & Hu)]; [by rewrite lookup_empty in Hx |].
  exfalso. by apply (Hnone n c).
Qed.

End write_sets.

Lemma arp_step_without_local_network_witness :
  @arpsync.doSync gonet.lib
    (arpsync.Watch ""
       {| metadata.GetNetworks := Ok [{| Network.UUID := "M"; Network.Metadata := [] |}];
          metadata.GetSelfHost := Ok scenario.H;
          metadata.GetServices := Ok [scenario.driverService];
          metadata.GetContainers := Ok [] |})
    (scenario.world [] [] [])
  = (Some "arpsync: couldn't find bridge info"%string, scenario.world [] [] []).
Proof.
  apply (@arp_step_without_local_network gonet.lib _ _
           [{| Network.UUID := "M"; Network.Metadata := [] |}] scenario.H
           [scenario.driverService]).
  - reflexivity.
  - reflexivity.
  - reflexivity.
  - vm_compute. discriminate.
  - intros n c Hn Hc. vm_compute in Hc.
    apply list_elem_of_singleton in Hn. apply list_elem_of_singleton in Hc.
    subst n c. vm_compute. discriminate.
Defined.
